(** * sqlalchemy/sql/sqltypes.py: a shallow embedding of the SQL type engine

    Marshaling (bind / result / literal processors), expression adaptation
    and schema-bound constraint rules of [lib/sqlalchemy/sql/sqltypes.py],
    followed by the properties the specification states about them. *)

From Stdlib Require Import Ascii QArith Qcanon.
From stdpp Require Import base option numbers countable strings list gmap.

Local Open Scope string_scope.
Local Open Scope Z_scope.

(** ** Python values, exceptions and dictionaries *)

Module Py.

(** The host values the processors of this module receive.  [PFloat] is
    a finite number of a numeric type that is not [int] ([float],
    [Decimal], [Fraction]), given by its value: such a number hashes and
    compares as the [int] of the same value.  [PStrObj] and [PIntObj] are
    instances, with an identity of their own, of a subclass of [str] and
    of [int] (a member of an enumeration class with a [str] or an [int]
    mix-in), hashed and compared as the string and the integer they hold.
    [PObj] is an object compared and hashed by identity (a member of a
    plain [enum.Enum] class, a foreign object); [PSymbol] is a
    [util.symbol], interned by name; [PNullElement] is an instance of
    [elements.Null] ([null()]). *)
Inductive PyVal :=
| PNone
| PBool (b : bool)
| PInt (n : Z)
| PFloat (x : Qc)
| PStr (s : string)
| PStrObj (id : nat) (s : string)
| PIntObj (id : nat) (n : Z)
| PSymbol (name : string)
| PNullElement
| PObj (id : nat).

#[global] Instance PyVal_eq_dec : EqDecision PyVal.
Proof. solve_decision. Defined.

#[global] Instance PyVal_countable : Countable PyVal.
Proof.
  refine (inj_countable'
    (λ v, match v with
          | PNone => inl (inl ())
          | PNullElement => inl (inr ())
          | PBool b => inr (inl (inl (inl b)))
          | PInt n => inr (inl (inl (inr n)))
          | PFloat x => inr (inl (inr x))
          | PStr s => inr (inr (inl (inl (inl s))))
          | PSymbol s => inr (inr (inl (inl (inr s))))
          | PStrObj o s => inr (inr (inl (inr (inl (o, s)))))
          | PIntObj o n => inr (inr (inl (inr (inr (o, n)))))
          | PObj o => inr (inr (inr o))
          end)
    (λ x, match x with
          | inl (inl _) => PNone
          | inl (inr _) => PNullElement
          | inr (inl (inl (inl b))) => PBool b
          | inr (inl (inl (inr n))) => PInt n
          | inr (inl (inr x)) => PFloat x
          | inr (inr (inl (inl (inl s)))) => PStr s
          | inr (inr (inl (inl (inr s)))) => PSymbol s
          | inr (inr (inl (inr (inl (o, s))))) => PStrObj o s
          | inr (inr (inl (inr (inr (o, n))))) => PIntObj o n
          | inr (inr (inr o)) => PObj o
          end) _).
  by intros [].
Defined.

(** The exceptions raised in this module.  An exception built from a
    format string carries the arguments of the format:
    [LookupError elem name enums] stands for
    ["'%s' is not among the defined enum values. Enum name: %s. Possible
    values: %s" % (elem, self.name, langhelpers.repr_tuple_names(self.enums))]. *)
Inductive PyError :=
| KeyError (key : PyVal)
| LookupError (elem : PyVal) (enum_name : option string)
              (possible_values : list string)
| TypeError (arg : PyVal)
| ValueError (args : list PyVal)
| AttributeError (attr : string)
| NotImplementedError.

Inductive result (A : Type) :=
| Ok (a : A)
| Raise (e : PyError).
Arguments Ok {A} a.
Arguments Raise {A} e.

#[global] Instance result_ret : MRet result := λ A a, Ok a.
#[global] Instance result_bind : MBind result :=
  λ A B f m, match m with Ok a => f a | Raise e => Raise e end.

Fixpoint mapM_result {A B} (f : A → result B) (l : list A) : result (list B) :=
  match l with
  | [] => Ok []
  | x :: l' => y ← f x; ys ← mapM_result f l'; Ok (y :: ys)
  end.

(** [isinstance(v, str)], [isinstance(v, int)] ([bool] is a subclass of
    [int]) and truthiness. *)
Definition isinstance_str (v : PyVal) : bool :=
  match v with PStr _ | PStrObj _ _ => true | _ => false end.

Definition isinstance_int (v : PyVal) : bool :=
  match v with PBool _ | PInt _ | PIntObj _ _ => true | _ => false end.

Definition truthy (v : PyVal) : bool :=
  match v with
  | PNone => false
  | PBool b => b
  | PInt n | PIntObj _ n => negb (n =? 0)
  | PFloat x => negb (Qnum x =? 0)
  | PStr s | PStrObj _ s => negb (String.eqb s "")
  | PSymbol _ | PNullElement | PObj _ => true
  end.

(** Keys of a [dict] or [frozenset] are found by [hash] and [==]:
    [True] and [1], [False] and [0] are the same key, and so are a number
    and the [int] of the same value, and an instance of a subclass of
    [str] or [int] and the value it holds. *)
Definition py_key (v : PyVal) : PyVal :=
  match v with
  | PBool b => PInt (Z.b2z b)
  | PFloat x => if bool_decide (Qden x = 1%positive) then PInt (Qnum x) else v
  | PStrObj _ s => PStr s
  | PIntObj _ n => PInt n
  | _ => v
  end.

Definition dict_get (d : gmap PyVal PyVal) (k : PyVal) : option PyVal :=
  d !! py_key k.

Definition dict_set (d : gmap PyVal PyVal) (k v : PyVal) : gmap PyVal PyVal :=
  <[py_key k := v]> d.

(** [d[k]] *)
Definition getitem (d : gmap PyVal PyVal) (k : PyVal) : result PyVal :=
  match dict_get d k with
  | Some v => Ok v
  | None => Raise (KeyError k)
  end.

(** [d.update(pairs)]: the pairs are stored from left to right, a later
    pair overriding an earlier one with the same key. *)
Definition dict_update (d : gmap PyVal PyVal) (pairs : list (PyVal * PyVal))
  : gmap PyVal PyVal :=
  foldl (λ d kv, dict_set d kv.1 kv.2) d pairs.

(** [dict(pairs)] *)
Definition py_dict (pairs : list (PyVal * PyVal)) : gmap PyVal PyVal :=
  dict_update ∅ pairs.

(** [s.replace(c, by)] for a one-character pattern. *)
Fixpoint str_replace (c : Ascii.ascii) (by_ : string) (s : string) : string :=
  match s with
  | EmptyString => EmptyString
  | String a s' =>
      if Ascii.eqb a c then by_ +:+ str_replace c by_ s'
      else String a (str_replace c by_ s')
  end.

End Py.
Export Py.

(** ** The backend capability descriptor

    What this module reads from a [Dialect]: its name, its feature flags,
    [identifier_preparer._double_percents], the optional [_json_serializer]
    and the text its statement compiler renders for [true] and [false]
    ([compiler.visit_true(None)], [compiler.visit_false(None)]). *)

Module Dialect.
Record t := {
  name : string;
  supports_native_decimal : bool;
  supports_native_boolean : bool;
  supports_native_enum : bool;
  non_native_boolean_check_constraint : bool;
  _double_percents : bool;
  _json_serializer : option (PyVal → result PyVal);
  visit_true : string;
  visit_false : string;
}.
End Dialect.

(** ** The classes of the module, and the operators *)

(** The [TypeEngine] classes defined in [sqltypes.py]. *)
Module Cls.

Inductive t :=
| String | Text | Unicode | UnicodeText
| Integer | SmallInteger | BigInteger
| Numeric | Float | Double
| DateTime | Date | Time
| _Binary | LargeBinary
| Enum | PickleType | Boolean | Interval | JSON | ARRAY | TupleType
| REAL | FLOAT | DOUBLE | DOUBLE_PRECISION | NUMERIC | DECIMAL
| INTEGER | SMALLINT | BIGINT
| TIMESTAMP | DATETIME | DATE | TIME
| TEXT | CLOB | VARCHAR | NVARCHAR | CHAR | NCHAR
| BLOB | BINARY | VARBINARY | BOOLEAN
| NullType | TableValueType | MatchType.

Definition to_nat (c : t) : nat :=
  match c with
  | String => 0 | Text => 1 | Unicode => 2 | UnicodeText => 3
  | Integer => 4 | SmallInteger => 5 | BigInteger => 6
  | Numeric => 7 | Float => 8 | Double => 9
  | DateTime => 10 | Date => 11 | Time => 12
  | _Binary => 13 | LargeBinary => 14
  | Enum => 15 | PickleType => 16 | Boolean => 17 | Interval => 18
  | JSON => 19 | ARRAY => 20 | TupleType => 21
  | REAL => 22 | FLOAT => 23 | DOUBLE => 24 | DOUBLE_PRECISION => 25
  | NUMERIC => 26 | DECIMAL => 27
  | INTEGER => 28 | SMALLINT => 29 | BIGINT => 30
  | TIMESTAMP => 31 | DATETIME => 32 | DATE => 33 | TIME => 34
  | TEXT => 35 | CLOB => 36 | VARCHAR => 37 | NVARCHAR => 38
  | CHAR => 39 | NCHAR => 40
  | BLOB => 41 | BINARY => 42 | VARBINARY => 43 | BOOLEAN => 44
  | NullType => 45 | TableValueType => 46 | MatchType => 47
  end%nat.

#[global] Instance eq_dec : EqDecision t.
Proof.
  intros c d. destruct (decide (to_nat c = to_nat d)) as [H|H];
    [left | right; by intros ->].
  revert H. clear.
  abstract (destruct c; destruct d; simpl; intros H;
            first [reflexivity | discriminate H]).
Defined.

(** The class of this module a [class] statement derives from; [None]
    for a class that derives [TypeEngine] (or [TypeDecorator]) with
    mixins only. *)
Definition superclass (c : t) : option t :=
  match c with
  | Text => Some String | Unicode => Some String
  | UnicodeText => Some Text
  | SmallInteger => Some Integer | BigInteger => Some Integer
  | Float => Some Numeric | Double => Some Float
  | LargeBinary => Some _Binary
  | Enum => Some String
  | MatchType => Some Boolean
  | REAL => Some Float | FLOAT => Some Float
  | DOUBLE => Some Double | DOUBLE_PRECISION => Some Double
  | NUMERIC => Some Numeric | DECIMAL => Some Numeric
  | INTEGER => Some Integer | SMALLINT => Some SmallInteger
  | BIGINT => Some BigInteger
  | TIMESTAMP => Some DateTime | DATETIME => Some DateTime
  | DATE => Some Date | TIME => Some Time
  | TEXT => Some Text | CLOB => Some Text
  | VARCHAR => Some String | NVARCHAR => Some Unicode
  | CHAR => Some String | NCHAR => Some Unicode
  | BLOB => Some LargeBinary
  | BINARY => Some _Binary | VARBINARY => Some _Binary
  | BOOLEAN => Some Boolean
  | String | Integer | Numeric | DateTime | Date | Time | _Binary
  | PickleType | Boolean | Interval | JSON | ARRAY | TupleType
  | NullType | TableValueType => None
  end.

Fixpoint ancestors (fuel : nat) (c : t) : list t :=
  c :: match fuel, superclass c with
       | S fuel, Some base => ancestors fuel base
       | _, _ => []
       end.

(** The classes of this module in [c.__mro__]; no chain of [class]
    statements is longer than four. *)
Definition mro (c : t) : list t := ancestors 3 c.

Definition issubclass (c base : t) : bool := bool_decide (base ∈ mro c).

End Cls.

(** The operator objects of [sql.operators] this module names; [custom]
    is any other operator. *)
Module operators.

Inductive t :=
| add | sub | mul | truediv | floordiv
| concat_op | getitem | json_getitem_op | json_path_getitem_op
| custom (name : string).

#[global] Instance eq_dec : EqDecision t.
Proof. solve_decision. Defined.

End operators.

(** A literal [dict] display, as the list of its [key: value] items: the
    value stored under [k] (the last item wins), and [d.get(k, default)]. *)
Fixpoint dict_display_lookup {K V} `{EqDecision K}
    (d : list (K * V)) (k : K) : option V :=
  match d with
  | [] => None
  | (k', v) :: d =>
      match dict_display_lookup d k with
      | Some v' => Some v'
      | None => if decide (k' = k) then Some v else None
      end
  end.

Definition dict_display_get {K V} `{EqDecision K}
    (d : list (K * V)) (k : K) (default : V) : V :=
  match dict_display_lookup d k with
  | Some v => v
  | None => default
  end.

(** ** The adaptation tables: [_expression_adaptations] of each class

    The argument is [self.__class__]. *)

Module Integer.
Import Cls operators.
Definition _expression_adaptations (self___class__ : Cls.t)
  : list (operators.t * list (Cls.t * Cls.t)) :=
  [ (add, [(Date, Date); (Integer, self___class__); (Numeric, Numeric)]);
    (mul, [(Interval, Interval); (Integer, self___class__);
           (Numeric, Numeric)]);
    (truediv, [(Integer, Numeric); (Numeric, Numeric)]);
    (floordiv, [(Integer, self___class__); (Numeric, Numeric)]);
    (sub, [(Integer, self___class__); (Numeric, Numeric)]) ].
End Integer.

Module DateTime.
Import Cls operators.
Definition _expression_adaptations (self___class__ : Cls.t)
  : list (operators.t * list (Cls.t * Cls.t)) :=
  [ (add, [(Interval, self___class__)]);
    (sub, [(Interval, self___class__); (DateTime, Interval)]) ].
End DateTime.

Module Date.
Import Cls operators.
Definition _expression_adaptations (self___class__ : Cls.t)
  : list (operators.t * list (Cls.t * Cls.t)) :=
  [ (add, [(Integer, self___class__); (Interval, DateTime);
           (Time, DateTime)]);
    (sub, [(Integer, self___class__); (Date, Integer);
           (Interval, DateTime); (DateTime, Interval)]) ].
End Date.

Module Time_.
Import Cls operators.
(** [Time._expression_adaptations] *)
Definition _expression_adaptations (self___class__ : Cls.t)
  : list (operators.t * list (Cls.t * Cls.t)) :=
  [ (add, [(Date, DateTime); (Interval, self___class__)]);
    (sub, [(Time, Interval); (Interval, self___class__)]) ].
End Time_.

Module _AbstractInterval.
Import Cls operators.
Definition _expression_adaptations (self___class__ : Cls.t)
  : list (operators.t * list (Cls.t * Cls.t)) :=
  [ (add, [(Date, DateTime); (Interval, self___class__);
           (DateTime, DateTime); (Time, Time)]);
    (sub, [(Interval, self___class__)]);
    (mul, [(Numeric, self___class__)]);
    (truediv, [(Numeric, self___class__)]) ].
End _AbstractInterval.

(** ** [class String(Concatenable, TypeEngine[str])]: the processors *)

Module String_.

(** [String.literal_processor(dialect)]: [value.replace] exists on a
    [str] only, an instance of a subclass of [str] included, and returns a
    plain [str]. *)
Definition literal_processor (dialect : Dialect.t)
  : option (PyVal → result PyVal) :=
  Some (λ value,
    match value with
    | PStr s | PStrObj _ s =>
        let value := str_replace "'"%char "''" s in
        let value :=
          if Dialect._double_percents dialect then str_replace "%"%char "%%" value
          else value in
        Ok (PStr ("'" +:+ value +:+ "'"))
    | _ => Raise (AttributeError "replace")
    end).

Definition bind_processor (dialect : Dialect.t)
  : option (PyVal → result PyVal) := None.

Definition result_processor (dialect : Dialect.t) (coltype : PyVal)
  : option (PyVal → result PyVal) := None.

End String_.

(** ** [class Enum(String, SchemaType, Emulated, TypeEngine)] *)

Module Enum.

(** A PEP-435 enumerated class, as far as [Enum] looks at it:
    [__name__] and the ordered mapping [__members__] from names to
    members.  A member is an object with an identity and a canonical
    [name]; an alias is a second name of [__members__] for the same
    member.  A member of a plain [enum.Enum] class is hashed and compared
    by identity; in a class with a mix-in type, [class E(str, enum.Enum)]
    or [class E(int, enum.Enum)] ([enum.IntEnum]), a member is an instance
    of the mix-in type too, hashed and compared as its value.  Other
    mix-in types are left out. *)
Inductive MixIn :=
| NoMixIn
| StrMixIn (value : string)
| IntMixIn (value : Z).

Record Member := {
  member_id : nat;
  member_name : string;
  member_mixin : MixIn;
}.

Record EnumClass := {
  __name__ : string;
  __members__ : list (string * Member);
}.

(** The positional arguments [*enums]: string labels, or exactly one
    enumerated class. *)
Inductive EnumsArg :=
| Labels (labels : list string)
| PEP435 (enum_class : EnumClass).

(** The keyword arguments [_enum_init] pops from [kw]; [None] for
    [kw_length] is [NO_ARG], [None] for [kw__enums] is an absent key. *)
Record Kw := {
  kw_native_enum : bool;
  kw_create_constraint : bool;
  kw_values_callable : option (EnumClass → list string);
  kw_length : option Z;
  kw_omit_aliases : bool;
  kw__disable_warnings : bool;
  kw_validate_strings : bool;
  kw_name : option string;
  kw__enums : option EnumsArg;
}.

Definition default_kw : Kw := {|
  kw_native_enum := true;
  kw_create_constraint := false;
  kw_values_callable := None;
  kw_length := None;
  kw_omit_aliases := true;
  kw__disable_warnings := false;
  kw_validate_strings := false;
  kw_name := None;
  kw__enums := None;
|}.

Record t := {
  enums : list string;
  _valid_lookup : gmap PyVal PyVal;
  _object_lookup : gmap PyVal PyVal;
  enum_class : option EnumClass;
  validate_strings : bool;
  native_enum : bool;
  create_constraint : bool;
  _omit_aliases : bool;
  _default_length : Z;
  length : Z;
  name : option string;
}.

(** The member as a host object. *)
Definition member_object (m : Member) : PyVal :=
  match member_mixin m with
  | NoMixIn => PObj (member_id m)
  | StrMixIn value => PStrObj (member_id m) value
  | IntMixIn value => PIntObj (member_id m) value
  end.

Definition not_enums (enums : EnumsArg) : bool :=
  match enums with Labels [] => true | _ => false end.

(** [_parse_into_values]: the enumerated class (if any), the persisted
    values and the host objects. *)
Definition _parse_into_values (enums : EnumsArg) (kw : Kw)
  : option EnumClass * list string * list PyVal :=
  let enums :=
    match kw__enums kw with
    | Some e => if not_enums enums then e else enums
    | None => enums
    end in
  match enums with
  | PEP435 enum_class =>
      let _members := __members__ enum_class in
      let members :=
        if kw_omit_aliases kw
        then filter (λ nv, member_name nv.2 = nv.1) _members
        else _members in
      let values :=
        match kw_values_callable kw with
        | Some values_callable => values_callable enum_class
        | None => members.*1
        end in
      let objects := member_object <$> members.*2 in
      (Some enum_class, values, objects)
  | Labels enums => (None, enums, PStr <$> enums)
  end.

(** [_setup_for_values]: [self.enums], [self._valid_lookup] and
    [self._object_lookup]. *)
Definition _setup_for_values (values : list string) (objects : list PyVal)
  : result (list string * gmap PyVal PyVal * gmap PyVal PyVal) :=
  let enums := values in
  let _valid_lookup :=
    py_dict (zip (reverse objects) (PStr <$> reverse values)) in
  let _object_lookup := py_dict (zip (PStr <$> values) objects) in
  updates ← mapM_result
    (λ value,
       o ← getitem _object_lookup (PStr value);
       v ← getitem _valid_lookup o;
       Ok (PStr value, v))
    values;
  Ok (enums, dict_update _valid_lookup updates, _object_lookup).

Definition str_len (s : string) : Z := Z.of_nat (String.length s).

(** [max(len(x) for x in self.enums)], for a non-empty list. *)
Definition max_len (enums : list string) : Z :=
  foldr (λ x m, Z.max (str_len x) m) 0 enums.

Definition ascii_lower (c : Ascii.ascii) : Ascii.ascii :=
  let n := Ascii.nat_of_ascii c in
  if ((65 <=? n) && (n <=? 90))%nat then Ascii.ascii_of_nat (n + 32) else c.

(** [str.lower()], on the ASCII letters of a class name. *)
Fixpoint lower (s : string) : string :=
  match s with
  | EmptyString => EmptyString
  | String c s' => String (ascii_lower c) (lower s')
  end.

(** [_enum_init(enums, kw)], the body of [Enum.__init__]. *)
Definition _enum_init (enums : EnumsArg) (kw : Kw) : result t :=
  let native_enum := kw_native_enum kw in
  let length_arg := kw_length kw in
  let _disable_warnings := kw__disable_warnings kw in
  let '(enum_class, values, objects) := _parse_into_values enums kw in
  '(enums, _valid_lookup, _object_lookup) ← _setup_for_values values objects;
  let length := match enums with [] => 0 | _ => max_len enums end in
  let _default_length := length in
  length ←
    match length_arg with
    | None => Ok length
    | Some length_arg =>
        if native_enum then Ok length
        else if negb _disable_warnings && (length_arg <? length)
             then Raise (ValueError [PInt length_arg; PInt length])
             else Ok length_arg
    end;
  let _valid_lookup := dict_set _valid_lookup PNone PNone in
  let _object_lookup := dict_set _object_lookup PNone PNone in
  let name :=
    match kw_name kw with
    | Some n => Some n
    | None => (λ c, lower (__name__ c)) <$> enum_class
    end in
  Ok {| enums := enums;
        _valid_lookup := _valid_lookup;
        _object_lookup := _object_lookup;
        enum_class := enum_class;
        validate_strings := kw_validate_strings kw;
        native_enum := native_enum;
        create_constraint := kw_create_constraint kw;
        _omit_aliases := kw_omit_aliases kw;
        _default_length := _default_length;
        length := length;
        name := name |}.

Definition _db_value_for_elem (self : t) (elem : PyVal) : result PyVal :=
  match dict_get (_valid_lookup self) elem with
  | Some v => Ok v
  | None =>
      if negb (validate_strings self) && isinstance_str elem
      then Ok elem
      else Raise (LookupError elem (name self) (enums self))
  end.

Definition _object_value_for_elem (self : t) (elem : PyVal) : result PyVal :=
  match dict_get (_object_lookup self) elem with
  | Some v => Ok v
  | None => Raise (LookupError elem (name self) (enums self))
  end.

Definition literal_processor (self : t) (dialect : Dialect.t)
  : PyVal → result PyVal :=
  let parent_processor := String_.literal_processor dialect in
  λ value,
    value ← _db_value_for_elem self value;
    match parent_processor with
    | Some parent_processor => parent_processor value
    | None => Ok value
    end.

Definition bind_processor (self : t) (dialect : Dialect.t)
  : PyVal → result PyVal :=
  let parent_processor := String_.bind_processor dialect in
  λ value,
    value ← _db_value_for_elem self value;
    match parent_processor with
    | Some parent_processor => parent_processor value
    | None => Ok value
    end.

Definition result_processor (self : t) (dialect : Dialect.t) (coltype : PyVal)
  : PyVal → result PyVal :=
  let parent_processor := String_.result_processor dialect coltype in
  λ value,
    value ← match parent_processor with
            | Some parent_processor => parent_processor value
            | None => Ok value
            end;
    _object_value_for_elem self value.

End Enum.

(** ** [class Numeric], [class Float(Numeric)] *)

(** The converters of [engine.processors], by name: [to_float], and the
    float to [Decimal] converter
    [to_decimal_processor_factory(decimal.Decimal, scale)]. *)
Inductive Processor :=
| to_float
| to_decimal_processor_factory (scale : Z).

Module Numeric.

Record t := {
  precision : option Z;
  scale : option Z;
  decimal_return_scale : option Z;
  asdecimal : bool;
}.

Definition _default_decimal_return_scale : Z := 10.

(** [Numeric.__init__(precision=None, scale=None,
    decimal_return_scale=None, asdecimal=True)] *)
Definition __init__ (precision scale decimal_return_scale : option Z)
    (asdecimal : bool) : t :=
  {| precision := precision; scale := scale;
     decimal_return_scale := decimal_return_scale;
     asdecimal := asdecimal |}.

Definition _effective_decimal_return_scale (self : t) : Z :=
  match decimal_return_scale self with
  | Some d => d
  | None =>
      match scale self with
      | Some s => s
      | None => _default_decimal_return_scale
      end
  end.

Definition bind_processor (self : t) (dialect : Dialect.t)
  : option Processor :=
  if Dialect.supports_native_decimal dialect then None else Some to_float.

Definition result_processor (self : t) (dialect : Dialect.t)
    (coltype : PyVal) : option Processor :=
  if asdecimal self then
    if Dialect.supports_native_decimal dialect then None
    else Some (to_decimal_processor_factory
                 match scale self with
                 | Some s => s
                 | None => _default_decimal_return_scale
                 end)
  else
    if Dialect.supports_native_decimal dialect then Some to_float
    else None.

(** [Numeric._expression_adaptations]; the argument is
    [self.__class__]. *)
Definition _expression_adaptations (self___class__ : Cls.t)
  : list (operators.t * list (Cls.t * Cls.t)) :=
  let Interval := Cls.Interval in
  let Numeric := Cls.Numeric in
  let Integer := Cls.Integer in
  [ (operators.mul, [(Interval, Interval); (Numeric, self___class__);
                     (Integer, self___class__)]);
    (operators.truediv, [(Numeric, self___class__);
                         (Integer, self___class__)]);
    (operators.add, [(Numeric, self___class__); (Integer, self___class__)]);
    (operators.sub, [(Numeric, self___class__); (Integer, self___class__)]) ].

End Numeric.

Module Float.

(** [Float.__init__(precision=None, asdecimal=False,
    decimal_return_scale=None)]; [scale] is the class attribute
    [scale = None]. *)
Definition __init__ (precision : option Z) (asdecimal : bool)
    (decimal_return_scale : option Z) : Numeric.t :=
  {| Numeric.precision := precision; Numeric.scale := None;
     Numeric.decimal_return_scale := decimal_return_scale;
     Numeric.asdecimal := asdecimal |}.

Definition result_processor (self : Numeric.t) (dialect : Dialect.t)
    (coltype : PyVal) : option Processor :=
  if Numeric.asdecimal self then
    Some (to_decimal_processor_factory
            (Numeric._effective_decimal_return_scale self))
  else if Dialect.supports_native_decimal dialect then Some to_float
  else None.

End Float.

(** ** [class JSON(Indexable, TypeEngine)]: the bind conversion *)

Module JSON.

Record t := { none_as_null : bool }.

(** [NULL = util.symbol("JSON_NULL")] *)
Definition NULL : PyVal := PSymbol "JSON_NULL".

Definition isinstance_Null (v : PyVal) : bool :=
  match v with PNullElement => true | _ => false end.

Definition _make_bind_processor (self : t)
    (string_process : option (PyVal → result PyVal))
    (json_serializer : PyVal → result PyVal) : PyVal → result PyVal :=
  match string_process with
  | Some string_process =>
      λ value,
        if decide (value = NULL) then
          serialized ← json_serializer PNone;
          string_process serialized
        else if isinstance_Null value
                || (bool_decide (value = PNone) && none_as_null self)
        then Ok PNone
        else
          serialized ← json_serializer value;
          string_process serialized
  | None =>
      λ value,
        if decide (value = NULL) then json_serializer PNone
        else if isinstance_Null value
                || (bool_decide (value = PNone) && none_as_null self)
        then Ok PNone
        else json_serializer value
  end.

(** [json.dumps] belongs to the Python library: it is an argument of
    the embedding. *)
Definition bind_processor (json_dumps : PyVal → result PyVal)
    (self : t) (dialect : Dialect.t) : PyVal → result PyVal :=
  let string_process := String_.bind_processor dialect in
  let json_serializer :=
    match Dialect._json_serializer dialect with
    | Some f => f
    | None => json_dumps
    end in
  _make_bind_processor self string_process json_serializer.

End JSON.

(** ** Type instances *)

(** The attributes of an instance, by family of classes.  [NoConfig]
    stands for a class none of whose attributes is read here. *)
Inductive Config (T : Type) :=
| NoConfig
| StringConfig (length : option Z) (collation : option string)
| NumericConfig (n : Numeric.t)
| TimezoneConfig (timezone : bool)
| BinaryConfig (length : option Z)
| EnumConfig (e : Enum.t)
| BooleanConfig (create_constraint : bool) (name : option string)
                (_create_events : bool)
| IntervalConfig (native : bool) (second_precision day_precision : option Z)
| JSONConfig (j : JSON.t)
| ArrayConfig (item_type : T) (as_tuple : bool) (dimensions : option Z)
              (zero_indexes : bool).
Arguments NoConfig {T}.
Arguments StringConfig {T} length collation.
Arguments NumericConfig {T} n.
Arguments TimezoneConfig {T} timezone.
Arguments BinaryConfig {T} length.
Arguments EnumConfig {T} e.
Arguments BooleanConfig {T} create_constraint name _create_events.
Arguments IntervalConfig {T} native second_precision day_precision.
Arguments JSONConfig {T} j.
Arguments ArrayConfig {T} item_type as_tuple dimensions zero_indexes.

(** An instance of a type class: the identity of the object ([id(self)]),
    its class and its attributes. *)
#[warnings="-register-all"]
Inductive TypeEngine :=
| Instance_ (type_id : nat) (__class__ : Cls.t) (config : Config TypeEngine).

Definition type_id (self : TypeEngine) : nat :=
  match self with Instance_ i _ _ => i end.
Definition __class__ (self : TypeEngine) : Cls.t :=
  match self with Instance_ _ c _ => c end.
Definition config (self : TypeEngine) : Config TypeEngine :=
  match self with Instance_ _ _ c => c end.

(** [a is b] on instances. *)
Definition is_ (a b : TypeEngine) : bool :=
  bool_decide (type_id a = type_id b).

(** [isinstance(self, base)] *)
Definition isinstance (self : TypeEngine) (base : Cls.t) : bool :=
  Cls.issubclass (__class__ self) base.

(** A class of the module or an instance of one: what an adaptation
    lookup returns, and what [ARRAY] accepts as [item_type]. *)
Inductive TypeObj :=
| TClass (c : Cls.t)
| TInst (t : TypeEngine).

Definition typeobj_is (a b : TypeObj) : bool :=
  match a, b with
  | TClass c, TClass d => bool_decide (c = d)
  | TInst x, TInst y => is_ x y
  | _, _ => false
  end.

(** The attributes of [cls()], a call of the class without arguments:
    the defaults of its [__init__].  [ARRAY] requires [item_type]. *)
Definition default_config (c : Cls.t) : result (Config TypeEngine) :=
  if Cls.issubclass c Cls.Enum then
    e ← Enum._enum_init (Enum.Labels []) Enum.default_kw; Ok (EnumConfig e)
  else if Cls.issubclass c Cls.String then Ok (StringConfig None None)
  else if Cls.issubclass c Cls.Float then
    Ok (NumericConfig (Float.__init__ None false None))
  else if Cls.issubclass c Cls.Numeric then
    Ok (NumericConfig (Numeric.__init__ None None None true))
  else if Cls.issubclass c Cls.DateTime || Cls.issubclass c Cls.Time then
    Ok (TimezoneConfig false)
  else if Cls.issubclass c Cls._Binary then Ok (BinaryConfig None)
  else if Cls.issubclass c Cls.Boolean then Ok (BooleanConfig false None true)
  else if Cls.issubclass c Cls.Interval then Ok (IntervalConfig true None None)
  else if Cls.issubclass c Cls.JSON then
    Ok (JSONConfig {| JSON.none_as_null := false |})
  else if Cls.issubclass c Cls.ARRAY then Raise (TypeError PNone)
  else Ok NoConfig.

(** Modelled from the spec: [to_instance] is imported from [type_api] and
    is not part of this module; the spec has it "instantiate the looked-up
    generic type family with default configuration".  A class is called
    without arguments, the new object having the identity [fresh]; an
    instance is returned as it is. *)
Definition to_instance (fresh : nat) (typeobj : TypeObj) : result TypeEngine :=
  match typeobj with
  | TClass c => cfg ← default_config c; Ok (Instance_ fresh c cfg)
  | TInst t => Ok t
  end.

(** Modelled from the spec: [TypeEngine._type_affinity] is defined in
    [type_api] and is not part of this module; the spec has it be the
    "most specific unparameterized family, e.g. all integer variants
    collapse to [Integer]": the class of the hierarchy that derives
    [TypeEngine] directly.  [PickleType] is a [TypeDecorator] over
    [LargeBinary]; [_AbstractInterval._type_affinity], in this module,
    answers [Interval]. *)
Definition _type_affinity (self : TypeEngine) : Cls.t :=
  match __class__ self with
  | Cls.PickleType => Cls._Binary
  | c => default c (last (Cls.mro c))
  end.

(** ** Expressions and comparators *)

(** A column expression, as far as this module reads it: [expr.type]
    and [expr.key]. *)
Module ColumnElement.
Record t := { type : TypeEngine; key : option string }.
End ColumnElement.

Module Comparator.

(** The [Comparator] classes of the module ([TypeEngine.Comparator] and
    [TypeDecorator.Comparator] come from [type_api]). *)
Inductive Class :=
| TypeEngine_Comparator
| TypeDecorator_Comparator
| HasExpressionLookup_Comparator
| Concatenable_Comparator
| Indexable_Comparator
| Enum_Comparator
| Interval_Comparator
| JSON_Comparator
| ARRAY_Comparator
| NullType_Comparator.

#[global] Instance Class_eq_dec : EqDecision Class.
Proof. solve_decision. Defined.

(** [__mro__], from the [class] statements: for instance
    [class Comparator(Indexable.Comparator[_T], Concatenable.Comparator[_T])]
    in [JSON] and [ARRAY], [class Comparator(String.Comparator[str])] in
    [Enum], where [String.Comparator] is [Concatenable.Comparator]. *)
Definition mro (c : Class) : list Class :=
  match c with
  | TypeEngine_Comparator => [TypeEngine_Comparator]
  | TypeDecorator_Comparator =>
      [TypeDecorator_Comparator; TypeEngine_Comparator]
  | HasExpressionLookup_Comparator =>
      [HasExpressionLookup_Comparator; TypeEngine_Comparator]
  | Concatenable_Comparator =>
      [Concatenable_Comparator; TypeEngine_Comparator]
  | Indexable_Comparator => [Indexable_Comparator; TypeEngine_Comparator]
  | Enum_Comparator =>
      [Enum_Comparator; Concatenable_Comparator; TypeEngine_Comparator]
  | Interval_Comparator =>
      [Interval_Comparator; TypeDecorator_Comparator;
       HasExpressionLookup_Comparator; TypeEngine_Comparator]
  | JSON_Comparator =>
      [JSON_Comparator; Indexable_Comparator; Concatenable_Comparator;
       TypeEngine_Comparator]
  | ARRAY_Comparator =>
      [ARRAY_Comparator; Indexable_Comparator; Concatenable_Comparator;
       TypeEngine_Comparator]
  | NullType_Comparator => [NullType_Comparator; TypeEngine_Comparator]
  end.

(** A comparator object: [TypeEngine.Comparator.__init__(self, expr)]
    stores [self.expr = expr] and [self.type = expr.type]. *)
Record t := {
  comparator_class : Class;
  expr : ColumnElement.t;
  type : TypeEngine;
}.

Definition isinstance (self : t) (c : Class) : bool :=
  bool_decide (c ∈ mro (comparator_class self)).

(** [comparator_factory] of a type class: the [Comparator] attribute
    the class defines or inherits. *)
Definition comparator_factory (c : Cls.t) : Class :=
  if Cls.issubclass c Cls.Enum then Enum_Comparator
  else if Cls.issubclass c Cls.String then Concatenable_Comparator
  else if Cls.issubclass c Cls.Integer || Cls.issubclass c Cls.Numeric
          || Cls.issubclass c Cls.DateTime || Cls.issubclass c Cls.Date
          || Cls.issubclass c Cls.Time
  then HasExpressionLookup_Comparator
  else if Cls.issubclass c Cls.Interval then Interval_Comparator
  else if Cls.issubclass c Cls.JSON then JSON_Comparator
  else if Cls.issubclass c Cls.ARRAY then ARRAY_Comparator
  else if Cls.issubclass c Cls.NullType then NullType_Comparator
  else if Cls.issubclass c Cls.PickleType then TypeDecorator_Comparator
  else TypeEngine_Comparator.

(** [expr.comparator], that is [expr.type.comparator_factory(expr)]. *)
Definition comparator (expr : ColumnElement.t) : t :=
  {| comparator_class :=
       comparator_factory (__class__ (ColumnElement.type expr));
     expr := expr;
     type := ColumnElement.type expr |}.

End Comparator.

(** The signature of [_adapt_expression(self, op, other_comparator)];
    [fresh] is the identity of the object a constructor call allocates. *)
Definition adapt_method : Type :=
  nat → Comparator.t → operators.t → Comparator.t
  → result (operators.t * TypeEngine).

Module HasExpressionLookup.

(** [self.type._expression_adaptations]: the property of the first
    class of the hierarchy that defines it; the mixin itself raises
    [NotImplementedError]. *)
Definition _expression_adaptations (self : TypeEngine)
  : result (list (operators.t * list (Cls.t * Cls.t))) :=
  let c := __class__ self in
  if Cls.issubclass c Cls.Integer then Ok (Integer._expression_adaptations c)
  else if Cls.issubclass c Cls.Numeric
  then Ok (Numeric._expression_adaptations c)
  else if Cls.issubclass c Cls.DateTime
  then Ok (DateTime._expression_adaptations c)
  else if Cls.issubclass c Cls.Date then Ok (Date._expression_adaptations c)
  else if Cls.issubclass c Cls.Time then Ok (Time_._expression_adaptations c)
  else if Cls.issubclass c Cls.Interval
  then Ok (_AbstractInterval._expression_adaptations c)
  else Raise NotImplementedError.

Definition _blank_dict : list (Cls.t * Cls.t) := [].

(** [HasExpressionLookup.Comparator._adapt_expression] *)
Definition _adapt_expression : adapt_method :=
  λ fresh self op other_comparator,
    let othertype := _type_affinity (Comparator.type other_comparator) in
    adaptations ← _expression_adaptations (Comparator.type self);
    let lookup :=
      dict_display_get
        (prod_map id TClass <$> dict_display_get adaptations op _blank_dict)
        othertype (TInst (Comparator.type self)) in
    if typeobj_is lookup (TClass othertype)
    then Ok (op, Comparator.type other_comparator)
    else if typeobj_is lookup
              (TClass (_type_affinity (Comparator.type self)))
    then Ok (op, Comparator.type self)
    else t ← to_instance fresh lookup; Ok (op, t).

End HasExpressionLookup.

Module Concatenable.

(** [Concatenable.Comparator._adapt_expression]; [super_] is
    [super(Concatenable.Comparator, self)._adapt_expression]. *)
Definition _adapt_expression (super_ : adapt_method) : adapt_method :=
  λ fresh self op other_comparator,
    if bool_decide (op = operators.add)
       && (Comparator.isinstance other_comparator
             Comparator.Concatenable_Comparator
           || Comparator.isinstance other_comparator
                Comparator.NullType_Comparator)
    then Ok (operators.concat_op, ColumnElement.type (Comparator.expr self))
    else super_ fresh self op other_comparator.

End Concatenable.

Module EnumComparator.

(** [self.type.length] *)
Definition type_length (self : TypeEngine) : result (option Z) :=
  match config self with
  | EnumConfig e => Ok (Some (Enum.length e))
  | StringConfig length _ => Ok length
  | _ => Raise (AttributeError "length")
  end.

(** [Enum.Comparator._adapt_expression]: a concatenation is typed
    [String(self.type.length)]. *)
Definition _adapt_expression (super_ : adapt_method) : adapt_method :=
  λ fresh self op other_comparator,
    '(op, typ) ← super_ fresh self op other_comparator;
    if bool_decide (op = operators.concat_op) then
      length ← type_length (Comparator.type self);
      Ok (op, Instance_ fresh Cls.String (StringConfig length None))
    else Ok (op, typ).

End EnumComparator.

Module NullTypeComparator.

(** [NullType.Comparator._adapt_expression]; [is_commutative] is
    [operators.is_commutative] and [other_adapt] is
    [other_comparator._adapt_expression]. *)
Definition _adapt_expression (is_commutative : operators.t → bool)
    (other_adapt : adapt_method) : adapt_method :=
  λ fresh self op other_comparator,
    if Comparator.isinstance other_comparator Comparator.NullType_Comparator
       || negb (is_commutative op)
    then Ok (op, ColumnElement.type (Comparator.expr self))
    else other_adapt fresh other_comparator op self.

End NullTypeComparator.

(** Modelled from the spec: [TypeEngine.Comparator._adapt_expression] is
    defined in [type_api] and is not part of this module; without an
    adaptation table the result "default[s] to the left operand's own
    type". *)
Definition TypeEngine_Comparator_adapt_expression : adapt_method :=
  λ fresh self op other_comparator, Ok (op, Comparator.type self).

(** Method resolution: [_adapt_expression] as found along [mro]; the
    classes that do not define it pass to the next one. *)
Fixpoint resolve_adapt_expression (null_adapt : adapt_method)
    (mro : list Comparator.Class) : adapt_method :=
  match mro with
  | [] => λ _ _ _ _, Raise (AttributeError "_adapt_expression")
  | c :: mro =>
      let super_ := resolve_adapt_expression null_adapt mro in
      match c with
      | Comparator.TypeEngine_Comparator =>
          TypeEngine_Comparator_adapt_expression
      | Comparator.HasExpressionLookup_Comparator =>
          HasExpressionLookup._adapt_expression
      | Comparator.Concatenable_Comparator =>
          Concatenable._adapt_expression super_
      | Comparator.Enum_Comparator => EnumComparator._adapt_expression super_
      | Comparator.NullType_Comparator => null_adapt
      | Comparator.TypeDecorator_Comparator
      | Comparator.Indexable_Comparator
      | Comparator.Interval_Comparator
      | Comparator.JSON_Comparator
      | Comparator.ARRAY_Comparator => super_
      end
  end.

(** [self._adapt_expression(op, other_comparator)].  A [NullType]
    comparator hands the call over to a comparator that is not a
    [NullType] one, so that one level of reflection is enough. *)
Definition _adapt_expression (is_commutative : operators.t → bool)
  : adapt_method :=
  λ fresh self op other_comparator,
    let typed : adapt_method :=
      λ fresh self op other_comparator,
        resolve_adapt_expression TypeEngine_Comparator_adapt_expression
          (Comparator.mro (Comparator.comparator_class self))
          fresh self op other_comparator in
    resolve_adapt_expression
      (NullTypeComparator._adapt_expression is_commutative typed)
      (Comparator.mro (Comparator.comparator_class self))
      fresh self op other_comparator.

(** ** [class ARRAY(SchemaEventTarget, Indexable, Concatenable, TypeEngine)] *)

Module ARRAY.

(** The argument of [__getitem__]: an integer or a [slice] object, whose
    [start], [stop] and [step] are [None] when left out. *)
Inductive Index :=
| IntIndex (i : Z)
| SliceIndex (start stop step : option Z).

(** The adjusted right operand: the integer, or
    [Slice(start, stop, step, _name=self.expr.key)]. *)
Inductive RightExpr :=
| Value (i : Z)
| Slice (start stop step : option Z) (_name : option string).

(** [ARRAY.__init__(item_type, as_tuple=False, dimensions=None,
    zero_indexes=False)]; the array is the object [fresh], an item type
    given as a class is instantiated as the object [S fresh]. *)
Definition __init__ (fresh : nat) (item_type : TypeObj) (as_tuple : bool)
    (dimensions : option Z) (zero_indexes : bool) : result TypeEngine :=
  match item_type with
  | TInst t =>
      if isinstance t Cls.ARRAY then Raise (ValueError [])
      else Ok (Instance_ fresh Cls.ARRAY
                 (ArrayConfig t as_tuple dimensions zero_indexes))
  | TClass c =>
      item_type ← to_instance (S fresh) (TClass c);
      Ok (Instance_ fresh Cls.ARRAY
            (ArrayConfig item_type as_tuple dimensions zero_indexes))
  end.

(** Modelled from the spec: [TypeEngine.adapt] is defined in [type_api]
    and is not part of this module; by the spec an array of
    dimensionality [N] indexed once is the same array type with
    dimensionality [N-1]: [arr_type.adapt(arr_type.__class__,
    dimensions=d)] is a new object of the same class with the same
    attributes but [dimensions]. *)
Definition adapt (fresh : nat) (arr_type : TypeEngine) (dimensions : Z)
  : result TypeEngine :=
  match config arr_type with
  | ArrayConfig item_type as_tuple _ zero_indexes =>
      Ok (Instance_ fresh (__class__ arr_type)
            (ArrayConfig item_type as_tuple (Some dimensions) zero_indexes))
  | _ => Raise (AttributeError "dimensions")
  end.

(** [bound + 1] on a bound of a slice: [None + 1] is a [TypeError]. *)
Definition plus_one (bound : option Z) : result (option Z) :=
  match bound with
  | Some b => Ok (Some (b + 1))
  | None => Raise (TypeError PNone)
  end.

(** [ARRAY.Comparator._setup_getitem] *)
Definition _setup_getitem (fresh : nat) (self : Comparator.t) (index : Index)
  : result (operators.t * RightExpr * TypeEngine) :=
  let arr_type := Comparator.type self in
  match config arr_type with
  | ArrayConfig item_type _ dimensions zero_indexes =>
      match index with
      | SliceIndex start stop step =>
          let return_type := arr_type in
          '(start, stop) ←
            (if zero_indexes then
               start ← plus_one start;
               stop ← plus_one stop;
               Ok (start, stop)
             else Ok (start, stop));
          let slice_ :=
            Slice start stop step
              (ColumnElement.key (Comparator.expr self)) in
          Ok (operators.getitem, slice_, return_type)
      | IntIndex index =>
          let index := if zero_indexes then index + 1 else index in
          return_type ←
            match dimensions with
            | None => Ok item_type
            | Some d =>
                if d =? 1 then Ok item_type
                else adapt fresh arr_type (d - 1)
            end;
          Ok (operators.getitem, Value index, return_type)
      end
  | _ => Raise (AttributeError "zero_indexes")
  end.

(** [Indexable.Comparator.__getitem__]: the type of the expression
    [self.operate(adjusted_op, adjusted_right_expr,
    result_type=result_type)] is [result_type]. *)
Definition __getitem__ (fresh : nat) (self : Comparator.t) (index : Index)
  : result ColumnElement.t :=
  '(_, _, result_type) ← _setup_getitem fresh self index;
  Ok {| ColumnElement.type := result_type; ColumnElement.key := None |}.

End ARRAY.

(** ** [class SchemaType(SchemaEventTarget, TypeEngineMixin)] *)

(** A [Column], as far as the schema-bound types read it: [column.type],
    [column.type._variant_mapping] (an attribute [with_variant] sets on
    the type, empty by default) and its name. *)
Module Column.
Record t := {
  name : string;
  type : TypeEngine;
  _variant_mapping : gmap string TypeEngine;
}.

(** Modelled from the spec: [Column] belongs to [sql.schema] and is not
    part of this module.  The spec has a schema-bound type register, "on
    attachment to a column", "a callback to fire when that column is later
    attached to a table"; the comments of [SchemaType._set_parent] and of
    [_is_impl_for_variant] have [Column] call it "for all
    SchemaEventTarget instances, either the base type and/or variants in
    _variant_mapping", so that "all the impls in the map that are
    SchemaEventTarget subclasses get set up as event holders".  These are
    the types [Column] calls: the base type, then the impl of each entry
    of the variant mapping. *)
Definition _set_type (self : t) : list TypeEngine :=
  type self :: (map_to_list (_variant_mapping self)).*2.
End Column.

Module SchemaType.

(** Truth value of a [dict]: false when it is empty. *)
Definition dict_truthy (m : gmap string TypeEngine) : bool :=
  negb (bool_decide (size m = 0%nat)).

Definition _variant_mapping_for_set_table (column : Column.t)
  : option (gmap string TypeEngine) :=
  if dict_truthy (Column._variant_mapping column) then
    let variant_mapping := Column._variant_mapping column in
    Some (<["_default" := Column.type column]> variant_mapping)
  else None.

Definition _we_are_the_impl (self typ : TypeEngine) : bool :=
  is_ typ self
  || (isinstance typ Cls.ARRAY
      && match config typ with
         | ArrayConfig item_type _ _ _ => is_ item_type self
         | _ => false
         end).

(** [_is_impl_for_variant(self, dialect, kw)]; the argument is
    [kw.pop("variant_mapping", None)].  The answer is [True], [False]
    or, when no branch returns, [None]. *)
Definition _is_impl_for_variant (self : TypeEngine) (dialect : Dialect.t)
    (variant_mapping : option (gmap string TypeEngine)) : result PyVal :=
  match variant_mapping with
  | None => Ok (PBool true)
  | Some variant_mapping =>
      if negb (dict_truthy variant_mapping) then Ok (PBool true)
      else
        match variant_mapping !! Dialect.name dialect with
        | Some typ =>
            if _we_are_the_impl self typ then Ok (PBool true)
            else Ok PNone
        | None =>
            match variant_mapping !! "_default" with
            | Some typ => Ok (PBool (_we_are_the_impl self typ))
            | None => Raise (KeyError (PStr "_default"))
            end
        end
  end.

(** [_set_parent_with_dispatch]: the schema-bound types that register
    their [_set_table] with the column when [Column] calls [typ]: [typ]
    itself when it is a [SchemaType] ([Enum] and [Boolean] are the ones of
    this module), and the item type of an [ARRAY], to which
    [ARRAY._set_parent_with_dispatch] forwards the call. *)
Definition is_SchemaType (typ : TypeEngine) : bool :=
  isinstance typ Cls.Enum || isinstance typ Cls.Boolean.

Definition _set_parent_with_dispatch (typ : TypeEngine) : list TypeEngine :=
  if is_SchemaType typ then [typ]
  else if isinstance typ Cls.ARRAY then
    match config typ with
    | ArrayConfig item_type _ _ _ =>
        if is_SchemaType item_type then [item_type] else []
    | _ => []
    end
  else [].

(** The [_set_table] hooks of a column, in the order of registration. *)
Definition hooks (column : Column.t) : list TypeEngine :=
  Column._set_type column ≫= _set_parent_with_dispatch.


End SchemaType.

(** Modelled from the spec: the constraint collaborator of [sql.schema]
    is not part of this module; it "accepts (predicate_expression, name,
    conditional_create_predicate, type_bound_flag) and attaches itself to
    a table", and a constraint is emitted with the DDL of its table for a
    backend when its conditional create predicate holds there. *)
Module schema.

(** [type_coerce(column, type_).in_(values)] *)
Record InPredicate := {
  in_column : string;
  in_type : TypeEngine;
  in_values : list PyVal;
}.

(** [name = None] is [_NONE_NAME]. *)
Record CheckConstraint := {
  sqltext : InPredicate;
  name : option string;
  _create_rule : Dialect.t → result bool;
  _type_bound : bool;
}.

Record Table := { constraints : list CheckConstraint }.

(** The constraint attaches itself to the table of its column. *)
Definition attach (e : CheckConstraint) (table : Table) : Table :=
  {| constraints := constraints table ++ [e] |}.

(** The constraints of [table] emitted for [dialect]. *)
Fixpoint emitted (dialect : Dialect.t) (cs : list CheckConstraint)
  : result (list CheckConstraint) :=
  match cs with
  | [] => Ok []
  | e :: cs =>
      create ← _create_rule e dialect;
      rest ← emitted dialect cs;
      Ok (if create : bool then e :: rest else rest)
  end.

End schema.

(** ** [class Boolean(SchemaType, Emulated, TypeEngine[bool])] *)

Module Boolean.

Definition _should_create_constraint (self : TypeEngine)
    (compiler_dialect : Dialect.t)
    (variant_mapping : option (gmap string TypeEngine)) : result bool :=
  impl ← SchemaType._is_impl_for_variant self compiler_dialect
           variant_mapping;
  if negb (truthy impl) then Ok false
  else Ok (negb (Dialect.supports_native_boolean compiler_dialect)
           && Dialect.non_native_boolean_check_constraint compiler_dialect).

Definition _set_table (self : TypeEngine) (column : Column.t)
    (table : schema.Table) : result schema.Table :=
  match config self with
  | BooleanConfig create_constraint name _ =>
      if negb create_constraint then Ok table
      else
        let variant_mapping :=
          SchemaType._variant_mapping_for_set_table column in
        let e := {|
          schema.sqltext :=
            {| schema.in_column := Column.name column;
               schema.in_type := self;
               schema.in_values := [PInt 0; PInt 1] |};
          schema.name := name;
          schema._create_rule :=
            λ dialect,
              _should_create_constraint self dialect variant_mapping;
          schema._type_bound := true |} in
        Ok (schema.attach e table)
  | _ => Raise (AttributeError "create_constraint")
  end.

(** The hooks of the [Boolean] instances of a column, and what they do
    to the table the column is attached to: each hook is [_set_table] of
    its instance, fired in the order of registration. *)
Definition hooks (column : Column.t) : list TypeEngine :=
  filter (λ typ, isinstance typ Cls.Boolean = true) (SchemaType.hooks column).

Fixpoint _on_table_attach (hooks : list TypeEngine) (column : Column.t)
    (table : schema.Table) : result schema.Table :=
  match hooks with
  | [] => Ok table
  | self :: hooks =>
      table ← _set_table self column table;
      _on_table_attach hooks column table
  end.

(** [_strict_bools = frozenset([None, True, False])], by its keys. *)
Definition _strict_bools : gset PyVal :=
  list_to_set (py_key <$> [PNone; PBool true; PBool false]).

Definition _strict_as_bool (value : PyVal) : result PyVal :=
  if negb (bool_decide (py_key value ∈ _strict_bools)) then
    if negb (isinstance_int value) then Raise (TypeError value)
    else Raise (ValueError [value])
  else Ok value.

Definition literal_processor (dialect : Dialect.t) : PyVal → result PyVal :=
  let true_ := Dialect.visit_true dialect in
  let false_ := Dialect.visit_false dialect in
  λ value,
    value ← _strict_as_bool value;
    Ok (PStr (if truthy value then true_ else false_)).

(** [bool(value)] *)
Definition py_bool (value : PyVal) : result PyVal :=
  Ok (PBool (truthy value)).

(** [int(value)], on the values [_strict_as_bool] lets through: a number
    is truncated towards zero. *)
Definition py_int (value : PyVal) : result PyVal :=
  match value with
  | PBool b => Ok (PInt (Z.b2z b))
  | PInt n | PIntObj _ n => Ok (PInt n)
  | PFloat x => Ok (PInt (Z.quot (Qnum x) (Z.pos (Qden x))))
  | _ => Raise (TypeError value)
  end.

Definition bind_processor (dialect : Dialect.t) : PyVal → result PyVal :=
  let _coerce :=
    if Dialect.supports_native_boolean dialect then py_bool else py_int in
  λ value,
    value ← _strict_as_bool value;
    if negb (bool_decide (value = PNone)) then _coerce value
    else Ok value.

End Boolean.

(** ** Example backends and the statements of the specification *)

Module Examples.

(** A backend whose driver returns floats and has no native boolean
    or enum. *)
Definition sqlite : Dialect.t := {|
  Dialect.name := "sqlite";
  Dialect.supports_native_decimal := false;
  Dialect.supports_native_boolean := false;
  Dialect.supports_native_enum := false;
  Dialect.non_native_boolean_check_constraint := true;
  Dialect._double_percents := false;
  Dialect._json_serializer := None;
  Dialect.visit_true := "1";
  Dialect.visit_false := "0" |}.

(** A backend whose driver returns [Decimal], with native boolean and
    enum. *)
Definition postgresql : Dialect.t := {|
  Dialect.name := "postgresql";
  Dialect.supports_native_decimal := true;
  Dialect.supports_native_boolean := true;
  Dialect.supports_native_enum := true;
  Dialect.non_native_boolean_check_constraint := true;
  Dialect._double_percents := true;
  Dialect._json_serializer := None;
  Dialect.visit_true := "true";
  Dialect.visit_false := "false" |}.

Definition mysql : Dialect.t := {|
  Dialect.name := "mysql";
  Dialect.supports_native_decimal := true;
  Dialect.supports_native_boolean := false;
  Dialect.supports_native_enum := true;
  Dialect.non_native_boolean_check_constraint := true;
  Dialect._double_percents := true;
  Dialect._json_serializer := None;
  Dialect.visit_true := "true";
  Dialect.visit_false := "false" |}.

End Examples.

(** The statement of the specification on the result conversion of a
    numeric type that asks for [Decimal] values: on a backend that returns
    floats a float to [Decimal] conversion with the resolved scale, on a
    backend that returns [Decimal] no processor. *)
Definition decimal_result_conversion_spec
    (result_processor : Numeric.t → Dialect.t → PyVal → option Processor)
    (self : Numeric.t) (dialect : Dialect.t) (coltype : PyVal) : Prop :=
  Numeric.asdecimal self = true →
  (Dialect.supports_native_decimal dialect = false →
   result_processor self dialect coltype
   = Some (to_decimal_processor_factory
             (Numeric._effective_decimal_return_scale self)))
  ∧ (Dialect.supports_native_decimal dialect = true →
     result_processor self dialect coltype = None).

(** The values the specification has [Boolean] accept: [None], [True],
    [False], [0] and [1]. *)
Definition Boolean_accepts (value : PyVal) : bool :=
  bool_decide (value ∈ [PNone; PBool true; PBool false; PInt 0; PInt 1]).

(** The statement of the specification on concatenable types: adding an
    operand that is concatenable too, or of the null type, is a
    concatenation typed as the left operand. *)
Definition concatenable_add_spec (is_commutative : operators.t → bool)
    (fresh : nat) (self other_comparator : Comparator.t) : Prop :=
  Comparator.isinstance self Comparator.Concatenable_Comparator = true →
  Comparator.isinstance other_comparator Comparator.Concatenable_Comparator
  || Comparator.isinstance other_comparator Comparator.NullType_Comparator
  = true →
  _adapt_expression is_commutative fresh self operators.add other_comparator
  = Ok (operators.concat_op, ColumnElement.type (Comparator.expr self)).

(** The statement of the specification on indexing an array: an integer
    index removes a dimension (the item type is left when the
    dimensionality is 1 or is not fixed), a slice keeps the array type. *)
Definition array_getitem_spec (fresh : nat) (self : Comparator.t)
    (index : ARRAY.Index) : Prop :=
  ∀ item_type as_tuple dimensions zero_indexes,
    config (Comparator.type self)
    = ArrayConfig item_type as_tuple dimensions zero_indexes →
    ∃ e, ARRAY.__getitem__ fresh self index = Ok e
         ∧ match index with
           | ARRAY.SliceIndex _ _ _ =>
               ColumnElement.type e = Comparator.type self
           | ARRAY.IntIndex _ =>
               match dimensions with
               | None => ColumnElement.type e = item_type
               | Some d =>
                   if d =? 1 then ColumnElement.type e = item_type
                   else ColumnElement.type e
                        = Instance_ fresh (__class__ (Comparator.type self))
                            (ArrayConfig item_type as_tuple (Some (d - 1))
                               zero_indexes)
               end
           end.

(** The statement of the specification on the active implementation:
    [typ] is this exact type, or an [ARRAY] whose item type it is; and the
    type is active for a backend when the backend name is absent from the
    variant map and the [_default] entry is (or wraps) the type, or the
    name is present and maps to (an array of) the type. *)
Definition is_or_wraps (self typ : TypeEngine) : Prop :=
  type_id typ = type_id self
  ∨ (isinstance typ Cls.ARRAY = true
     ∧ ∃ item_type as_tuple dimensions zero_indexes,
         config typ = ArrayConfig item_type as_tuple dimensions zero_indexes
         ∧ type_id item_type = type_id self).

Definition active_implementation_spec (self : TypeEngine)
    (backend_name : string) (variant_map : gmap string TypeEngine) : Prop :=
  (variant_map !! backend_name = None
   ∧ ∃ default_, variant_map !! "_default" = Some default_
                 ∧ is_or_wraps self default_)
  ∨ (∃ typ, variant_map !! backend_name = Some typ ∧ is_or_wraps self typ).




(** The statement of the specification on NULL: [None] passes every
    processor of an [Enum] untouched. *)
Definition None_untouched_spec (self : Enum.t) (dialect : Dialect.t)
    (coltype : PyVal) : Prop :=
  Enum.bind_processor self dialect PNone = Ok PNone
  ∧ Enum.literal_processor self dialect PNone = Ok PNone
  ∧ Enum.result_processor self dialect coltype PNone = Ok PNone.

(** Host objects with the same key are the same object: two names of a
    class whose members compare equal are aliases of one member. *)
Definition keyed_by_identity (objects : list PyVal) : Prop :=
  ∀ o o', o ∈ objects → o' ∈ objects → py_key o = py_key o' → o = o'.

(** A member of the class that has the key of a name of the class is the
    member of that name.  So it is in a class without a mix-in type, where
    no member has the key of a string. *)
Definition names_are_members (enum_class : Enum.EnumClass) : Prop :=
  ∀ name m name' m',
    (name, m) ∈ Enum.__members__ enum_class →
    (name', m') ∈ Enum.__members__ enum_class →
    py_key (Enum.member_object m) = PStr name' →
    Enum.member_object m' = Enum.member_object m.

(** A host object found under the key of a label is the host object of
    that label.  So it is for string labels, which are their own host
    objects, and for a class whose members are hashed by identity; a
    member with a [str] mix-in has the key of its value, which can be the
    label of another member. *)
Definition labels_are_members (values : list string) (objects : list PyVal)
  : Prop :=
  ∀ i k s o, objects !! i = Some o → py_key o = PStr s →
             values !! k = Some s → objects !! k = Some o.

(** ** Example types, columns and enumerations *)

Module AdaptationExamples.

Definition column (t : TypeEngine) : Comparator.t :=
  Comparator.comparator {| ColumnElement.type := t;
                           ColumnElement.key := None |}.

Definition an_integer : TypeEngine := Instance_ 1 Cls.Integer NoConfig.
Definition a_biginteger : TypeEngine := Instance_ 2 Cls.BigInteger NoConfig.
Definition a_date : TypeEngine := Instance_ 3 Cls.Date NoConfig.
Definition a_datetime : TypeEngine :=
  Instance_ 4 Cls.DateTime (TimezoneConfig true).
Definition a_string : TypeEngine :=
  Instance_ 5 Cls.String (StringConfig (Some 30) None).
Definition a_numeric : TypeEngine :=
  Instance_ 6 Cls.Numeric
    (NumericConfig (Numeric.__init__ (Some 10) (Some 2) None true)).

End AdaptationExamples.

Module ConcatExamples.

(** [operators.is_commutative], for the operators named here. *)
Definition is_commutative (op : operators.t) : bool :=
  bool_decide (op ∈ [operators.add; operators.mul]).

(** [Enum("red", "green", "blue")] as the object [7]. *)
Definition colors : result TypeEngine :=
  e ← Enum._enum_init (Enum.Labels ["red"; "green"; "blue"])
        Enum.default_kw;
  Ok (Instance_ 7 Cls.Enum (EnumConfig e)).

Definition a_text : TypeEngine :=
  Instance_ 8 Cls.Text (StringConfig None None).

Definition a_nulltype : TypeEngine := Instance_ 9 Cls.NullType NoConfig.

End ConcatExamples.

Module ArrayExamples.

(** [ARRAY(Integer, dimensions=2)], the array being the object [20] and
    its item type the object [21]. *)
Definition matrix : TypeEngine :=
  Instance_ 20 Cls.ARRAY
    (ArrayConfig (Instance_ 21 Cls.Integer NoConfig) false (Some 2) false).

(** [ARRAY(Integer, dimensions=2, zero_indexes=True)] *)
Definition matrix0 : TypeEngine :=
  Instance_ 22 Cls.ARRAY
    (ArrayConfig (Instance_ 23 Cls.Integer NoConfig) false (Some 2) true).

Definition column (t : TypeEngine) : Comparator.t :=
  Comparator.comparator {| ColumnElement.type := t;
                           ColumnElement.key := Some "data" |}.

End ArrayExamples.

Module VariantExamples.

(** A [Boolean(create_constraint=True)], the object [50], listed under
    two backend names of the variant mapping of an [Integer] column. *)
Definition flag : TypeEngine :=
  Instance_ 50 Cls.Boolean (BooleanConfig true (Some "ck_flag") true).

Definition base : TypeEngine := Instance_ 51 Cls.Integer NoConfig.

Definition column : Column.t := {|
  Column.name := "flag";
  Column.type := base;
  Column._variant_mapping := <["sqlite" := flag]> (<["mysql" := flag]> ∅);
|}.

Definition snapshot : gmap string TypeEngine :=
  <["_default" := base]> (<["sqlite" := flag]> (<["mysql" := flag]> ∅)).

Definition empty_table : schema.Table := {| schema.constraints := [] |}.

(** A second [Boolean(create_constraint=True)], the object [52], as the
    type of a column that has [flag] as its variant for [sqlite]. *)
Definition plain_flag : TypeEngine :=
  Instance_ 52 Cls.Boolean (BooleanConfig true (Some "ck_plain") true).

Definition column2 : Column.t := {|
  Column.name := "flag";
  Column.type := plain_flag;
  Column._variant_mapping := <["sqlite" := flag]> ∅;
|}.

End VariantExamples.

Module EnumExamples.

Definition strict_kw : Enum.Kw := {|
  Enum.kw_native_enum := true;
  Enum.kw_create_constraint := false;
  Enum.kw_values_callable := None;
  Enum.kw_length := None;
  Enum.kw_omit_aliases := true;
  Enum.kw__disable_warnings := false;
  Enum.kw_validate_strings := true;
  Enum.kw_name := Some "color";
  Enum.kw__enums := None |}.

Definition colors : list string := ["red"; "green"; "blue"].

(** [class Shade(enum.Enum): dark = 1; light = 2; dim = 1], where [dim]
    is an alias of [dark]. *)
Definition dark : Enum.Member :=
  {| Enum.member_id := 1; Enum.member_name := "dark";
     Enum.member_mixin := Enum.NoMixIn |}.
Definition light : Enum.Member :=
  {| Enum.member_id := 2; Enum.member_name := "light";
     Enum.member_mixin := Enum.NoMixIn |}.
Definition Shade : Enum.EnumClass := {|
  Enum.__name__ := "Shade";
  Enum.__members__ := [("dark", dark); ("light", light); ("dim", dark)] |}.

Definition with_aliases : Enum.Kw := {|
  Enum.kw_native_enum := true;
  Enum.kw_create_constraint := false;
  Enum.kw_values_callable := None;
  Enum.kw_length := None;
  Enum.kw_omit_aliases := false;
  Enum.kw__disable_warnings := false;
  Enum.kw_validate_strings := false;
  Enum.kw_name := None;
  Enum.kw__enums := None |}.

(** [class Tone(enum.Enum): dark = "d"; light = "l"; dim = "d"], with the
    values persisted instead of the names.  Iterating an enumeration class
    skips its aliases, so [lambda x: [e.value for e in x]] gives
    [["d", "l"]] for it. *)
Definition Tone : Enum.EnumClass := {|
  Enum.__name__ := "Tone";
  Enum.__members__ := [("dark", dark); ("light", light); ("dim", dark)] |}.

Definition member_values (enum_class : Enum.EnumClass) : list string :=
  ["d"; "l"].

(** [class Swap(str, enum.Enum): a = "b"; b = "a"]: each member is a
    string that compares equal to the name of the other. *)
Definition swap_a : Enum.Member :=
  {| Enum.member_id := 3; Enum.member_name := "a";
     Enum.member_mixin := Enum.StrMixIn "b" |}.
Definition swap_b : Enum.Member :=
  {| Enum.member_id := 4; Enum.member_name := "b";
     Enum.member_mixin := Enum.StrMixIn "a" |}.
Definition Swap : Enum.EnumClass := {|
  Enum.__name__ := "Swap";
  Enum.__members__ := [("a", swap_a); ("b", swap_b)] |}.

Definition persist_values (omit_aliases : bool) : Enum.Kw := {|
  Enum.kw_native_enum := true;
  Enum.kw_create_constraint := false;
  Enum.kw_values_callable := Some member_values;
  Enum.kw_length := None;
  Enum.kw_omit_aliases := omit_aliases;
  Enum.kw__disable_warnings := false;
  Enum.kw_validate_strings := false;
  Enum.kw_name := None;
  Enum.kw__enums := None |}.

End EnumExamples.

(** ** Further parts of the module *)

(** *** [Enum] as a schema-bound type *)

Module EnumSchema.

(** [Enum._should_create_constraint(compiler, **kw)] *)
Definition _should_create_constraint (self : TypeEngine)
    (compiler_dialect : Dialect.t)
    (variant_mapping : option (gmap string TypeEngine)) : result bool :=
  impl ← SchemaType._is_impl_for_variant self compiler_dialect
           variant_mapping;
  if negb (truthy impl) then Ok false
  else
    match config self with
    | EnumConfig e =>
        Ok (negb (Enum.native_enum e)
            || negb (Dialect.supports_native_enum compiler_dialect))
    | _ => Raise (AttributeError "native_enum")
    end.

(** [Enum._set_table(column, table)]: the constraint
    [CheckConstraint(type_coerce(column, String()).in_(self.enums), ...)],
    where [String()] is the object [fresh].  [SchemaType._set_table], called
    first, registers the create and drop listeners of the type with the
    event collaborator and leaves the constraints of the table alone. *)
Definition _set_table (fresh : nat) (self : TypeEngine) (column : Column.t)
    (table : schema.Table) : result schema.Table :=
  match config self with
  | EnumConfig e =>
      if negb (Enum.create_constraint e) then Ok table
      else
        let variant_mapping :=
          SchemaType._variant_mapping_for_set_table column in
        let e := {|
          schema.sqltext :=
            {| schema.in_column := Column.name column;
               schema.in_type :=
                 Instance_ fresh Cls.String (StringConfig None None);
               schema.in_values := PStr <$> Enum.enums e |};
          schema.name := Enum.name e;
          schema._create_rule :=
            λ dialect,
              _should_create_constraint self dialect variant_mapping;
          schema._type_bound := true |} in
        Ok (schema.attach e table)
  | _ => Raise (AttributeError "create_constraint")
  end.

End EnumSchema.

(** *** [class JSON]: the result conversion *)

Module JSONResult.

(** [JSON.result_processor(dialect, coltype)].  [json.loads] belongs to
    the Python library and is an argument, as is the attribute
    [dialect._json_deserializer]. *)
Definition result_processor (json_loads : PyVal → result PyVal)
    (_json_deserializer : option (PyVal → result PyVal))
    (self : JSON.t) (dialect : Dialect.t) (coltype : PyVal)
  : PyVal → result PyVal :=
  let string_process := String_.result_processor dialect coltype in
  let json_deserializer :=
    match _json_deserializer with
    | Some f => f
    | None => json_loads
    end in
  λ value,
    if bool_decide (value = PNone) then Ok PNone
    else
      value ← match string_process with
              | Some string_process => string_process value
              | None => Ok value
              end;
      json_deserializer value.

End JSONResult.

(** *** [class _Binary], [class PickleType(TypeDecorator)] *)

Module _Binary.

(** [_Binary.bind_processor(dialect)]; the argument is
    [dialect.dbapi.Binary], [None] when [dialect.dbapi is None]. *)
Definition bind_processor (DBAPIBinary : option (PyVal → result PyVal))
  : option (PyVal → result PyVal) :=
  match DBAPIBinary with
  | None => None
  | Some DBAPIBinary =>
      Some (λ value,
        if negb (bool_decide (value = PNone)) then DBAPIBinary value
        else Ok PNone)
  end.

(** [_Binary.result_processor(dialect, coltype)]; the argument is the
    built-in [bytes]. *)
Definition result_processor (bytes : PyVal → result PyVal)
  : option (PyVal → result PyVal) :=
  Some (λ value,
    if negb (bool_decide (value = PNone)) then bytes value else Ok value).

End _Binary.

Module PickleType.

(** [self.protocol], [self.pickler.dumps] and [self.pickler.loads]. *)
Record t := {
  protocol : Z;
  dumps : PyVal → Z → result PyVal;
  loads : PyVal → result PyVal;
}.

(** [PickleType.bind_processor(dialect)]; [impl_processor] is
    [self.impl_instance.bind_processor(dialect)]. *)
Definition bind_processor (self : t)
    (impl_processor : option (PyVal → result PyVal))
  : PyVal → result PyVal :=
  let dumps := dumps self in
  let protocol := protocol self in
  match impl_processor with
  | Some fixed_impl_processor =>
      λ value,
        value ← (if negb (bool_decide (value = PNone))
                 then dumps value protocol else Ok value);
        fixed_impl_processor value
  | None =>
      λ value,
        if negb (bool_decide (value = PNone)) then dumps value protocol
        else Ok value
  end.

(** [PickleType.result_processor(dialect, coltype)]; [impl_processor] is
    [self.impl_instance.result_processor(dialect, coltype)]. *)
Definition result_processor (self : t)
    (impl_processor : option (PyVal → result PyVal))
  : PyVal → result PyVal :=
  let loads := loads self in
  match impl_processor with
  | Some fixed_impl_processor =>
      λ value,
        value ← fixed_impl_processor value;
        if bool_decide (value = PNone) then Ok PNone else loads value
  | None =>
      λ value,
        if bool_decide (value = PNone) then Ok PNone else loads value
  end.

End PickleType.

(** *** Further exceptions *)

(** The exceptions of [sqlalchemy.exc] raised in this module, and two of
    the Python library: [TypeError] for an operand of the wrong type, and
    [OverflowError]. *)
Module exc.

Inductive t :=
| TypeError
| OverflowError
| InvalidRequestError (method_name : string).

Inductive outcome (A : Type) :=
| Returns (a : A)
| Raises (e : t).
Arguments Returns {A} a.
Arguments Raises {A} e.

#[global] Instance outcome_ret : MRet outcome := λ A a, Returns a.
#[global] Instance outcome_bind : MBind outcome :=
  λ A B f m, match m with Returns a => f a | Raises e => Raises e end.

End exc.

(** *** [class Interval(Emulated, _AbstractInterval, TypeDecorator)] *)

Module Interval.
Import exc.

(** The values of the processors: [None], a [datetime.timedelta], by its
    length in microseconds, a naive [datetime.datetime], by its distance
    from [epoch = datetime.utcfromtimestamp(0)] in microseconds, or
    anything else. *)
Inductive Val :=
| VNone
| Timedelta (microseconds : Z)
| Datetime (since_epoch : Z)
| Other (v : PyVal).

Definition day : Z := 86400000000.

(** [datetime.min] is 0001-01-01 00:00, 719162 days before the epoch;
    [datetime.max] is 9999-12-31 23:59:59.999999, the last microsecond of
    the day 2932896 days after it. *)
Definition datetime_min : Z := - 719162 * day.
Definition datetime_max : Z := 2932897 * day - 1.

(** [epoch + value]: a [datetime] out of range is an [OverflowError]. *)
Definition epoch_add (value : Val) : outcome Val :=
  match value with
  | Timedelta us =>
      if (datetime_min <=? us) && (us <=? datetime_max)
      then Returns (Datetime us)
      else Raises OverflowError
  | _ => Raises TypeError
  end.

(** [dt_value - epoch] *)
Definition sub_epoch (dt_value : Val) : outcome Val :=
  match dt_value with
  | Datetime us => Returns (Timedelta us)
  | _ => Raises TypeError
  end.

Definition is_None (value : Val) : bool :=
  match value with VNone => true | _ => false end.

(** [Interval.bind_processor(dialect)]; [impl_processor] is
    [self.impl_instance.bind_processor(dialect)]. *)
Definition bind_processor (impl_processor : option (Val → outcome Val))
  : Val → outcome Val :=
  match impl_processor with
  | Some fixed_impl_processor =>
      λ value,
        dt_value ← (if negb (is_None value) then epoch_add value
                    else Returns VNone);
        fixed_impl_processor dt_value
  | None =>
      λ value,
        if negb (is_None value) then epoch_add value else Returns VNone
  end.

(** [Interval.result_processor(dialect, coltype)]; [impl_processor] is
    [self.impl_instance.result_processor(dialect, coltype)]. *)
Definition result_processor (impl_processor : option (Val → outcome Val))
  : Val → outcome Val :=
  match impl_processor with
  | Some fixed_impl_processor =>
      λ value,
        dt_value ← fixed_impl_processor value;
        if is_None dt_value then Returns VNone else sub_epoch dt_value
  | None =>
      λ value, if is_None value then Returns VNone else sub_epoch value
  end.

End Interval.

(** *** [JSON.Comparator]: indexes and casts *)

Module JSONComparator.
Import exc.

(** The argument of [__getitem__]: a sequence other than a [str], or any
    other value. *)
Inductive Index :=
| Scalar (v : PyVal)
| Sequence (path : list PyVal).

(** The marker types of an index. *)
Inductive IndexType :=
| JSONIntIndexType
| JSONStrIndexType
| JSONPathType.

(** What [coercions.expect(roles.BinaryElementRole, index, expr=...,
    operator=..., bindparam_type=...)] is given: the index and the type
    of its bind parameter. *)
Record BindParameter := {
  value : Index;
  type_ : IndexType;
}.

(** An expression: a column, or a [BinaryExpression] with its [left],
    [right], [operator] and [type]. *)
Inductive Expr :=
| Column_ (c : ColumnElement.t)
| BinaryExpression (left_ : Expr) (right_ : BindParameter)
                   (operator : operators.t) (type : TypeEngine).

Definition expr_type (e : Expr) : TypeEngine :=
  match e with
  | Column_ c => ColumnElement.type c
  | BinaryExpression _ _ _ t => t
  end.

(** A [JSON.Comparator] object: [self.expr] and [self.type = expr.type]. *)
Record t := {
  expr : Expr;
  type : TypeEngine;
}.

Definition comparator (e : Expr) : t :=
  {| expr := e; type := expr_type e |}.

(** [JSON.Comparator._setup_getitem(index)] *)
Definition _setup_getitem (self : t) (index : Index)
  : operators.t * BindParameter * TypeEngine :=
  match index with
  | Sequence _ =>
      (operators.json_path_getitem_op,
       {| value := index; type_ := JSONPathType |}, type self)
  | Scalar v =>
      (operators.json_getitem_op,
       {| value := index;
          type_ := if isinstance_int v then JSONIntIndexType
                   else JSONStrIndexType |},
       type self)
  end.

(** Modelled from the spec: [operate] belongs to the expression language;
    "indexing returns an expression typed as JSON", the index expression
    of the adjusted operator over [self.expr] and the adjusted right
    operand.  [Indexable.Comparator.__getitem__] hands it the three
    results of [_setup_getitem]. *)
Definition __getitem__ (self : t) (index : Index) : Expr :=
  let '(adjusted_op, adjusted_right_expr, result_type) :=
    _setup_getitem self index in
  BinaryExpression (expr self) adjusted_right_expr adjusted_op result_type.

(** [JSON.Comparator._binary_w_type(typ, method_name)]: the clone of
    [self.expr] with [typ] as its type. *)
Definition _binary_w_type (self : t) (typ : TypeEngine)
    (method_name : string) : outcome Expr :=
  match expr self with
  | BinaryExpression left_ right_ operator _ =>
      if negb (bool_decide (operator ∈ [operators.json_getitem_op;
                                        operators.json_path_getitem_op]))
      then Raises (InvalidRequestError method_name)
      else Returns (BinaryExpression left_ right_ operator typ)
  | Column_ _ => Raises (InvalidRequestError method_name)
  end.

(** The casts; the new type object is [fresh]. *)
Definition as_boolean (fresh : nat) (self : t) : outcome Expr :=
  _binary_w_type self
    (Instance_ fresh Cls.Boolean (BooleanConfig false None true))
    "as_boolean".

Definition as_string (fresh : nat) (self : t) : outcome Expr :=
  _binary_w_type self (Instance_ fresh Cls.String (StringConfig None None))
    "as_string".

Definition as_integer (fresh : nat) (self : t) : outcome Expr :=
  _binary_w_type self (Instance_ fresh Cls.Integer NoConfig) "as_integer".

Definition as_float (fresh : nat) (self : t) : outcome Expr :=
  _binary_w_type self
    (Instance_ fresh Cls.Float (NumericConfig (Float.__init__ None false None)))
    "as_float".

Definition as_numeric (fresh : nat) (self : t) (precision scale : option Z)
    (asdecimal : bool) : outcome Expr :=
  _binary_w_type self
    (Instance_ fresh Cls.Numeric
       (NumericConfig (Numeric.__init__ precision scale None asdecimal)))
    "as_numeric".

Definition as_json (self : t) : Expr := expr self.

End JSONComparator.

(** *** Chains of array indexes *)

Module ARRAYChain.

(** [expr[i1][i2]...[in]] on an array expression: each index is applied
    through the comparator of the expression indexed so far; the objects
    the steps allocate are numbered from [fresh]. *)
Fixpoint getitem_chain (fresh : nat) (expr : ColumnElement.t)
    (indexes : list ARRAY.Index) : result ColumnElement.t :=
  match indexes with
  | [] => Ok expr
  | index :: indexes =>
      expr ← ARRAY.__getitem__ fresh (Comparator.comparator expr) index;
      getitem_chain (S fresh) expr indexes
  end.

End ARRAYChain.

(** *** Vocabulary of the further properties *)

(** The classes of the families that define an adaptation table: the
    subclasses of [Integer], [Numeric], [DateTime], [Date], [Time] and
    [Interval]. *)
Definition in_lookup_family (c : Cls.t) : bool :=
  Cls.issubclass c Cls.Integer || Cls.issubclass c Cls.Numeric
  || Cls.issubclass c Cls.DateTime || Cls.issubclass c Cls.Date
  || Cls.issubclass c Cls.Time || Cls.issubclass c Cls.Interval.

(** A text in which the occurrences of [c] come in pairs. *)
Inductive doubled (c : Ascii.ascii) : string → Prop :=
| doubled_nil : doubled c ""
| doubled_other a s : a ≠ c → doubled c s → doubled c (String a s)
| doubled_pair s : doubled c s → doubled c (String c (String c s)).

(** *** Further examples *)

Module FurtherExamples.

(** [Enum("red", "green", "blue", create_constraint=True,
    native_enum=False, name="color")] *)
Definition checked_kw : Enum.Kw := {|
  Enum.kw_native_enum := false;
  Enum.kw_create_constraint := true;
  Enum.kw_values_callable := None;
  Enum.kw_length := None;
  Enum.kw_omit_aliases := true;
  Enum.kw__disable_warnings := false;
  Enum.kw_validate_strings := true;
  Enum.kw_name := Some "color";
  Enum.kw__enums := None |}.

(** A serializer and its inverse on [None], [True] and [False]. *)
Definition dumps (v : PyVal) : result PyVal :=
  match v with
  | PNone => Ok (PStr "null")
  | PBool true => Ok (PStr "true")
  | PBool false => Ok (PStr "false")
  | _ => Raise (TypeError v)
  end.

Definition loads (s : PyVal) : result PyVal :=
  if decide (s = PStr "null") then Ok PNone
  else if decide (s = PStr "true") then Ok (PBool true)
  else if decide (s = PStr "false") then Ok (PBool false)
  else Raise (ValueError [s]).

End FurtherExamples.

(** * Properties *)

(** Membership in a list given by its elements. *)
Ltac elem_of_concrete :=
  repeat match goal with
         | H : _ ∈ _ :: _ |- _ =>
             apply elem_of_cons in H as [H|H]; [by discriminate H|]
         | H : _ ∈ [] |- _ => by apply elem_of_nil in H
         end.

(** ** Numeric result conversion *)

Lemma Float_result_processor_asdecimal self dialect coltype :
  Numeric.asdecimal self = true →
  Float.result_processor self dialect coltype
  = Some (to_decimal_processor_factory
            (Numeric._effective_decimal_return_scale self)).
Proof. intros H. unfold Float.result_processor. by rewrite H. Qed.

Lemma Numeric_result_processor_native self dialect coltype :
  Numeric.asdecimal self = true →
  Dialect.supports_native_decimal dialect = true →
  Numeric.result_processor self dialect coltype = None.
Proof. intros H1 H2. unfold Numeric.result_processor. by rewrite H1, H2. Qed.

Lemma Numeric_result_processor_scale self dialect coltype :
  Numeric.asdecimal self = true →
  Dialect.supports_native_decimal dialect = false →
  Numeric.result_processor self dialect coltype
  = Some (to_decimal_processor_factory
            (default Numeric._default_decimal_return_scale
               (Numeric.scale self))).
Proof.
  intros H1 H2. unfold Numeric.result_processor. rewrite H1, H2.
  by destruct (Numeric.scale self).
Qed.

(** C5, as the specification states it, fails on the code.  [Float] with
    [asdecimal=True] installs its float to [Decimal] conversion on a backend
    that returns [Decimal] natively too; and [Numeric.result_processor]
    does not read [decimal_return_scale]: with
    [Numeric(decimal_return_scale=5)] on a backend that returns floats the
    conversion uses the default scale 10, not 5. *)
Lemma decimal_result_conversion_spec_fails :
  ¬ decimal_result_conversion_spec Float.result_processor
      (Float.__init__ None true None) Examples.postgresql PNone
  ∧ ¬ decimal_result_conversion_spec Numeric.result_processor
        (Numeric.__init__ None None (Some 5) true) Examples.sqlite PNone.
Proof.
  split; intros H; destruct (H eq_refl) as [Hfloat Hnative].
  - specialize (Hnative eq_refl). discriminate Hnative.
  - specialize (Hfloat eq_refl). discriminate Hfloat.
Qed.

(** C5, amended.  For a type that asks for [Decimal] values
    ([asdecimal=True]): [Float] and its subclasses install the float to
    [Decimal] conversion with the resolved scale ([decimal_return_scale]
    when set, otherwise [scale], otherwise 10) whatever the backend
    returns; [Numeric] installs no result processor on a backend that
    returns [Decimal] natively, and on a backend that returns floats a
    float to [Decimal] conversion which, when [decimal_return_scale] is
    not set, uses the resolved scale ([scale], otherwise 10). *)
Theorem decimal_result_conversion self dialect coltype :
  Numeric.asdecimal self = true →
  Float.result_processor self dialect coltype
  = Some (to_decimal_processor_factory
            (Numeric._effective_decimal_return_scale self))
  ∧ (Dialect.supports_native_decimal dialect = true →
     Numeric.result_processor self dialect coltype = None)
  ∧ (Dialect.supports_native_decimal dialect = false →
     ∃ scale,
       Numeric.result_processor self dialect coltype
       = Some (to_decimal_processor_factory scale)
       ∧ (Numeric.decimal_return_scale self = None →
          scale = Numeric._effective_decimal_return_scale self))
  ∧ Numeric._effective_decimal_return_scale self
    = match Numeric.decimal_return_scale self, Numeric.scale self with
      | Some d, _ => d
      | None, Some s => s
      | None, None => 10
      end.
Proof.
  intros Hdec. split; [by apply Float_result_processor_asdecimal|].
  split; [by apply Numeric_result_processor_native|].
  split.
  - intros Hfloat. eexists. split.
    + by apply Numeric_result_processor_scale.
    + intros Hnone. unfold Numeric._effective_decimal_return_scale.
      rewrite Hnone. by destruct (Numeric.scale self).
  - unfold Numeric._effective_decimal_return_scale.
    by destruct (Numeric.decimal_return_scale self), (Numeric.scale self).
Qed.

Lemma decimal_result_conversion_witness :
  Float.result_processor (Float.__init__ None true (Some 4))
    Examples.postgresql PNone
  = Some (to_decimal_processor_factory 4)
  ∧ Numeric.result_processor (Numeric.__init__ (Some 12) (Some 3) None true)
      Examples.sqlite PNone
    = Some (to_decimal_processor_factory 3).
Proof.
  split.
  - exact (proj1 (decimal_result_conversion
             (Float.__init__ None true (Some 4)) Examples.postgresql PNone
             eq_refl)).
  - destruct (decimal_result_conversion
                (Numeric.__init__ (Some 12) (Some 3) None true)
                Examples.sqlite PNone eq_refl) as (_ & _ & H & _).
    destruct (H eq_refl) as (scale & -> & Hs). by rewrite (Hs eq_refl).
Defined.

(** ** JSON: SQL NULL and the JSON literal null *)

Lemma JSON_make_bind_processor_NULL self string_process json_serializer :
  JSON._make_bind_processor self string_process json_serializer JSON.NULL
  = serialized ← json_serializer PNone;
    match string_process with
    | Some string_process => string_process serialized
    | None => Ok serialized
    end.
Proof.
  unfold JSON._make_bind_processor.
  destruct string_process; simpl; by destruct (json_serializer PNone).
Qed.

Lemma JSON_make_bind_processor_None self string_process json_serializer :
  JSON.none_as_null self = true →
  JSON._make_bind_processor self string_process json_serializer PNone
  = Ok PNone.
Proof.
  intros H. unfold JSON._make_bind_processor.
  destruct string_process; simpl; by rewrite H.
Qed.

(** C6.  The JSON bind conversion maps [None] to SQL NULL ([None]) when
    [none_as_null=True], and maps the sentinel [JSON.NULL] to what the
    serializer makes of [None], whatever [none_as_null] is: with
    [json.dumps], which writes [None] as [null], the JSON literal
    [null]. *)
Theorem JSON_bind_None_and_NULL (json_dumps : PyVal → result PyVal)
    (self : JSON.t) (dialect : Dialect.t) :
  (JSON.none_as_null self = true →
   JSON.bind_processor json_dumps self dialect PNone = Ok PNone)
  ∧ JSON.bind_processor json_dumps self dialect JSON.NULL
    = default json_dumps (Dialect._json_serializer dialect) PNone
  ∧ (∀ other : JSON.t,
       JSON.bind_processor json_dumps self dialect JSON.NULL
       = JSON.bind_processor json_dumps other dialect JSON.NULL)
  ∧ (Dialect._json_serializer dialect = None →
     json_dumps PNone = Ok (PStr "null") →
     JSON.bind_processor json_dumps self dialect JSON.NULL
     = Ok (PStr "null")).
Proof.
  assert (HNULL : ∀ j : JSON.t,
    JSON.bind_processor json_dumps j dialect JSON.NULL
    = default json_dumps (Dialect._json_serializer dialect) PNone).
  { intros j. unfold JSON.bind_processor.
    rewrite JSON_make_bind_processor_NULL. simpl.
    destruct (Dialect._json_serializer dialect) as [f|]; simpl.
    - by destruct (f PNone).
    - by destruct (json_dumps PNone). }
  split; [|split; [|split]].
  - intros H. unfold JSON.bind_processor.
    by apply JSON_make_bind_processor_None.
  - apply HNULL.
  - intros other. by rewrite !HNULL.
  - intros Hser Hdumps. rewrite HNULL, Hser. exact Hdumps.
Qed.

Lemma JSON_bind_None_and_NULL_witness :
  let json_dumps := λ v, match v with
                         | PNone => Ok (PStr "null")
                         | _ => Raise (TypeError v)
                         end in
  JSON.bind_processor json_dumps {| JSON.none_as_null := true |}
    Examples.postgresql PNone = Ok PNone
  ∧ JSON.bind_processor json_dumps {| JSON.none_as_null := true |}
      Examples.postgresql JSON.NULL = Ok (PStr "null").
Proof.
  intros json_dumps.
  destruct (JSON_bind_None_and_NULL json_dumps {| JSON.none_as_null := true |}
              Examples.postgresql) as (H1 & _ & _ & H2).
  split; [exact (H1 eq_refl) | exact (H2 eq_refl eq_refl)].
Defined.

(** ** Boolean coercion *)

Lemma Boolean_strict_bools_key value :
  bool_decide (py_key value ∈ Boolean._strict_bools)
  = bool_decide (py_key value ∈ [PNone; PInt 0; PInt 1]).
Proof.
  unfold Boolean._strict_bools. apply bool_decide_ext.
  rewrite elem_of_list_to_set. simpl.
  rewrite !elem_of_cons, !elem_of_nil. tauto.
Qed.

Lemma Boolean_strict_as_bool_spec value :
  Boolean._strict_as_bool value
  = if bool_decide (py_key value ∈ [PNone; PInt 0; PInt 1]) then Ok value
    else if isinstance_int value then Raise (ValueError [value])
         else Raise (TypeError value).
Proof.
  unfold Boolean._strict_as_bool. rewrite Boolean_strict_bools_key.
  destruct (bool_decide _); simpl; [done|].
  by destruct (isinstance_int value).
Qed.

(** The values with the key of [None], [0] or [1]: the five values the
    specification lists, the numbers [0.0] and [1.0] of a type that is not
    [int], and the instances of a subclass of [int] that hold [0] or
    [1]. *)
Lemma Boolean_strict_keys value :
  py_key value ∈ [PNone; PInt 0; PInt 1]
  ↔ Boolean_accepts value = true
    ∨ (∃ x, value = PFloat x ∧ Qden x = 1%positive
            ∧ (Qnum x = 0 ∨ Qnum x = 1))
    ∨ (∃ id n, value = PIntObj id n ∧ (n = 0 ∨ n = 1)).
Proof.
  unfold Boolean_accepts. rewrite bool_decide_eq_true.
  rewrite !elem_of_cons, !elem_of_nil. split.
  - destruct value as [|[]|n|x| | | | | |]; simpl;
      try (intros [H|[H|[H|[]]]]; done || (left; tauto)).
    + destruct (bool_decide_reflect (Qden x = 1%positive)) as [Hden|Hden];
        intros [H|[H|[H|[]]]]; try done;
        injection H as Hnum; right; left; eauto.
    + intros [H|[[= ->]|[[= ->]|[]]]]; [done| |]; right; right; eauto.
  - intros [H|[(x & -> & Hden & Hnum)|(id & n & -> & Hn)]]; simpl.
    + destruct H as [->|[->|[->|[->|[->|[]]]]]]; simpl; tauto.
    + rewrite bool_decide_eq_true_2 by done.
      destruct Hnum as [-> | ->]; tauto.
    + destruct Hn as [-> | ->]; tauto.
Qed.

(** What the coercion does with every value: the values under the key of
    [None], [0] or [1] are passed through by [_strict_as_bool], and bound
    as a [bool] on a backend with native booleans, as an [int] otherwise,
    [None] staying [None]; any other value raises [TypeError] when it is
    not an integer and [ValueError] when it is, in the literal and in the
    bind processor alike. *)
Lemma Boolean_coercion_by_key (dialect : Dialect.t) (value : PyVal) :
  let accepted := bool_decide (py_key value ∈ [PNone; PInt 0; PInt 1]) in
  Boolean._strict_as_bool value
  = (if accepted then Ok value
     else if isinstance_int value then Raise (ValueError [value])
          else Raise (TypeError value))
  ∧ Boolean.bind_processor dialect value
    = (if accepted then
         if bool_decide (value = PNone) then Ok PNone
         else if Dialect.supports_native_boolean dialect
              then Ok (PBool (truthy value))
              else Ok (PInt (Z.b2z (truthy value)))
       else if isinstance_int value then Raise (ValueError [value])
            else Raise (TypeError value))
  ∧ Boolean.literal_processor dialect value
    = (if accepted then
         Ok (PStr (if truthy value then Dialect.visit_true dialect
                   else Dialect.visit_false dialect))
       else if isinstance_int value then Raise (ValueError [value])
            else Raise (TypeError value)).
Proof.
  intros accepted. split; [apply Boolean_strict_as_bool_spec|].
  unfold Boolean.bind_processor, Boolean.literal_processor.
  rewrite Boolean_strict_as_bool_spec. fold accepted.
  destruct accepted eqn:Hacc; simpl.
  - split; [|done].
    apply bool_decide_eq_true, Boolean_strict_keys in Hacc.
    destruct Hacc as [H|[(x & -> & Hden & Hnum)|(id & n & -> & Hn)]].
    + apply bool_decide_eq_true in H.
      rewrite !elem_of_cons, elem_of_nil in H.
      destruct H as [->|[->|[->|[->|[->|[]]]]]]; simpl;
        by destruct (Dialect.supports_native_boolean dialect).
    + simpl. destruct (Dialect.supports_native_boolean dialect); [done|].
      unfold Boolean.py_int. rewrite Hden.
      by destruct Hnum as [-> | ->].
    + simpl. destruct (Dialect.supports_native_boolean dialect); [done|].
      by destruct Hn as [-> | ->].
  - by destruct (isinstance_int value).
Qed.

(** On the values of the types the specification names, [None], [bool],
    [int] and [str] among them, the accepted ones are exactly [None],
    [True], [False], [0] and [1]. *)
Lemma Boolean_accepts_exact (value : PyVal) :
  (∀ x, value ≠ PFloat x) → (∀ id n, value ≠ PIntObj id n) →
  bool_decide (py_key value ∈ [PNone; PInt 0; PInt 1]) = Boolean_accepts value.
Proof.
  intros Hfloat Hint. apply eq_true_iff_eq.
  rewrite bool_decide_eq_true, Boolean_strict_keys.
  split; [|by left].
  intros [H|[(x & -> & _)|(id & n & -> & _)]]; [done| |].
  - by destruct (Hfloat x).
  - by destruct (Hint id n).
Qed.

(** C8.  The coercion accepts a number that is not an integer: [1.0] is
    not among [None], [True], [False], [0] and [1] and is no [int], yet
    it is found in [_strict_bools], whose members are looked up by [hash]
    and [==], so [_strict_as_bool] passes it through and it is bound as
    the integer [1], or as [True] on a backend with native booleans;
    [0.0] is rendered as the false literal.  The [TypeError] for values
    that are no integers is raised for [0.5], which equals none of
    them. *)
Theorem Boolean_float_accepted :
  Boolean_accepts (PFloat 1) = false
  ∧ isinstance_int (PFloat 1) = false
  ∧ Boolean._strict_as_bool (PFloat 1) = Ok (PFloat 1)
  ∧ Boolean.bind_processor Examples.sqlite (PFloat 1) = Ok (PInt 1)
  ∧ Boolean.bind_processor Examples.postgresql (PFloat 1) = Ok (PBool true)
  ∧ Boolean.literal_processor Examples.sqlite (PFloat 0) = Ok (PStr "0")
  ∧ Boolean._strict_as_bool (PFloat (Q2Qc (1 # 2)))
    = Raise (TypeError (PFloat (Q2Qc (1 # 2)))).
Proof. vm_compute. by repeat split. Qed.

(** ** Expression adaptation *)

Lemma dict_display_lookup_fmap {K V W} `{EqDecision K} (f : V → W)
    (d : list (K * V)) (k : K) :
  dict_display_lookup (prod_map id f <$> d) k = f <$> dict_display_lookup d k.
Proof.
  induction d as [|[k' v] d IH]; [done|].
  rewrite fmap_cons. cbn [dict_display_lookup prod_map fst snd id].
  rewrite IH.
  destruct (dict_display_lookup d k); simpl; [done|].
  by destruct (decide (k' = k)).
Qed.

Lemma typeobj_is_TClass (c d : Cls.t) :
  typeobj_is (TClass c) (TClass d) = bool_decide (c = d).
Proof. done. Qed.

(** C1.  For a left operand whose class has an adaptation table, the
    lookup under the operator and then under the affinity of the right
    operand decides the result type in this order: no entry, the left
    operand's own type; an entry that is the right operand's affinity, the
    right operand's type instance; an entry that is the left operand's
    affinity, the left operand's type instance; otherwise an instance of
    the entry with the default configuration. *)
Theorem adapt_expression_lookup_order (fresh : nat)
    (self other_comparator : Comparator.t) (op : operators.t)
    (adaptations : list (operators.t * list (Cls.t * Cls.t))) :
  HasExpressionLookup._expression_adaptations (Comparator.type self)
  = Ok adaptations →
  HasExpressionLookup._adapt_expression fresh self op other_comparator
  = match dict_display_lookup (dict_display_get adaptations op [])
            (_type_affinity (Comparator.type other_comparator)) with
    | None => Ok (op, Comparator.type self)
    | Some lookup =>
        if decide (lookup = _type_affinity (Comparator.type other_comparator))
        then Ok (op, Comparator.type other_comparator)
        else if decide (lookup = _type_affinity (Comparator.type self))
        then Ok (op, Comparator.type self)
        else cfg ← default_config lookup;
             Ok (op, Instance_ fresh lookup cfg)
    end.
Proof.
  intros Hadapt. unfold HasExpressionLookup._adapt_expression.
  rewrite Hadapt. cbn [mbind result_bind].
  unfold HasExpressionLookup._blank_dict.
  assert (Hlookup :
    dict_display_get
      (prod_map id TClass <$> dict_display_get adaptations op [])
      (_type_affinity (Comparator.type other_comparator))
      (TInst (Comparator.type self))
    = match dict_display_lookup (dict_display_get adaptations op [])
              (_type_affinity (Comparator.type other_comparator)) with
      | Some c => TClass c
      | None => TInst (Comparator.type self)
      end).
  { unfold dict_display_get at 1. rewrite dict_display_lookup_fmap.
    by destruct (dict_display_lookup _ _). }
  rewrite Hlookup. clear Hlookup.
  destruct (dict_display_lookup _ _) as [lookup|]; simpl; [|done].
  destruct (decide (lookup = _)) as [->|Hne1].
  { by rewrite bool_decide_eq_true_2. }
  rewrite bool_decide_eq_false_2 by done.
  destruct (decide (lookup = _)) as [->|Hne2].
  { by rewrite bool_decide_eq_true_2. }
  rewrite bool_decide_eq_false_2 by done.
  by destruct (default_config lookup).
Qed.

Lemma adapt_expression_lookup_order_witness :
  HasExpressionLookup._adapt_expression 100%nat
    (AdaptationExamples.column AdaptationExamples.a_date) operators.sub
    (AdaptationExamples.column AdaptationExamples.a_datetime)
  = Ok (operators.sub,
        Instance_ 100 Cls.Interval (IntervalConfig true None None)).
Proof.
  rewrite (adapt_expression_lookup_order 100%nat
             (AdaptationExamples.column AdaptationExamples.a_date)
             (AdaptationExamples.column AdaptationExamples.a_datetime)
             operators.sub (Date._expression_adaptations Cls.Date) eq_refl).
  reflexivity.
Defined.

(** The scenarios of the specification: [Integer + Integer] is the right
    operand's [Integer] (here a [BigInteger] column), [Integer / Integer]
    is a [Numeric], [Date - Date] an [Integer], [Integer + Numeric] the
    configured [Numeric] of the right operand. *)
Example adapt_Integer_add_Integer :
  HasExpressionLookup._adapt_expression 100%nat
    (AdaptationExamples.column AdaptationExamples.an_integer) operators.add
    (AdaptationExamples.column AdaptationExamples.a_biginteger)
  = Ok (operators.add, AdaptationExamples.a_biginteger).
Proof. reflexivity. Qed.

Example adapt_Integer_truediv_Integer :
  HasExpressionLookup._adapt_expression 100%nat
    (AdaptationExamples.column AdaptationExamples.an_integer)
    operators.truediv
    (AdaptationExamples.column AdaptationExamples.an_integer)
  = Ok (operators.truediv,
        Instance_ 100 Cls.Numeric
          (NumericConfig (Numeric.__init__ None None None true))).
Proof. reflexivity. Qed.

Example adapt_Date_sub_Date :
  HasExpressionLookup._adapt_expression 100%nat
    (AdaptationExamples.column AdaptationExamples.a_date) operators.sub
    (AdaptationExamples.column AdaptationExamples.a_date)
  = Ok (operators.sub, Instance_ 100 Cls.Integer NoConfig).
Proof. reflexivity. Qed.

Example adapt_Integer_add_Numeric :
  HasExpressionLookup._adapt_expression 100%nat
    (AdaptationExamples.column AdaptationExamples.an_integer) operators.add
    (AdaptationExamples.column AdaptationExamples.a_numeric)
  = Ok (operators.add, AdaptationExamples.a_numeric).
Proof. reflexivity. Qed.

Example adapt_Integer_add_String :
  HasExpressionLookup._adapt_expression 100%nat
    (AdaptationExamples.column AdaptationExamples.an_integer) operators.add
    (AdaptationExamples.column AdaptationExamples.a_string)
  = Ok (operators.add, AdaptationExamples.an_integer).
Proof. reflexivity. Qed.

(** ** Concatenable types *)

Lemma Concatenable_isinstance_cases (self : Comparator.t) :
  Comparator.isinstance self Comparator.Concatenable_Comparator = true →
  Comparator.comparator_class self = Comparator.Concatenable_Comparator
  ∨ Comparator.comparator_class self = Comparator.Enum_Comparator
  ∨ Comparator.comparator_class self = Comparator.JSON_Comparator
  ∨ Comparator.comparator_class self = Comparator.ARRAY_Comparator.
Proof.
  unfold Comparator.isinstance.
  destruct (Comparator.comparator_class self); simpl; intros H;
    first [discriminate H | tauto].
Qed.

(** C9, as the specification states it, fails on the code: [Enum] is a
    concatenable type ([Enum(String, ...)]), and
    [Enum.Comparator._adapt_expression] types a concatenation
    [String(self.type.length)], not as the left operand. *)
Lemma concatenable_add_spec_fails_for_Enum :
  match ConcatExamples.colors with
  | Ok colors =>
      ¬ concatenable_add_spec ConcatExamples.is_commutative 100%nat
          (AdaptationExamples.column colors)
          (AdaptationExamples.column ConcatExamples.a_text)
      ∧ _adapt_expression ConcatExamples.is_commutative 100%nat
          (AdaptationExamples.column colors) operators.add
          (AdaptationExamples.column ConcatExamples.a_text)
        = Ok (operators.concat_op,
              Instance_ 100%nat Cls.String (StringConfig (Some 5) None))
  | Raise _ => False
  end.
Proof.
  vm_compute. split; [|reflexivity].
  intros H. specialize (H eq_refl eq_refl). discriminate H.
Qed.

(** C9, amended.  For a concatenable type other than [Enum], [+] with a
    right operand that is concatenable too, or of the null type, is the
    concatenation operator with the left operand's own type, whatever an
    adaptation table would say; for any other operator or right operand
    the inherited resolution applies, which gives the operator and the
    left operand's type (these types have no table).  For [Enum] the
    concatenation is typed [String(self.type.length)]. *)
Theorem concatenable_adapt_expression (is_commutative : operators.t → bool)
    (fresh : nat) (self other_comparator : Comparator.t) (op : operators.t) :
  Comparator.isinstance self Comparator.Concatenable_Comparator = true →
  let concatenation :=
    bool_decide (op = operators.add)
    && (Comparator.isinstance other_comparator
          Comparator.Concatenable_Comparator
        || Comparator.isinstance other_comparator
             Comparator.NullType_Comparator) in
  (Comparator.comparator_class self ≠ Comparator.Enum_Comparator →
   _adapt_expression is_commutative fresh self op other_comparator
   = if concatenation
     then Ok (operators.concat_op, ColumnElement.type (Comparator.expr self))
     else TypeEngine_Comparator_adapt_expression fresh self op
            other_comparator)
  ∧ (Comparator.comparator_class self = Comparator.Enum_Comparator →
     concatenation = true →
     _adapt_expression is_commutative fresh self op other_comparator
     = length ← EnumComparator.type_length (Comparator.type self);
       Ok (operators.concat_op,
           Instance_ fresh Cls.String (StringConfig length None)))
  ∧ TypeEngine_Comparator_adapt_expression fresh self op other_comparator
    = Ok (op, Comparator.type self).
Proof.
  intros Hconc concatenation. split; [|split; [|done]].
  - intros Hne.
    destruct (Concatenable_isinstance_cases self Hconc)
      as [Hc|[Hc|[Hc|Hc]]]; [|done| |];
      unfold _adapt_expression; rewrite Hc; simpl;
      unfold Concatenable._adapt_expression; fold concatenation;
      by destruct concatenation.
  - intros Hc Hcat. unfold _adapt_expression. rewrite Hc. simpl.
    unfold EnumComparator._adapt_expression, Concatenable._adapt_expression.
    fold concatenation. rewrite Hcat. simpl.
    by destruct (EnumComparator.type_length (Comparator.type self)).
Qed.

Lemma concatenable_adapt_expression_witness :
  _adapt_expression ConcatExamples.is_commutative 100%nat
    (AdaptationExamples.column ConcatExamples.a_text) operators.add
    (AdaptationExamples.column ConcatExamples.a_nulltype)
  = Ok (operators.concat_op, ConcatExamples.a_text)
  ∧ _adapt_expression ConcatExamples.is_commutative 100%nat
      (AdaptationExamples.column ConcatExamples.a_text) operators.sub
      (AdaptationExamples.column AdaptationExamples.a_string)
    = Ok (operators.sub, ConcatExamples.a_text).
Proof.
  split.
  - exact (proj1 (concatenable_adapt_expression ConcatExamples.is_commutative
             100%nat (AdaptationExamples.column ConcatExamples.a_text)
             (AdaptationExamples.column ConcatExamples.a_nulltype)
             operators.add eq_refl) ltac:(discriminate)).
  - exact (proj1 (concatenable_adapt_expression ConcatExamples.is_commutative
             100%nat (AdaptationExamples.column ConcatExamples.a_text)
             (AdaptationExamples.column AdaptationExamples.a_string)
             operators.sub eq_refl) ltac:(discriminate)).
Defined.

(** ** Array indexing *)

Example ARRAY_init_matrix :
  ARRAY.__init__ 20 (TClass Cls.Integer) false (Some 2) false
  = Ok ArrayExamples.matrix.
Proof. reflexivity. Qed.

Example ARRAY_init_nested :
  ARRAY.__init__ 30 (TInst ArrayExamples.matrix) false None false
  = Raise (ValueError []).
Proof. reflexivity. Qed.

(** X10.  The type of an indexed array, wherever [_setup_getitem]
    returns: an integer index always does, and gives the item type when
    the dimensionality is 1 or not fixed, the array type with one
    dimension less otherwise; a slice does when [zero_indexes] is off, or
    when the slice gives both [start] and [stop], and keeps the array
    type. *)
Lemma ARRAY_getitem_result_type (fresh : nat) (self : Comparator.t)
    (index : ARRAY.Index) :
  (∀ item_type as_tuple dimensions start stop step,
     config (Comparator.type self)
     = ArrayConfig item_type as_tuple dimensions true →
     index = ARRAY.SliceIndex start stop step →
     is_Some start ∧ is_Some stop) →
  array_getitem_spec fresh self index.
Proof.
  intros Hbounds item_type as_tuple dimensions zero_indexes Hcfg.
  unfold ARRAY.__getitem__, ARRAY._setup_getitem. rewrite Hcfg.
  destruct index as [i|start stop step].
  - destruct dimensions as [d|]; simpl; [|eauto].
    destruct (d =? 1) eqn:Hd; simpl; [eauto|].
    unfold ARRAY.adapt. rewrite Hcfg. simpl. eauto.
  - destruct zero_indexes; simpl; [|eauto].
    destruct (Hbounds _ _ _ _ _ _ Hcfg eq_refl) as [[a ->] [b ->]].
    simpl. eauto.
Qed.

(** The scenario of the specification: [ARRAY(Integer, dimensions=2)]
    indexed once is an [ARRAY(Integer, dimensions=1)], indexed twice the
    [Integer] item type; sliced, it is the same array type. *)
Example ARRAY_matrix_indexed :
  ∃ row,
    ARRAY.__getitem__ 40 (ArrayExamples.column ArrayExamples.matrix)
      (ARRAY.IntIndex 5) = Ok row
    ∧ ColumnElement.type row
      = Instance_ 40 Cls.ARRAY
          (ArrayConfig (Instance_ 21 Cls.Integer NoConfig) false (Some 1)
             false)
    ∧ ColumnElement.type
        <$> (match ARRAY.__getitem__ 41 (Comparator.comparator row)
                     (ARRAY.IntIndex 6) with
             | Ok cell => Some cell
             | Raise _ => None
             end)
      = Some (Instance_ 21 Cls.Integer NoConfig)
    ∧ ARRAY._setup_getitem 42 (ArrayExamples.column ArrayExamples.matrix)
        (ARRAY.SliceIndex None (Some 5) None)
      = Ok (operators.getitem, ARRAY.Slice None (Some 5) None (Some "data"),
            ArrayExamples.matrix).
Proof. eexists. split; [reflexivity|]. by repeat split. Qed.

(** C7: the code breaks the claim.  With [zero_indexes=True] the bounds
    of a slice are shifted by [index.start + 1] and [index.stop + 1]; on a
    slice with an open bound, such as [arr[:5]], that is [None + 1], and
    indexing raises [TypeError] instead of yielding an expression of the
    same array type.  (With [zero_indexes] off the same slice yields the
    array type, as [ARRAY_matrix_indexed] shows.) *)
Theorem ARRAY_zero_indexes_open_slice :
  ARRAY._setup_getitem 40 (ArrayExamples.column ArrayExamples.matrix0)
    (ARRAY.SliceIndex None (Some 5) None)
  = Raise (TypeError PNone)
  ∧ ARRAY.__getitem__ 40 (ArrayExamples.column ArrayExamples.matrix0)
      (ARRAY.SliceIndex None (Some 5) None)
    = Raise (TypeError PNone)
  ∧ ¬ array_getitem_spec 40 (ArrayExamples.column ArrayExamples.matrix0)
        (ARRAY.SliceIndex None (Some 5) None).
Proof.
  split; [reflexivity|]. split; [reflexivity|].
  intros H. destruct (H _ _ _ _ eq_refl) as (e & He & _). discriminate He.
Qed.

(** ** Schema-bound types and variants *)

Lemma we_are_the_impl_spec (self typ : TypeEngine) :
  SchemaType._we_are_the_impl self typ = true ↔ is_or_wraps self typ.
Proof.
  unfold SchemaType._we_are_the_impl, is_or_wraps, is_.
  rewrite orb_true_iff, andb_true_iff, bool_decide_eq_true.
  split; (intros [H|[Harr H]]; [by left|right; split; [done|]]).
  - destruct (config typ) eqn:Hcfg; try discriminate H.
    apply bool_decide_eq_true in H. eauto 10.
  - destruct H as (item & a & d & z & -> & Hid).
    by apply bool_decide_eq_true.
Qed.

Lemma variant_mapping_snapshot (column : Column.t)
    (vm : gmap string TypeEngine) :
  SchemaType._variant_mapping_for_set_table column = Some vm →
  vm = <["_default" := Column.type column]> (Column._variant_mapping column)
  ∧ SchemaType.dict_truthy (Column._variant_mapping column) = true
  ∧ SchemaType.dict_truthy vm = true.
Proof.
  unfold SchemaType._variant_mapping_for_set_table.
  destruct (SchemaType.dict_truthy (Column._variant_mapping column)) eqn:Ht;
    [|discriminate].
  intros [= <-]. split; [done|]. split; [done|].
  unfold SchemaType.dict_truthy. apply negb_true_iff, bool_decide_eq_false.
  rewrite map_size_empty_iff. apply insert_non_empty.
Qed.

Lemma is_impl_for_variant_snapshot (self : TypeEngine) (column : Column.t)
    (dialect : Dialect.t) (vm : gmap string TypeEngine) :
  SchemaType._variant_mapping_for_set_table column = Some vm →
  ∃ r, SchemaType._is_impl_for_variant self dialect (Some vm) = Ok r
       ∧ (truthy r = true
          ↔ active_implementation_spec self (Dialect.name dialect) vm).
Proof.
  intros Hsnap.
  destruct (variant_mapping_snapshot column vm Hsnap) as (Hvm & _ & Htruthy).
  assert (Hdefault : vm !! "_default" = Some (Column.type column)).
  { rewrite Hvm. apply lookup_insert_eq. }
  unfold SchemaType._is_impl_for_variant, active_implementation_spec.
  rewrite Htruthy. simpl.
  destruct (vm !! Dialect.name dialect) as [typ|] eqn:Hname.
  - destruct (SchemaType._we_are_the_impl self typ) eqn:Himpl.
    + eexists. split; [done|]. simpl. split; [|done].
      intros _. right. exists typ. split; [done|].
      by apply we_are_the_impl_spec.
    + eexists. split; [done|]. simpl. split; [done|].
      intros [[Hnone _]|(typ' & [= <-] & Hw)]; [done|].
      apply we_are_the_impl_spec in Hw. congruence.
  - rewrite Hdefault. eexists. split; [done|]. simpl.
    rewrite we_are_the_impl_spec. split.
    + intros Hw. left. split; [done|]. eauto.
    + intros [[_ (d & [= <-] & Hw)]|(typ & Hsome & _)]; [done|done].
Qed.

Lemma is_impl_for_variant_total (self : TypeEngine) (column : Column.t)
    (dialect : Dialect.t) :
  ∃ r, SchemaType._is_impl_for_variant self dialect
         (SchemaType._variant_mapping_for_set_table column) = Ok r
       ∧ (SchemaType._variant_mapping_for_set_table column = None →
          r = PBool true).
Proof.
  destruct (SchemaType._variant_mapping_for_set_table column) as [vm|] eqn:H.
  - destruct (is_impl_for_variant_snapshot self column dialect vm H)
      as (r & Hr & _). exists r. by split.
  - exists (PBool true). by split.
Qed.












(** The scenarios: the constraints of the [Boolean] whose hook is
    registered under both [sqlite] and [mysql] are emitted on each of
    them, and not on [postgresql], which has native booleans; with one
    instance for [sqlite] and another as the type of the column, each
    backend gets the one constraint of its instance. *)
Example Boolean_checks_per_backend :
  let emitted_on column dialect :=
    match Boolean._on_table_attach (Boolean.hooks column) column
            VariantExamples.empty_table with
    | Ok table =>
        match schema.emitted dialect (schema.constraints table) with
        | Ok cs => Some (type_id ∘ schema.in_type ∘ schema.sqltext <$> cs)
        | Raise _ => None
        end
    | Raise _ => None
    end in
  emitted_on VariantExamples.column Examples.sqlite = Some [50; 50]%nat
  ∧ emitted_on VariantExamples.column Examples.mysql = Some [50; 50]%nat
  ∧ emitted_on VariantExamples.column Examples.postgresql = Some []
  ∧ emitted_on VariantExamples.column2 Examples.sqlite = Some [50]%nat
  ∧ emitted_on VariantExamples.column2 Examples.mysql = Some [52]%nat
  ∧ emitted_on VariantExamples.column2 Examples.postgresql = Some [].
Proof. vm_compute. by repeat split. Qed.

(** ** Dictionaries *)

Section dict_lemmas.
Implicit Types (d : gmap PyVal PyVal) (l : list (PyVal * PyVal)).
Implicit Types (k v : PyVal).

Lemma py_key_idemp k : py_key (py_key k) = py_key k.
Proof.
  destruct k as [| | |x| | | | | |]; simpl; try done.
  destruct (bool_decide (Qden x = 1%positive)) eqn:H; simpl; [done|].
  by rewrite H.
Qed.

Lemma py_key_PNone k : py_key k = PNone ↔ k = PNone.
Proof.
  split; [|by intros ->].
  destruct k as [| | |x| | | | | |]; simpl; try done.
  by destruct (bool_decide (Qden x = 1%positive)).
Qed.

Lemma dict_get_key d k k' :
  py_key k = py_key k' → dict_get d k = dict_get d k'.
Proof. unfold dict_get. by intros ->. Qed.

Lemma dict_get_set d k v k' :
  dict_get (dict_set d k v) k'
  = if decide (py_key k = py_key k') then Some v else dict_get d k'.
Proof. unfold dict_get, dict_set. apply lookup_insert. Qed.

Lemma dict_update_cons d k v l :
  dict_update d ((k, v) :: l) = dict_update (dict_set d k v) l.
Proof. done. Qed.

Lemma dict_update_notin d l k :
  Forall (λ kv, py_key kv.1 ≠ py_key k) l →
  dict_get (dict_update d l) k = dict_get d k.
Proof.
  revert d. induction l as [|[k0 v0] l IH]; intros d Hl; [done|].
  inversion_clear Hl as [|?? Hhd Htl]. rewrite dict_update_cons, IH by done.
  rewrite dict_get_set. by rewrite decide_False.
Qed.

(** [dict_update] as a left-biased union with the map of the pairs,
    the last pair first. *)
Lemma dict_update_union d l :
  dict_update d l
  = list_to_map (reverse (prod_map py_key id <$> l)) ∪ d.
Proof.
  revert d. induction l as [|[k0 v0] l IH]; intros d.
  { simpl. by rewrite (left_id_L ∅ (∪)). }
  rewrite dict_update_cons, IH, fmap_cons, reverse_cons, list_to_map_app.
  simpl. rewrite <-(assoc_L (∪)). f_equal. unfold dict_set.
  by rewrite insert_empty, <-insert_union_singleton_l.
Qed.

Lemma elem_of_normalized l k w :
  (k, w) ∈ reverse (prod_map py_key id <$> l)
  ↔ ∃ k0, (k0, w) ∈ l ∧ py_key k0 = k.
Proof.
  rewrite elem_of_reverse, list_elem_of_fmap. split.
  - intros ([k0 w0] & [= -> ->] & Hin). eauto.
  - intros (k0 & Hin & <-). by exists (k0, w).
Qed.

Lemma dict_update_lookup_Some d l k w :
  dict_get (dict_update d l) k = Some w →
  (∃ k0, (k0, w) ∈ l ∧ py_key k0 = py_key k) ∨ dict_get d k = Some w.
Proof.
  unfold dict_get. rewrite dict_update_union, lookup_union_Some_raw.
  intros [H|[_ H]]; [left|by right].
  by apply elem_of_list_to_map_2, elem_of_normalized in H.
Qed.

Lemma dict_update_is_Some d l k0 v0 :
  (k0, v0) ∈ l → is_Some (dict_get (dict_update d l) k0).
Proof.
  intros Hin. unfold dict_get. rewrite dict_update_union.
  apply lookup_union_is_Some. left.
  apply not_eq_None_Some. intros Hnone.
  apply not_elem_of_list_to_map in Hnone. apply Hnone.
  apply list_elem_of_fmap. exists (py_key k0, v0). split; [done|].
  apply elem_of_normalized. eauto.
Qed.

Lemma dict_update_lookup_NoDup d l k0 v0 :
  NoDup ((λ kv, py_key kv.1) <$> l) →
  (k0, v0) ∈ l →
  dict_get (dict_update d l) k0 = Some v0.
Proof.
  intros Hnodup Hin. unfold dict_get. rewrite dict_update_union.
  apply lookup_union_Some_l, elem_of_list_to_map_1.
  - rewrite fmap_reverse, reverse_Permutation, <-list_fmap_compose.
    erewrite list_fmap_ext; [exact Hnodup|]. by intros ? [??].
  - apply elem_of_normalized. eauto.
Qed.

Lemma dict_get_empty k : dict_get ∅ k = None.
Proof. apply lookup_empty. Qed.

End dict_lemmas.

Lemma mapM_result_Ok {A B} (f : A → result B) (l : list A) (ys : list B) :
  mapM_result f l = Ok ys ↔ Forall2 (λ x y, f x = Ok y) l ys.
Proof.
  revert ys. induction l as [|x l IH]; intros ys; simpl.
  - split; [intros [= <-]; constructor | by inversion 1].
  - destruct (f x) as [y|e] eqn:Hfx; simpl.
    + destruct (mapM_result f l) as [ys'|e'] eqn:Hl; simpl.
      * split.
        -- intros [= <-]. constructor; [done|]. by apply IH.
        -- inversion 1 as [|???? Hy Hys]; subst.
           apply IH in Hys. congruence.
      * split; [done|]. inversion 1 as [|???? Hy Hys]; subst.
        apply IH in Hys. congruence.
    + split; [done|]. inversion 1; congruence.
Qed.

Lemma mapM_result_total {A B} (f : A → result B) (l : list A) :
  (∀ x, x ∈ l → ∃ y, f x = Ok y) → ∃ ys, mapM_result f l = Ok ys.
Proof.
  induction l as [|x l IH]; intros Hf; simpl; [eauto|].
  destruct (Hf x) as [y ->]; [by left|].
  destruct IH as [ys ->]; [|simpl; eauto].
  intros x' Hx'. apply Hf. by right.
Qed.

(** ** The lookups of an [Enum] *)

Lemma py_key_PStr s : py_key (PStr s) = PStr s.
Proof. done. Qed.

Section setup_for_values.
Variables (values : list string) (objects : list PyVal).
Hypothesis Hlen : length values = length objects.
Hypothesis Hnodup : NoDup values.

Local Abbreviation valid0 :=
  (py_dict (zip (reverse objects) (PStr <$> reverse values))).
Local Abbreviation object0 := (py_dict (zip (PStr <$> values) objects)).

Lemma object_pairs k o :
  (k, o) ∈ zip (PStr <$> values) objects
  ↔ ∃ i v, values !! i = Some v ∧ objects !! i = Some o ∧ k = PStr v.
Proof.
  rewrite list_elem_of_lookup. split.
  - intros (i & Hi). apply lookup_zip_with_Some in Hi
      as (a & b & [= -> ->] & Ha & Hb).
    apply list_lookup_fmap_Some in Ha as (v & -> & Hv). eauto.
  - intros (i & v & Hv & Ho & ->). exists i.
    apply lookup_zip_with_Some. exists (PStr v), o.
    split; [done|]. split; [|done]. apply list_lookup_fmap_Some. eauto.
Qed.

Lemma valid_pairs o w :
  (o, w) ∈ zip (reverse objects) (PStr <$> reverse values)
  ↔ ∃ i v, values !! i = Some v ∧ objects !! i = Some o ∧ w = PStr v.
Proof.
  rewrite list_elem_of_lookup. split.
  - intros (i & Hi). apply lookup_zip_with_Some in Hi
      as (a & b & [= -> ->] & Ha & Hb).
    apply list_lookup_fmap_Some in Hb as (v & -> & Hv).
    apply reverse_lookup_Some in Ha as [Ha _].
    apply reverse_lookup_Some in Hv as [Hv _].
    rewrite Hlen in Hv. eauto.
  - intros (i & v & Hv & Ho & ->).
    pose proof (lookup_lt_Some _ _ _ Ho) as Hi.
    exists (length objects - S i)%nat.
    apply lookup_zip_with_Some. exists o, (PStr v).
    split; [done|].
    assert (Hidx : (length objects - S (length objects - S i) = i)%nat)
      by lia.
    split.
    + apply reverse_lookup_Some. rewrite Hidx. split; [done|lia].
    + apply list_lookup_fmap_Some. exists v. split; [done|].
      apply reverse_lookup_Some. rewrite Hlen, Hidx. split; [done|lia].
Qed.

Lemma object0_lookup i v o :
  values !! i = Some v → objects !! i = Some o →
  dict_get object0 (PStr v) = Some o.
Proof.
  intros Hv Ho. apply dict_update_lookup_NoDup.
  - assert (Hkeys : (λ kv : PyVal * PyVal, py_key kv.1)
                      <$> zip (PStr <$> values) objects
                    = PStr <$> values).
    { trans (py_key <$> (zip (PStr <$> values) objects).*1).
      - apply (list_fmap_compose fst py_key).
      - rewrite fst_zip by (rewrite length_fmap; lia).
        rewrite <-list_fmap_compose. by apply list_fmap_ext. }
    rewrite Hkeys. apply NoDup_fmap_2; [by intros ?? [=]|done].
  - apply object_pairs. eauto.
Qed.

Lemma object0_lookup_None k :
  (∀ v, v ∈ values → py_key k ≠ PStr v) → dict_get object0 k = None.
Proof.
  intros Hk. destruct (dict_get object0 k) as [o|] eqn:Hget; [|done].
  apply dict_update_lookup_Some in Hget as [(k0 & Hin & Hk0)|Hget].
  - apply object_pairs in Hin as (i & v & Hv & _ & ->). simpl in Hk0.
    destruct (Hk v); [by eapply list_elem_of_lookup_2|done].
  - by rewrite dict_get_empty in Hget.
Qed.

(** An entry of the first [_valid_lookup] is the label of a host object
    with the key looked up. *)
Lemma valid0_lookup_key k w :
  dict_get valid0 k = Some w →
  ∃ j v o, w = PStr v ∧ objects !! j = Some o ∧ values !! j = Some v
           ∧ py_key o = py_key k.
Proof.
  intros Hget.
  apply dict_update_lookup_Some in Hget as [(k0 & Hin & Hk0)|Hget];
    [|by rewrite dict_get_empty in Hget].
  apply valid_pairs in Hin as (j & v & Hv & Ho & ->). eauto 10.
Qed.

Lemma valid0_lookup i o :
  objects !! i = Some o →
  ∃ j v o', dict_get valid0 o = Some (PStr v)
            ∧ objects !! j = Some o' ∧ values !! j = Some v
            ∧ py_key o' = py_key o.
Proof.
  intros Ho.
  destruct (lookup_lt_is_Some_2 values i) as [v Hv].
  { rewrite Hlen. by eapply lookup_lt_Some. }
  destruct (dict_update_is_Some ∅
              (zip (reverse objects) (PStr <$> reverse values)) o (PStr v))
    as [w Hw].
  { apply valid_pairs. eauto. }
  fold (py_dict (zip (reverse objects) (PStr <$> reverse values))) in Hw.
  rewrite Hw.
  apply valid0_lookup_key in Hw as (j & v' & o' & -> & ? & ? & ?).
  eauto 10.
Qed.

Lemma valid0_lookup_None k :
  py_key k ∉ py_key <$> objects → dict_get valid0 k = None.
Proof.
  intros Hk. destruct (dict_get valid0 k) as [w|] eqn:Hget; [|done].
  apply valid0_lookup_key in Hget as (j & v & o & _ & Ho & _ & Hkey).
  destruct Hk. rewrite <-Hkey. apply list_elem_of_fmap_2.
  by eapply list_elem_of_lookup_2.
Qed.

End setup_for_values.

Lemma Forall2_Ok_fmap {A B C} (f : A → result B) (g : A → C) (h : B → C)
    (l : list A) (ys : list B) :
  (∀ x y, f x = Ok y → h y = g x) →
  Forall2 (λ x y, f x = Ok y) l ys → h <$> ys = g <$> l.
Proof.
  intros Hfg. induction 1 as [|x y l ys Hxy _ IH]; [done|].
  rewrite !fmap_cons, IH. f_equal. by apply Hfg.
Qed.

Lemma setup_for_values_spec (values : list string) (objects : list PyVal) :
  length values = length objects →
  NoDup values →
  ∃ vl ol,
    Enum._setup_for_values values objects = Ok (values, vl, ol)
    ∧ (∀ i v o, values !! i = Some v → objects !! i = Some o →
                dict_get ol (PStr v) = Some o)
    ∧ (∀ k, (∀ v, v ∈ values → py_key k ≠ PStr v) → dict_get ol k = None)
    ∧ (keyed_by_identity objects → labels_are_members values objects →
       ∀ o, o ∈ objects →
            ∃ j v, dict_get vl o = Some (PStr v)
                   ∧ objects !! j = Some o ∧ values !! j = Some v)
    ∧ (∀ k, py_key k ∉ py_key <$> objects →
            (∀ v, v ∈ values → py_key k ≠ PStr v) →
            dict_get vl k = None)
    ∧ (∀ k, py_key k ∈ py_key <$> objects ∨ py_key k ∈ PStr <$> values →
            ∃ v, v ∈ values ∧ dict_get vl k = Some (PStr v))
    ∧ (keyed_by_identity objects → labels_are_members values objects →
       ∀ i s o, values !! i = Some s → objects !! i = Some o →
                dict_get vl (PStr s) = dict_get vl o).
Proof.
  intros Hlen Hnodup.
  set (valid0 := py_dict (zip (reverse objects) (PStr <$> reverse values))).
  set (object0 := py_dict (zip (PStr <$> values) objects)).
  set (f := λ value : string,
         o ← getitem object0 (PStr value);
         v ← getitem valid0 o;
         Ok (PStr value, v)).
  (* each update is the label and the entry of [valid0] for its member *)
  assert (Hf : ∀ k s o, values !! k = Some s → objects !! k = Some o →
            ∃ j v o', f s = Ok (PStr s, PStr v)
                      ∧ dict_get valid0 o = Some (PStr v)
                      ∧ objects !! j = Some o' ∧ values !! j = Some v
                      ∧ py_key o' = py_key o).
  { intros k s o Hs Ho. unfold f, getitem.
    pose proof (object0_lookup values objects Hlen Hnodup k s o Hs Ho) as Hol.
    fold object0 in Hol. rewrite Hol. simpl.
    destruct (valid0_lookup values objects Hlen k o Ho)
      as (j & v & o' & Hget & Hoj & Hvj & Hkey).
    fold valid0 in Hget. rewrite Hget. simpl. eauto 10. }
  assert (Hobj : ∀ k s, values !! k = Some s → ∃ o, objects !! k = Some o).
  { intros k s Hs. apply lookup_lt_is_Some_2. rewrite <-Hlen.
    by eapply lookup_lt_Some. }
  destruct (mapM_result_total f values) as [updates Hup].
  { intros s [k Hs]%list_elem_of_lookup_1. destruct (Hobj k s Hs) as [o Ho].
    destruct (Hf k s o Hs Ho) as (j & v & o' & -> & _). eauto. }
  unfold Enum._setup_for_values. fold valid0 object0 f. rewrite Hup. simpl.
  apply mapM_result_Ok in Hup.
  assert (Hkeys : (λ kv : PyVal * PyVal, py_key kv.1) <$> updates
                  = PStr <$> values).
  { apply (Forall2_Ok_fmap f); [|done]. intros s u Hu. unfold f in Hu.
    destruct (getitem object0 (PStr s)) as [o|]; simpl in Hu; [|done].
    destruct (getitem valid0 o); simpl in Hu; [|done].
    by injection Hu as <-. }
  (* the entry of the final lookup under the key of a label *)
  assert (Hlabel : ∀ i s o k, values !! i = Some s → objects !! i = Some o →
            py_key k = PStr s →
            dict_get (dict_update valid0 updates) k = dict_get valid0 o).
  { intros i s o k Hs Ho Hk.
    destruct (Hf i s o Hs Ho) as (j & v & o' & Hfs & Hget & _).
    rewrite Hget, (dict_get_key _ k (PStr s)) by done.
    apply dict_update_lookup_NoDup.
    - rewrite Hkeys. apply NoDup_fmap_2; [by intros ?? [=]|done].
    - destruct (Forall2_lookup_l _ _ _ i s Hup Hs) as (u & Hu & Hfu).
      rewrite Hfs in Hfu. injection Hfu as <-.
      by eapply list_elem_of_lookup_2. }
  (* and under any other key *)
  assert (Hother : ∀ k, (∀ v, v ∈ values → py_key k ≠ PStr v) →
            dict_get (dict_update valid0 updates) k = dict_get valid0 k).
  { intros k Hk. apply dict_update_notin.
    apply Forall_forall. intros [k0 w] Hin Hk0. simpl in Hk0.
    assert (Hin' : py_key k0 ∈ (λ kv : PyVal * PyVal, py_key kv.1)
                                <$> updates).
    { apply list_elem_of_fmap. by exists (k0, w). }
    rewrite Hkeys, Hk0 in Hin'.
    apply list_elem_of_fmap in Hin' as (s & Hs & Hin'). by destruct (Hk s). }
  assert (Hcases : ∀ k, (∃ i s, values !! i = Some s ∧ py_key k = PStr s)
                        ∨ (∀ v, v ∈ values → py_key k ≠ PStr v)).
  { intros k. destruct (decide (py_key k ∈ PStr <$> values)) as [Hin|Hnot].
    - left. apply list_elem_of_fmap in Hin
        as (s & Hs & [i Hi]%list_elem_of_lookup_1). eauto.
    - right. intros v Hv Heq. apply Hnot. rewrite Heq.
      by apply list_elem_of_fmap_2. }
  do 2 eexists. split; [reflexivity|].
  split; [by apply object0_lookup|].
  split; [by apply object0_lookup_None|].
  split; [|split; [|split]].
  - intros Hident Hmembers o [i Ho]%list_elem_of_lookup_1.
    assert (Hvalid0 : ∃ j v, dict_get valid0 o = Some (PStr v)
                             ∧ objects !! j = Some o ∧ values !! j = Some v).
    { destruct (valid0_lookup values objects Hlen i o Ho)
        as (j & v & o' & Hget & Hoj & Hvj & Hkey).
      fold valid0 in Hget.
      assert (o' = o) as ->.
      { apply Hident; [by eapply list_elem_of_lookup_2..|done]. }
      eauto. }
    destruct (Hcases o) as [(k & s & Hs & Hk)|Hnot].
    + rewrite (Hlabel k s o o Hs); [done| |done].
      exact (Hmembers i k s o Ho Hk Hs).
    + by rewrite Hother.
  - intros k Hk Hnot. rewrite Hother by done.
    by apply valid0_lookup_None.
  - intros k Hk.
    assert (Hvalid0 : ∀ i o, objects !! i = Some o →
              ∃ v, v ∈ values ∧ dict_get valid0 o = Some (PStr v)).
    { intros i o Ho.
      destruct (valid0_lookup values objects Hlen i o Ho)
        as (j & v & o' & Hget & Hoj & Hvj & Hkey).
      exists v. split; [by eapply list_elem_of_lookup_2|done]. }
    destruct (Hcases k) as [(i & s & Hs & Hks)|Hnot].
    + destruct (Hobj i s Hs) as [o Ho].
      rewrite (Hlabel i s o k Hs Ho Hks). by apply (Hvalid0 i).
    + rewrite Hother by done.
      destruct Hk as [Hk|Hk].
      * apply list_elem_of_fmap in Hk
          as (o & Hko & [i Ho]%list_elem_of_lookup_1).
        rewrite (dict_get_key _ k o) by done. by apply (Hvalid0 i).
      * apply list_elem_of_fmap in Hk as (s & Hks & Hs).
        by destruct (Hnot s).
  - intros Hident Hmembers i s o Hs Ho.
    rewrite (Hlabel i s o (PStr s) Hs Ho eq_refl).
    destruct (Hcases o) as [(k & s' & Hs' & Hk)|Hnot].
    + symmetry. apply (Hlabel k s'); [done| |done].
      exact (Hmembers i k s' o Ho Hk Hs').
    + by rewrite Hother.
Qed.

Lemma dict_get_set_None d k :
  dict_get (dict_set d PNone PNone) k
  = if decide (k = PNone) then Some PNone else dict_get d k.
Proof.
  rewrite dict_get_set. destruct (decide (k = PNone)) as [->|Hk].
  - by rewrite decide_True.
  - rewrite decide_False; [done|]. simpl. intros Heq. apply Hk.
    by apply py_key_PNone.
Qed.

(** What [_parse_into_values] returns: host objects that are the labels
    themselves, or the members of the enumerated class; [None] is none
    of them. *)
Lemma parse_into_values_objects enums kw cls values objects :
  Enum._parse_into_values enums kw = (cls, values, objects) →
  (∀ o, o ∈ objects → o ≠ PNone)
  ∧ (objects = PStr <$> values
     ∨ ∃ members, objects = Enum.member_object <$> members).
Proof.
  unfold Enum._parse_into_values.
  destruct (match Enum.kw__enums kw with
            | Some e => if Enum.not_enums enums then e else enums
            | None => enums
            end) as [labels|enum_class]; intros [= <- <- <-].
  - split; [|by left].
    by intros o (s & -> & _)%list_elem_of_fmap.
  - split; [|right; eauto].
    intros o (m & -> & _)%list_elem_of_fmap. unfold Enum.member_object.
    by destruct (Enum.member_mixin m).
Qed.

(** String labels are their own host objects. *)
Lemma labels_keyed (values : list string) :
  keyed_by_identity (PStr <$> values)
  ∧ labels_are_members values (PStr <$> values).
Proof.
  split.
  - intros o o' (s & -> & _)%list_elem_of_fmap (s' & -> & _)%list_elem_of_fmap.
    done.
  - intros i k s o Hi Hkey Hk.
    apply list_lookup_fmap_Some in Hi as (s' & -> & _).
    injection Hkey as ->. by apply list_lookup_fmap_Some_2 with (f := PStr).
Qed.

(** The members of a class without a mix-in type are told apart by
    identity, and none of them has the key of a label. *)
Lemma plain_members_keyed (values : list string)
    (members : list Enum.Member) :
  Forall (λ m, Enum.member_mixin m = Enum.NoMixIn) members →
  keyed_by_identity (Enum.member_object <$> members)
  ∧ labels_are_members values (Enum.member_object <$> members).
Proof.
  intros Hplain.
  assert (Hobj : ∀ o, o ∈ Enum.member_object <$> members → ∃ id, o = PObj id).
  { intros o (m & -> & Hm)%list_elem_of_fmap.
    rewrite Forall_forall in Hplain. unfold Enum.member_object.
    rewrite (Hplain m Hm). eauto. }
  split.
  - intros o o' (id & ->)%Hobj (id' & ->)%Hobj. done.
  - intros i k s o Hi%list_elem_of_lookup_2. by apply Hobj in Hi as [? ->].
Qed.

Lemma enum_init_inv enums kw e :
  Enum._enum_init enums kw = Ok e →
  ∃ vl ol,
    Enum._setup_for_values (Enum._parse_into_values enums kw).1.2
      (Enum._parse_into_values enums kw).2
    = Ok (Enum.enums e, vl, ol)
    ∧ Enum._valid_lookup e = dict_set vl PNone PNone
    ∧ Enum._object_lookup e = dict_set ol PNone PNone
    ∧ Enum.validate_strings e = Enum.kw_validate_strings kw
    ∧ Enum.name e
      = match Enum.kw_name kw with
        | Some n => Some n
        | None => (λ c, Enum.lower (Enum.__name__ c))
                    <$> (Enum._parse_into_values enums kw).1.1
        end.
Proof.
  unfold Enum._enum_init.
  destruct (Enum._parse_into_values enums kw) as [[cls values] objects].
  simpl.
  destruct (Enum._setup_for_values values objects) as [[[en vl] ol]|];
    simpl; [|done].
  match goal with
  | |- (?m ≫= _) = _ → _ => destruct m as [len|]; simpl; [|done]
  end.
  intros [= <-]. simpl. by exists vl, ol.
Qed.

(** The lookups of an [Enum] that [_enum_init] has built from distinct
    labels, one label for each host object. *)
Lemma enum_init_lookups enums kw e cls values objects :
  Enum._enum_init enums kw = Ok e →
  Enum._parse_into_values enums kw = (cls, values, objects) →
  length values = length objects →
  NoDup values →
  Enum.enums e = values
  ∧ (keyed_by_identity objects → labels_are_members values objects →
     ∀ o, o ∈ objects →
          ∃ j v, dict_get (Enum._valid_lookup e) o = Some (PStr v)
                 ∧ objects !! j = Some o ∧ values !! j = Some v)
  ∧ (∀ k, k ≠ PNone → py_key k ∉ py_key <$> objects →
          (∀ v, v ∈ values → py_key k ≠ PStr v) →
          dict_get (Enum._valid_lookup e) k = None)
  ∧ (∀ i v o, values !! i = Some v → objects !! i = Some o →
              dict_get (Enum._object_lookup e) (PStr v) = Some o)
  ∧ (∀ k, k ≠ PNone → (∀ v, v ∈ values → py_key k ≠ PStr v) →
          dict_get (Enum._object_lookup e) k = None)
  ∧ (∀ k, py_key k ∈ py_key <$> objects ∨ py_key k ∈ PStr <$> values →
          ∃ v, v ∈ values
               ∧ dict_get (Enum._valid_lookup e) k = Some (PStr v))
  ∧ (keyed_by_identity objects → labels_are_members values objects →
     ∀ i s o, values !! i = Some s → objects !! i = Some o →
              dict_get (Enum._valid_lookup e) (PStr s)
              = dict_get (Enum._valid_lookup e) o).
Proof.
  intros Hinit Hparse Hlen Hnodup.
  destruct (parse_into_values_objects _ _ _ _ _ Hparse) as (Hobjs & _).
  destruct (enum_init_inv _ _ _ Hinit) as (vl & ol & Hsetup & Hvl & Hol & _).
  rewrite Hparse in Hsetup. simpl in Hsetup.
  destruct (setup_for_values_spec values objects Hlen Hnodup)
    as (vl' & ol' & Hsetup' & Hol1 & Hol2 & Hvl1 & Hvl2 & Hvl3 & Hvl4).
  rewrite Hsetup' in Hsetup. injection Hsetup as <- <- <-.
  rewrite Hvl, Hol. split; [done|].
  split; [|split; [|split; [|split; [|split]]]].
  - intros Hident Hmembers o Ho. rewrite dict_get_set_None.
    rewrite decide_False by (by apply Hobjs). by apply Hvl1.
  - intros k Hk ??. rewrite dict_get_set_None, decide_False by done.
    by apply Hvl2.
  - intros i v o ??. rewrite dict_get_set_None, decide_False by done.
    by eapply Hol1.
  - intros k Hk ?. rewrite dict_get_set_None, decide_False by done.
    by apply Hol2.
  - intros k Hk. rewrite dict_get_set_None, decide_False; [by apply Hvl3|].
    intros ->. destruct Hk as [Hk|Hk].
    + apply list_elem_of_fmap in Hk as (o & Hko & Ho).
      symmetry in Hko. apply (proj1 (py_key_PNone o)) in Hko.
      by apply (Hobjs o).
    + by apply list_elem_of_fmap in Hk as (s & [=] & _).
  - intros Hident Hmembers i s o Hs Ho.
    rewrite !dict_get_set_None, !decide_False; [by eapply Hvl4|..|done].
    apply Hobjs. by eapply list_elem_of_lookup_2.
Qed.

Lemma max_len_ge (l : list string) (s : string) :
  s ∈ l → Enum.str_len s ≤ Enum.max_len l.
Proof.
  unfold Enum.max_len. induction l as [|x l IH]; [by intros ?%elem_of_nil|].
  intros [->|Hs]%elem_of_cons; simpl; [lia|].
  specialize (IH Hs). lia.
Qed.

Lemma max_len_nonempty (l : list string) :
  match l with [] => 0 | _ :: _ => Enum.max_len l end = Enum.max_len l.
Proof. by destruct l. Qed.

Lemma setup_for_values_total (values : list string) (objects : list PyVal) :
  length values = length objects →
  ∃ vl ol, Enum._setup_for_values values objects = Ok (values, vl, ol).
Proof.
  intros Hlen. unfold Enum._setup_for_values.
  set (valid0 := py_dict (zip (reverse objects) (PStr <$> reverse values))).
  set (object0 := py_dict (zip (PStr <$> values) objects)).
  set (f := λ value : string,
         o ← getitem object0 (PStr value);
         v ← getitem valid0 o;
         Ok (PStr value, v)).
  destruct (mapM_result_total f values) as [updates ->]; [|simpl; eauto].
  intros s [k Hs]%list_elem_of_lookup_1.
  destruct (lookup_lt_is_Some_2 objects k) as [o Ho].
  { rewrite <-Hlen. by eapply lookup_lt_Some. }
  destruct (dict_update_is_Some ∅ (zip (PStr <$> values) objects) (PStr s) o)
    as [o' Ho'].
  { apply object_pairs. eauto. }
  fold (py_dict (zip (PStr <$> values) objects)) in Ho'. fold object0 in Ho'.
  unfold f, getitem. rewrite Ho'. simpl.
  assert (Hin : o' ∈ objects).
  { apply dict_update_lookup_Some in Ho' as [(k0 & Hin & _)|Ho'];
      [|by rewrite dict_get_empty in Ho'].
    apply object_pairs in Hin as (i & v & _ & Hi & _).
    by eapply list_elem_of_lookup_2. }
  apply list_elem_of_lookup_1 in Hin as [i Hi].
  destruct (valid0_lookup values objects Hlen i o' Hi)
    as (j & v & o'' & Hget & _).
  fold valid0 in Hget. rewrite Hget. simpl. eauto.
Qed.

Lemma parse_into_values_length enums kw cls values objects :
  Enum._parse_into_values enums kw = (cls, values, objects) →
  Enum.kw_values_callable kw = None →
  length values = length objects.
Proof.
  intros Hparse Hcall. unfold Enum._parse_into_values in Hparse.
  rewrite Hcall in Hparse.
  destruct (match Enum.kw__enums kw with
            | Some e => if Enum.not_enums enums then e else enums
            | None => enums
            end) as [labels|enum_class]; injection Hparse as <- <- <-.
  - by rewrite length_fmap.
  - by rewrite !length_fmap.
Qed.

(** [_enum_init] returns whenever there are as many labels as members
    and no explicit length is refused. *)
Lemma enum_init_total enums kw cls values objects :
  Enum._parse_into_values enums kw = (cls, values, objects) →
  length values = length objects →
  (∀ n, Enum.kw_length kw = Some n →
        Enum.kw_native_enum kw = true
        ∨ Enum.kw__disable_warnings kw = true
        ∨ Enum.max_len values ≤ n) →
  ∃ e, Enum._enum_init enums kw = Ok e
       ∧ Enum.enums e = values
       ∧ Enum.native_enum e = Enum.kw_native_enum kw
       ∧ Enum.create_constraint e = Enum.kw_create_constraint kw
       ∧ Enum.validate_strings e = Enum.kw_validate_strings kw.
Proof.
  intros Hparse Hlen Hfits.
  destruct (setup_for_values_total values objects Hlen) as (vl & ol & Hs).
  unfold Enum._enum_init. rewrite Hparse, Hs. simpl.
  rewrite max_len_nonempty.
  destruct (Enum.kw_length kw) as [n|]; simpl; [|eauto 10].
  destruct (Hfits n eq_refl) as [-> | [-> | Hn]]; simpl; [eauto 10| |].
  - destruct (Enum.kw_native_enum kw); simpl; eauto 10.
  - destruct (Enum.kw_native_enum kw); simpl; [eauto 10|].
    rewrite (proj2 (Z.ltb_ge n (Enum.max_len values))) by done.
    rewrite andb_false_r. simpl. eauto 10.
Qed.

(** ** Enum: values outside the lookup *)

Lemma Enum_bind_processor_eq self dialect value :
  Enum.bind_processor self dialect value = Enum._db_value_for_elem self value.
Proof.
  unfold Enum.bind_processor. simpl.
  by destruct (Enum._db_value_for_elem self value).
Qed.

Lemma Enum_result_processor_eq self dialect coltype value :
  Enum.result_processor self dialect coltype value
  = Enum._object_value_for_elem self value.
Proof. done. Qed.

Lemma Enum_literal_processor_eq self dialect value :
  Enum.literal_processor self dialect value
  = value' ← Enum._db_value_for_elem self value;
    match String_.literal_processor dialect with
    | Some render => render value'
    | None => Ok value'
    end.
Proof. done. Qed.

(** C3.  For a host value that is not in the lookup of the enum: a raw
    string, when [validate_strings] is off, is returned unchanged by
    [_db_value_for_elem], hence by the bind processor, and goes unchanged
    into the string literal processor; in every other case a [LookupError]
    is raised, which carries the value, the name of the enum and its
    values. *)
Theorem Enum_value_outside_lookup (self : Enum.t) (dialect : Dialect.t)
    (elem : PyVal) :
  dict_get (Enum._valid_lookup self) elem = None →
  (Enum.validate_strings self = false → isinstance_str elem = true →
   Enum._db_value_for_elem self elem = Ok elem
   ∧ Enum.bind_processor self dialect elem = Ok elem
   ∧ Enum.literal_processor self dialect elem
     = match String_.literal_processor dialect with
       | Some render => render elem
       | None => Ok elem
       end)
  ∧ (Enum.validate_strings self = true ∨ isinstance_str elem = false →
     Enum._db_value_for_elem self elem
     = Raise (LookupError elem (Enum.name self) (Enum.enums self))
     ∧ Enum.bind_processor self dialect elem
       = Raise (LookupError elem (Enum.name self) (Enum.enums self))
     ∧ Enum.literal_processor self dialect elem
       = Raise (LookupError elem (Enum.name self) (Enum.enums self))).
Proof.
  intros Hmiss.
  rewrite Enum_bind_processor_eq, Enum_literal_processor_eq.
  unfold Enum._db_value_for_elem. rewrite Hmiss. split.
  - intros -> ->. by simpl.
  - intros [-> | ->]; simpl; [done|].
    by rewrite andb_false_r.
Qed.

Lemma Enum_value_outside_lookup_witness :
  match Enum._enum_init (Enum.Labels EnumExamples.colors)
          EnumExamples.strict_kw with
  | Ok e =>
      Enum.bind_processor e Examples.sqlite (PStr "purple")
      = Raise (LookupError (PStr "purple") (Some "color")
                 ["red"; "green"; "blue"])
  | Raise _ => False
  end.
Proof.
  destruct (enum_init_total (Enum.Labels EnumExamples.colors)
              EnumExamples.strict_kw None EnumExamples.colors
              (PStr <$> EnumExamples.colors) eq_refl eq_refl)
    as (e & He & Hen & _ & _ & Hval).
  { intros n [=]. }
  rewrite He.
  destruct (enum_init_lookups _ _ _ _ _ _ He eq_refl eq_refl)
    as (_ & _ & Hlookup & _).
  { apply (bool_decide_unpack _). by vm_compute. }
  destruct (enum_init_inv _ _ _ He) as (_ & _ & _ & _ & _ & _ & Hname).
  simpl in Hname.
  assert (Hmiss : dict_get (Enum._valid_lookup e) (PStr "purple") = None).
  { apply Hlookup; [done| |].
    - simpl. intros Hin. elem_of_concrete.
    - intros s Hin [= <-]. unfold EnumExamples.colors in Hin.
      elem_of_concrete. }
  destruct (Enum_value_outside_lookup e Examples.sqlite (PStr "purple") Hmiss)
    as [_ Hstrict].
  destruct (Hstrict (or_introl Hval)) as (_ & Hbind & _).
  by rewrite Hbind, Hname, Hen.
Defined.

(** The scenario of the specification, for any keyword arguments with
    [validate_strings=True]: binding ["red"] yields ["red"], binding
    ["purple"] raises the [LookupError] that lists red, green, blue. *)
Lemma Enum_colors_strict_binding (kw : Enum.Kw) (e : Enum.t)
    (dialect : Dialect.t) :
  Enum.kw__enums kw = None →
  Enum.kw_validate_strings kw = true →
  Enum._enum_init (Enum.Labels ["red"; "green"; "blue"]) kw = Ok e →
  Enum.bind_processor e dialect (PStr "red") = Ok (PStr "red")
  ∧ Enum.bind_processor e dialect (PStr "purple")
    = Raise (LookupError (PStr "purple") (Enum.kw_name kw)
               ["red"; "green"; "blue"]).
Proof.
  intros Henums Hstrict Hinit.
  assert (Hparse : Enum._parse_into_values
                     (Enum.Labels ["red"; "green"; "blue"]) kw
                   = (None, ["red"; "green"; "blue"],
                      PStr <$> ["red"; "green"; "blue"])).
  { unfold Enum._parse_into_values. by rewrite Henums. }
  destruct (enum_init_lookups _ _ _ _ _ _ Hinit Hparse eq_refl)
    as (Hen & Hvalid & Hmiss & _).
  { apply (bool_decide_unpack _). by vm_compute. }
  destruct (enum_init_inv _ _ _ Hinit) as (_ & _ & _ & _ & _ & Hval & Hname).
  rewrite Hparse in Hname. simpl in Hname.
  destruct (labels_keyed ["red"; "green"; "blue"]) as [Hident Hmembers].
  rewrite !Enum_bind_processor_eq. split.
  - destruct (Hvalid Hident Hmembers (PStr "red"))
      as (j & v & Hget & Hj & Hv).
    { apply list_elem_of_fmap. exists "red". split; [done|]. by left. }
    unfold Enum._db_value_for_elem. rewrite Hget. do 2 f_equal.
    apply list_lookup_fmap_Some in Hj as (v' & [= <-] & Hv'). congruence.
  - unfold Enum._db_value_for_elem. rewrite Hmiss, Hval, Hstrict, Hen; simpl.
    + rewrite Hname. by destruct (Enum.kw_name kw).
    + done.
    + intros Hin. elem_of_concrete.
    + intros s Hin [= <-]. elem_of_concrete.
Qed.

(** ** Enum: NULL *)

(** C10, as the specification states it, fails on the code: [None] does
    not pass the literal processor of an [Enum] untouched.  The lookup
    returns [None] for it, without a [LookupError], and hands it to the
    string literal processor, which calls [replace] on it: for
    [Enum("red", "green", "blue")] the literal processor raises
    [AttributeError] at [None]. *)
Lemma None_untouched_spec_fails :
  match Enum._enum_init (Enum.Labels EnumExamples.colors)
          EnumExamples.strict_kw with
  | Ok e =>
      Enum.literal_processor e Examples.sqlite PNone
      = Raise (AttributeError "replace")
      ∧ ¬ None_untouched_spec e Examples.sqlite PNone
  | Raise _ => False
  end.
Proof.
  vm_compute. split; [done|]. intros (_ & H & _). discriminate H.
Qed.

(** C10, amended.  Whatever [validate_strings] is, [_enum_init] stores
    [None] under [None] in both lookups: [_db_value_for_elem(None)] and
    [_object_value_for_elem(None)] return [None] and raise no
    [LookupError], so the bind and the result processor return [None] for
    [None], and so does a bind followed by a result conversion.  In the
    literal processor too the lookup returns [None] and raises no
    [LookupError]; [None] then goes to the string literal processor,
    which raises [AttributeError]. *)
Theorem Enum_None_roundtrip (enums : Enum.EnumsArg) (kw : Enum.Kw)
    (e : Enum.t) (dialect : Dialect.t) (coltype : PyVal) :
  Enum._enum_init enums kw = Ok e →
  dict_get (Enum._valid_lookup e) PNone = Some PNone
  ∧ dict_get (Enum._object_lookup e) PNone = Some PNone
  ∧ Enum._db_value_for_elem e PNone = Ok PNone
  ∧ Enum._object_value_for_elem e PNone = Ok PNone
  ∧ Enum.bind_processor e dialect PNone = Ok PNone
  ∧ Enum.result_processor e dialect coltype PNone = Ok PNone
  ∧ (Enum.bind_processor e dialect PNone
       ≫= Enum.result_processor e dialect coltype) = Ok PNone
  ∧ Enum.literal_processor e dialect PNone
    = match String_.literal_processor dialect with
      | Some render => render PNone
      | None => Ok PNone
      end
  ∧ Enum.literal_processor e dialect PNone = Raise (AttributeError "replace")
  ∧ ∀ elem enum_name values,
      Enum.literal_processor e dialect PNone
      ≠ Raise (LookupError elem enum_name values).
Proof.
  intros Hinit.
  destruct (enum_init_inv _ _ _ Hinit) as (vl & ol & _ & Hvl & Hol & _).
  assert (Hvalid : dict_get (Enum._valid_lookup e) PNone = Some PNone).
  { rewrite Hvl, dict_get_set_None. by rewrite decide_True. }
  assert (Hobject : dict_get (Enum._object_lookup e) PNone = Some PNone).
  { rewrite Hol, dict_get_set_None. by rewrite decide_True. }
  assert (Hdb : Enum._db_value_for_elem e PNone = Ok PNone).
  { unfold Enum._db_value_for_elem. by rewrite Hvalid. }
  assert (Hobj : Enum._object_value_for_elem e PNone = Ok PNone).
  { unfold Enum._object_value_for_elem. by rewrite Hobject. }
  rewrite Enum_bind_processor_eq, Enum_literal_processor_eq, Hdb.
  repeat split; try done.
Qed.

Lemma Enum_None_roundtrip_witness :
  match Enum._enum_init (Enum.Labels EnumExamples.colors)
          EnumExamples.strict_kw with
  | Ok e =>
      (Enum.bind_processor e Examples.sqlite PNone
         ≫= Enum.result_processor e Examples.sqlite PNone) = Ok PNone
  | Raise _ => False
  end.
Proof.
  destruct (enum_init_total (Enum.Labels EnumExamples.colors)
              EnumExamples.strict_kw None EnumExamples.colors
              (PStr <$> EnumExamples.colors) eq_refl eq_refl)
    as (e & He & _).
  { intros n [=]. }
  rewrite He.
  destruct (Enum_None_roundtrip _ _ e Examples.sqlite PNone He)
    as (_ & _ & _ & _ & _ & _ & H & _).
  exact H.
Defined.

(** Rendering [None] as a literal is not a matter of the lookup: the
    string literal processor has no [replace] on [None]. *)
Example Enum_literal_None :
  match Enum._enum_init (Enum.Labels EnumExamples.colors)
          EnumExamples.strict_kw with
  | Ok e =>
      Enum.literal_processor e Examples.sqlite PNone
      = Raise (AttributeError "replace")
      ∧ Enum.literal_processor e Examples.sqlite (PStr "red")
        = Ok (PStr "'red'")
  | Raise _ => False
  end.
Proof. vm_compute. by split. Qed.

(** ** Enum: the round trip *)

(** X17.  For an [Enum] built from distinct labels, one for each host
    object, whose host objects are told apart by their keys and are found
    under the key of no label but their own (string labels, and the
    members of a class without a mix-in type, are such): converting a host
    object to its database string and that string back gives the object
    again; and the inverse lookup of a database value that has the key of
    no label (nor is NULL, which both lookups hold) raises the
    [LookupError] that carries the value, the name of the enum and its
    values. *)
Lemma Enum_roundtrip (enums : Enum.EnumsArg) (kw : Enum.Kw) (e : Enum.t)
    (cls : option Enum.EnumClass) (values : list string)
    (objects : list PyVal) :
  Enum._parse_into_values enums kw = (cls, values, objects) →
  length values = length objects →
  NoDup values →
  keyed_by_identity objects →
  labels_are_members values objects →
  Enum._enum_init enums kw = Ok e →
  (∀ x, x ∈ objects →
        ∃ s, s ∈ values
             ∧ Enum._db_value_for_elem e x = Ok (PStr s)
             ∧ Enum._object_value_for_elem e (PStr s) = Ok x)
  ∧ (∀ elem, elem ≠ PNone → (∀ s, s ∈ values → py_key elem ≠ PStr s) →
             Enum._object_value_for_elem e elem
             = Raise (LookupError elem (Enum.name e) values))
  ∧ Enum.enums e = values.
Proof.
  intros Hparse Hlen Hnodup Hident Hmembers Hinit.
  destruct (enum_init_lookups _ _ _ _ _ _ Hinit Hparse Hlen Hnodup)
    as (Hen & Hvalid & _ & Hobject & Hmiss & _).
  split; [|split; [|done]].
  - intros x Hx.
    destruct (Hvalid Hident Hmembers x Hx) as (j & s & Hget & Hj & Hs).
    exists s. split; [by eapply list_elem_of_lookup_2|].
    unfold Enum._db_value_for_elem, Enum._object_value_for_elem.
    by rewrite Hget, (Hobject j s x Hs Hj).
  - intros elem Hnone Hlabel. unfold Enum._object_value_for_elem.
    by rewrite Hmiss, Hen.
Qed.

Lemma Enum_roundtrip_witness :
  match Enum._enum_init (Enum.PEP435 EnumExamples.Shade)
          EnumExamples.with_aliases with
  | Ok e =>
      (∃ s, Enum._db_value_for_elem e (PObj 1) = Ok (PStr s)
            ∧ Enum._object_value_for_elem e (PStr s) = Ok (PObj 1))
      ∧ Enum._object_value_for_elem e (PStr "grey")
        = Raise (LookupError (PStr "grey") (Some "shade")
                   ["dark"; "light"; "dim"])
  | Raise _ => False
  end.
Proof.
  destruct (enum_init_total (Enum.PEP435 EnumExamples.Shade)
              EnumExamples.with_aliases (Some EnumExamples.Shade)
              ["dark"; "light"; "dim"] [PObj 1; PObj 2; PObj 1]
              eq_refl eq_refl) as (e & He & _).
  { intros n [=]. }
  rewrite He.
  destruct (enum_init_inv _ _ _ He) as (_ & _ & _ & _ & _ & _ & Hname).
  simpl in Hname.
  destruct (plain_members_keyed ["dark"; "light"; "dim"]
              [EnumExamples.dark; EnumExamples.light; EnumExamples.dark])
    as [Hident Hmembers]; [by repeat constructor|].
  destruct (Enum_roundtrip (Enum.PEP435 EnumExamples.Shade)
              EnumExamples.with_aliases e (Some EnumExamples.Shade)
              ["dark"; "light"; "dim"] [PObj 1; PObj 2; PObj 1]
              eq_refl eq_refl) as (Hround & Hmiss & _).
  { apply (bool_decide_unpack _). by vm_compute. }
  { exact Hident. }
  { exact Hmembers. }
  { exact He. }
  split.
  - destruct (Hround (PObj 1)) as (s & _ & Hdb & Hobj); [by left|]. eauto.
  - rewrite Hmiss.
    + by rewrite Hname.
    + done.
    + intros s Hin [= <-]. elem_of_concrete.
Defined.

(** Without these conditions the round trip can fail.  In
    [class Swap(str, enum.Enum): a = "b"; b = "a"] the labels are distinct
    and there is one for each member, but the member [a] has the key of
    the label ["b"]: it is persisted as ["b"], which reads back as the
    member [b]. *)
Example Enum_str_mixin_swap :
  match Enum._enum_init (Enum.PEP435 EnumExamples.Swap)
          EnumExamples.with_aliases with
  | Ok e =>
      Enum.enums e = ["a"; "b"]
      ∧ Enum._db_value_for_elem e (PStrObj 3 "b") = Ok (PStr "b")
      ∧ Enum._object_value_for_elem e (PStr "b") = Ok (PStrObj 4 "a")
      ∧ Enum._db_value_for_elem e (PStr "a") = Ok (PStr "a")
  | Raise _ => False
  end.
Proof. vm_compute. by repeat split. Qed.

(** The first name of an aliased member is the one persisted. *)
Example Enum_alias_first_name :
  match Enum._enum_init (Enum.PEP435 EnumExamples.Shade)
          EnumExamples.with_aliases with
  | Ok e =>
      Enum._db_value_for_elem e (PObj 1) = Ok (PStr "dark")
      ∧ Enum._object_value_for_elem e (PStr "dim") = Ok (PObj 1)
      ∧ Enum._db_value_for_elem e (PStr "dim") = Ok (PStr "dark")
  | Raise _ => False
  end.
Proof. vm_compute. by repeat split. Qed.

(** C4.  The round trip of a member through its database string fails
    for an [Enum] that keeps the aliases of its class and takes its labels
    from [values_callable]: the callable gives one label per member, the
    class one object per name, and [_setup_for_values] pairs the two lists
    from their ends.  For [Tone], whose distinct labels are ["d"] and
    ["l"], the member [dark] is persisted as ["l"], which reads back as
    [light]; with the aliases omitted the same callable round-trips. *)
Theorem Enum_values_callable_with_aliases :
  Enum._parse_into_values (Enum.PEP435 EnumExamples.Tone)
    (EnumExamples.persist_values false)
  = (Some EnumExamples.Tone, ["d"; "l"], [PObj 1; PObj 2; PObj 1])
  ∧ match Enum._enum_init (Enum.PEP435 EnumExamples.Tone)
            (EnumExamples.persist_values false) with
    | Ok e =>
        Enum.enums e = ["d"; "l"]
        ∧ Enum._db_value_for_elem e (PObj 1) = Ok (PStr "l")
        ∧ Enum._object_value_for_elem e (PStr "l") = Ok (PObj 2)
        ∧ Enum._db_value_for_elem e (PObj 2) = Ok (PStr "d")
        ∧ Enum._object_value_for_elem e (PStr "d") = Ok (PObj 1)
    | Raise _ => False
    end
  ∧ match Enum._enum_init (Enum.PEP435 EnumExamples.Tone)
            (EnumExamples.persist_values true) with
    | Ok e =>
        Enum._db_value_for_elem e (PObj 1) = Ok (PStr "d")
        ∧ Enum._object_value_for_elem e (PStr "d") = Ok (PObj 1)
        ∧ Enum._db_value_for_elem e (PObj 2) = Ok (PStr "l")
        ∧ Enum._object_value_for_elem e (PStr "l") = Ok (PObj 2)
    | Raise _ => False
    end.
Proof. vm_compute. by repeat split. Qed.

(** * Further properties *)

(** ** Enum: construction *)

(** X1.  Constructing an [Enum] succeeds whenever [_parse_into_values]
    yields as many labels as members, which it does unless
    [values_callable] is given, and no explicit [length] is refused: in
    particular the lookups of [_setup_for_values] raise no [KeyError]
    then, also for labels that repeat.  The enum holds the labels in their
    order. *)
Theorem Enum_init_succeeds (enums : Enum.EnumsArg) (kw : Enum.Kw)
    (cls : option Enum.EnumClass) (values : list string)
    (objects : list PyVal) :
  Enum._parse_into_values enums kw = (cls, values, objects) →
  Enum.kw_values_callable kw = None ∨ length values = length objects →
  (∀ n, Enum.kw_length kw = Some n →
        Enum.kw_native_enum kw = true
        ∨ Enum.kw__disable_warnings kw = true
        ∨ Enum.max_len values ≤ n) →
  ∃ e, Enum._enum_init enums kw = Ok e
       ∧ Enum.enums e = values
       ∧ length values = length objects
       ∧ Enum.enum_class e = cls.
Proof.
  intros Hparse Hlen Hfits.
  assert (Hlen' : length values = length objects).
  { destruct Hlen as [Hcall|Hlen]; [|done].
    by eapply parse_into_values_length. }
  destruct (enum_init_total _ _ _ _ _ Hparse Hlen' Hfits)
    as (e & He & Hen & _).
  exists e. split; [done|]. split; [done|]. split; [done|].
  unfold Enum._enum_init in He. rewrite Hparse in He.
  destruct (Enum._setup_for_values values objects) as [[[en vl] ol]|];
    simpl in He; [|done].
  match type of He with
  | (?m ≫= _) = _ => destruct m; simpl in He; [|done]
  end.
  by injection He as <-.
Qed.

Lemma Enum_init_succeeds_witness :
  ∃ e, Enum._enum_init (Enum.Labels ["red"; "green"; "red"])
         EnumExamples.strict_kw = Ok e
       ∧ Enum.enums e = ["red"; "green"; "red"].
Proof.
  destruct (Enum_init_succeeds (Enum.Labels ["red"; "green"; "red"])
              EnumExamples.strict_kw None ["red"; "green"; "red"]
              (PStr <$> ["red"; "green"; "red"]) eq_refl (or_introl eq_refl))
    as (e & He & Hen & _).
  { intros n [=]. }
  by exists e.
Defined.

(** X2.  The length of an [Enum]: [_default_length] is the length of the
    longest label, 0 without labels; [length] is the explicit length when
    one is given and [native_enum] is off, the default length otherwise;
    unless [_disable_warnings] is set every label fits the length.  For
    a non-native enum an explicit length shorter than the longest label
    makes the constructor raise [ValueError]. *)
Theorem Enum_length_bounds (enums : Enum.EnumsArg) (kw : Enum.Kw) :
  (∀ e, Enum._enum_init enums kw = Ok e →
     Enum._default_length e = Enum.max_len (Enum.enums e)
     ∧ (∀ s, s ∈ Enum.enums e → Enum.str_len s ≤ Enum._default_length e)
     ∧ Enum.length e
       = match Enum.kw_length kw with
         | Some n => if Enum.kw_native_enum kw then Enum._default_length e
                     else n
         | None => Enum._default_length e
         end
     ∧ (Enum.kw__disable_warnings kw = false →
        ∀ s, s ∈ Enum.enums e → Enum.str_len s ≤ Enum.length e))
  ∧ (∀ labels vl ol n,
       Enum._setup_for_values (Enum._parse_into_values enums kw).1.2
         (Enum._parse_into_values enums kw).2 = Ok (labels, vl, ol) →
       Enum.kw_native_enum kw = false →
       Enum.kw__disable_warnings kw = false →
       Enum.kw_length kw = Some n →
       n < Enum.max_len labels →
       Enum._enum_init enums kw
       = Raise (ValueError [PInt n; PInt (Enum.max_len labels)])).
Proof.
  split.
  - intros e. unfold Enum._enum_init.
    destruct (Enum._parse_into_values enums kw) as [[cls values] objects].
    destruct (Enum._setup_for_values values objects) as [[[en vl] ol]|];
      simpl; [|done].
    rewrite max_len_nonempty.
    destruct (Enum.kw_length kw) as [n|]; simpl.
    + destruct (Enum.kw_native_enum kw); simpl.
      * intros [= <-]. simpl. repeat split; auto using max_len_ge.
      * destruct (Enum.kw__disable_warnings kw); simpl.
        -- intros [= <-]. simpl. repeat split; auto using max_len_ge. done.
        -- destruct (n <? Enum.max_len en) eqn:Hn; simpl; [done|].
           intros [= <-]. simpl. apply Z.ltb_ge in Hn.
           repeat split; auto using max_len_ge.
           intros _ s Hs. pose proof (max_len_ge en s Hs). lia.
    + intros [= <-]. simpl. repeat split; auto using max_len_ge.
  - intros labels vl ol n Hsetup Hnative Hwarn Hlen Hn.
    unfold Enum._enum_init.
    destruct (Enum._parse_into_values enums kw) as [[cls values] objects].
    simpl in Hsetup. rewrite Hsetup, Hnative, Hwarn, Hlen. simpl.
    rewrite max_len_nonempty. by rewrite (proj2 (Z.ltb_lt _ _) Hn).
Qed.

(** ** Enum: labels as bind values *)

(** X3.  For an [Enum] built from distinct labels, one for each host
    object, whose host objects are told apart by their keys and are found
    under the key of no label but their own (string labels, and the
    members of a class without a mix-in type, are such): the bind
    processor takes the label of a member for the member, that is, binding
    the label string gives the database value that binding the member
    gives; when no member has two names the label is bound as itself. *)
Theorem Enum_label_binds_as_member (enums : Enum.EnumsArg) (kw : Enum.Kw)
    (e : Enum.t) (cls : option Enum.EnumClass) (values : list string)
    (objects : list PyVal) (dialect : Dialect.t) :
  Enum._parse_into_values enums kw = (cls, values, objects) →
  length values = length objects →
  NoDup values →
  keyed_by_identity objects →
  labels_are_members values objects →
  Enum._enum_init enums kw = Ok e →
  ∀ k s o, values !! k = Some s → objects !! k = Some o →
    (∃ v, v ∈ values
          ∧ Enum.bind_processor e dialect o = Ok (PStr v)
          ∧ Enum.bind_processor e dialect (PStr s) = Ok (PStr v))
    ∧ (NoDup objects →
       Enum.bind_processor e dialect (PStr s) = Ok (PStr s)).
Proof.
  intros Hparse Hlen Hnodup Hident Hmembers Hinit k s o Hs Ho.
  destruct (enum_init_lookups _ _ _ _ _ _ Hinit Hparse Hlen Hnodup)
    as (_ & Hvalid & _ & _ & _ & _ & Hlabel).
  destruct (Hvalid Hident Hmembers o) as (j & v & Hget & Hj & Hv).
  { by eapply list_elem_of_lookup_2. }
  rewrite !Enum_bind_processor_eq. unfold Enum._db_value_for_elem.
  rewrite (Hlabel Hident Hmembers k s o Hs Ho), Hget. split.
  - exists v. split; [by eapply list_elem_of_lookup_2|done].
  - intros Hnd. do 2 f_equal.
    assert (j = k) as -> by (by eapply NoDup_lookup). congruence.
Qed.

Lemma Enum_label_binds_as_member_witness :
  ∃ e v,
    Enum._enum_init (Enum.PEP435 EnumExamples.Shade)
      EnumExamples.with_aliases = Ok e
    ∧ Enum.bind_processor e Examples.sqlite (PObj 1) = Ok (PStr v)
    ∧ Enum.bind_processor e Examples.sqlite (PStr "dim") = Ok (PStr v).
Proof.
  assert (Hnodup : NoDup ["dark"; "light"; "dim"]).
  { apply (bool_decide_unpack _). by vm_compute. }
  destruct (enum_init_total (Enum.PEP435 EnumExamples.Shade)
              EnumExamples.with_aliases (Some EnumExamples.Shade)
              ["dark"; "light"; "dim"] [PObj 1; PObj 2; PObj 1]
              eq_refl eq_refl) as (e & He & _).
  { intros n [=]. }
  destruct (plain_members_keyed ["dark"; "light"; "dim"]
              [EnumExamples.dark; EnumExamples.light; EnumExamples.dark])
    as [Hident Hmembers]; [by repeat constructor|].
  destruct (Enum_label_binds_as_member (Enum.PEP435 EnumExamples.Shade)
              EnumExamples.with_aliases e (Some EnumExamples.Shade)
              ["dark"; "light"; "dim"] [PObj 1; PObj 2; PObj 1]
              Examples.sqlite eq_refl eq_refl Hnodup Hident Hmembers He
              2%nat "dim" (PObj 1) eq_refl eq_refl) as [(v & _ & H1 & H2) _].
  by exists e, v.
Defined.



(** ** Enum: the CHECK constraint *)

(** X5.  An [Enum] without [create_constraint] leaves the table as it
    is.  With it, [_set_table] attaches one constraint
    [CHECK (column IN (labels))], over the column coerced to a plain
    [String] and under the name of the enum, whose create rule holds for a
    backend exactly when the enum is the active implementation there and
    the enum is not native or the backend has no native enum: with
    [native_enum=True] on a backend with native enums no CHECK is
    emitted. *)
Theorem Enum_check_constraint (fresh : nat) (self : TypeEngine) (e : Enum.t)
    (column : Column.t) (table : schema.Table) (dialect : Dialect.t) :
  config self = EnumConfig e →
  (Enum.create_constraint e = false →
   EnumSchema._set_table fresh self column table = Ok table)
  ∧ (Enum.create_constraint e = true →
     ∃ c r,
       EnumSchema._set_table fresh self column table
       = Ok (schema.attach c table)
       ∧ schema.sqltext c
         = {| schema.in_column := Column.name column;
              schema.in_type :=
                Instance_ fresh Cls.String (StringConfig None None);
              schema.in_values := PStr <$> Enum.enums e |}
       ∧ schema.name c = Enum.name e
       ∧ SchemaType._is_impl_for_variant self dialect
           (SchemaType._variant_mapping_for_set_table column) = Ok r
       ∧ schema.emitted dialect [c]
         = Ok (if truthy r
                  && (negb (Enum.native_enum e)
                      || negb (Dialect.supports_native_enum dialect))
               then [c] else [])
       ∧ (Enum.native_enum e = true →
          Dialect.supports_native_enum dialect = true →
          schema.emitted dialect [c] = Ok [])).
Proof.
  intros Hcfg. unfold EnumSchema._set_table. rewrite Hcfg. split.
  - by intros ->.
  - intros ->. simpl.
    destruct (is_impl_for_variant_total self column dialect) as (r & Hr & _).
    eexists. exists r. split; [reflexivity|]. simpl.
    split; [done|]. split; [done|]. split; [done|].
    assert (Hrule : EnumSchema._should_create_constraint self dialect
              (SchemaType._variant_mapping_for_set_table column)
            = Ok (truthy r
                  && (negb (Enum.native_enum e)
                      || negb (Dialect.supports_native_enum dialect)))).
    { unfold EnumSchema._should_create_constraint. rewrite Hr, Hcfg. simpl.
      by destruct (truthy r). }
    rewrite Hrule. simpl. split.
    + by destruct (truthy r && _).
    + intros -> ->. simpl. by rewrite andb_false_r.
Qed.

Lemma Enum_check_constraint_witness :
  ∃ e c,
    Enum._enum_init (Enum.Labels EnumExamples.colors)
      FurtherExamples.checked_kw = Ok e
    ∧ EnumSchema._set_table 60 (Instance_ 61 Cls.Enum (EnumConfig e))
        {| Column.name := "color";
           Column.type := Instance_ 61 Cls.Enum (EnumConfig e);
           Column._variant_mapping := ∅ |}
        VariantExamples.empty_table
      = Ok (schema.attach c VariantExamples.empty_table)
    ∧ schema.in_values (schema.sqltext c) = PStr <$> EnumExamples.colors.
Proof.
  destruct (enum_init_total (Enum.Labels EnumExamples.colors)
              FurtherExamples.checked_kw None EnumExamples.colors
              (PStr <$> EnumExamples.colors) eq_refl eq_refl)
    as (e & He & Hen & _ & Hcreate & _).
  { intros n [=]. }
  destruct (Enum_check_constraint 60 (Instance_ 61 Cls.Enum (EnumConfig e)) e
              {| Column.name := "color";
                 Column.type := Instance_ 61 Cls.Enum (EnumConfig e);
                 Column._variant_mapping := ∅ |}
              VariantExamples.empty_table Examples.sqlite eq_refl)
    as [_ H].
  destruct (H Hcreate) as (c & r & Hset & Htext & _).
  exists e, c. split; [done|]. split; [done|]. by rewrite Htext, Hen.
Defined.

(** ** The string literal *)

Lemma str_replace_doubled (c : Ascii.ascii) (s : string) :
  doubled c (str_replace c (String c (String c "")) s).
Proof.
  induction s as [|a s IH]; simpl; [constructor|].
  destruct (Ascii.eqb_spec a c) as [->|Hne]; simpl; by constructor.
Qed.

Lemma str_replace_double_inj (c : Ascii.ascii) (s1 s2 : string) :
  str_replace c (String c (String c "")) s1
  = str_replace c (String c (String c "")) s2 →
  s1 = s2.
Proof.
  revert s2. induction s1 as [|a1 s1 IH]; intros [|a2 s2]; simpl; [done|..].
  - by destruct (Ascii.eqb a2 c).
  - by destruct (Ascii.eqb a1 c).
  - destruct (Ascii.eqb_spec a1 c) as [->|Hne1];
      destruct (Ascii.eqb_spec a2 c) as [->|Hne2]; simpl.
    + intros [= H]. by rewrite (IH _ H).
    + intros [= <- _]. done.
    + intros [= -> _]. done.
    + intros [= -> H]. by rewrite (IH _ H).
Qed.

Lemma doubled_other_char (c d : Ascii.ascii) (s : string) :
  c ≠ d → doubled c s → doubled c (str_replace d (String d (String d "")) s).
Proof.
  intros Hcd. induction 1 as [|a s Ha _ IH|s _ IH]; simpl.
  - constructor.
  - destruct (Ascii.eqb_spec a d) as [->|Hne]; simpl.
    + constructor; [done|]. by constructor.
    + by constructor.
  - destruct (Ascii.eqb_spec c d) as [->|_]; [done|]. simpl.
    by constructor.
Qed.

Lemma string_length_app (s t : string) :
  String.length (s +:+ t) = (String.length s + String.length t)%nat.
Proof. induction s as [|a s IH]; simpl; [done|]. by rewrite IH. Qed.

Lemma append_inj_r (s1 s2 t : string) : s1 +:+ t = s2 +:+ t → s1 = s2.
Proof.
  intros H.
  assert (Hlen : String.length s1 = String.length s2).
  { apply (f_equal String.length) in H.
    rewrite !string_length_app in H. lia. }
  revert s2 H Hlen. induction s1 as [|a s1 IH]; intros [|b s2]; simpl;
    try done.
  intros [= -> H] [= Hlen]. by rewrite (IH _ H Hlen).
Qed.

Lemma str_replace_length (c : Ascii.ascii) (s : string) :
  (String.length s
   ≤ String.length (str_replace c (String c (String c "")) s))%nat.
Proof.
  induction s as [|a s IH]; simpl; [done|].
  destruct (Ascii.eqb a c); rewrite ?string_length_app; simpl; lia.
Qed.

(** X6.  The literal processor of [String] renders a string between two
    quotes with every quote of the string doubled, and every percent sign
    too when the dialect doubles percent signs, so that the text is never
    shorter than the string; two different strings have different
    literals; a value that is not a string, [None] among them, has no
    [replace] and raises [AttributeError]. *)
Theorem String_literal_rendering (dialect : Dialect.t) :
  ∃ render,
    String_.literal_processor dialect = Some render
    ∧ (∀ s, ∃ body,
         render (PStr s) = Ok (PStr ("'" +:+ body +:+ "'"))
         ∧ doubled "'" body
         ∧ (Dialect._double_percents dialect = true → doubled "%" body)
         ∧ (String.length s ≤ String.length body)%nat)
    ∧ (∀ s1 s2, render (PStr s1) = render (PStr s2) → s1 = s2)
    ∧ (∀ value, isinstance_str value = false →
                render value = Raise (AttributeError "replace")).
Proof.
  eexists. split; [reflexivity|]. split; [|split].
  - intros s. eexists. split; [reflexivity|].
    destruct (Dialect._double_percents dialect).
    + split; [|split].
      * apply doubled_other_char; [done|]. apply str_replace_doubled.
      * intros _. apply str_replace_doubled.
      * etrans; [apply (str_replace_length "'")|].
        apply (str_replace_length "%").
    + split; [apply str_replace_doubled|]. split; [done|].
      apply (str_replace_length "'").
  - intros s1 s2 [= H]. apply (append_inj_r _ _ "'") in H.
    apply (str_replace_double_inj "'").
    destruct (Dialect._double_percents dialect); [|done].
    by apply (str_replace_double_inj "%").
  - by intros [].
Qed.

(** ** Expression adaptation: the lookup families *)

Lemma dict_display_lookup_Some {K V} `{EqDecision K} (d : list (K * V)) k v :
  dict_display_lookup d k = Some v → (k, v) ∈ d.
Proof.
  induction d as [|[k' v'] d IH]; simpl; [done|].
  destruct (dict_display_lookup d k) as [w|].
  - intros [= ->]. right. by apply IH.
  - destruct (decide (k' = k)) as [->|]; [|done]. intros [= ->]. by left.
Qed.

Lemma dict_display_lookup_None {K V} `{EqDecision K} (d : list (K * V)) k :
  dict_display_lookup d k = None → ∀ v, (k, v) ∉ d.
Proof.
  induction d as [|[k' v'] d IH]; simpl; [by intros _ v ?%elem_of_nil|].
  destruct (dict_display_lookup d k) as [w|]; [done|].
  destruct (decide (k' = k)) as [->|Hne]; [done|].
  intros _ v [[= -> ->]|Hin]%elem_of_cons; [done|]. by eapply IH.
Qed.

(** The outcome of [HasExpressionLookup.Comparator._adapt_expression], by
    the entry of the table under the operator and the right affinity. *)
Lemma adapt_expression_outcome (fresh : nat)
    (self other_comparator : Comparator.t) (op : operators.t)
    (adaptations : list (operators.t * list (Cls.t * Cls.t))) :
  HasExpressionLookup._expression_adaptations (Comparator.type self)
  = Ok adaptations →
  let entries := dict_display_get adaptations op [] in
  let othertype := _type_affinity (Comparator.type other_comparator) in
  ((∀ v, (othertype, v) ∉ entries)
   ∧ HasExpressionLookup._adapt_expression fresh self op other_comparator
     = Ok (op, Comparator.type self))
  ∨ ∃ v, (othertype, v) ∈ entries
         ∧ ((v = othertype
             ∧ HasExpressionLookup._adapt_expression fresh self op
                 other_comparator
               = Ok (op, Comparator.type other_comparator))
            ∨ (v = _type_affinity (Comparator.type self)
               ∧ HasExpressionLookup._adapt_expression fresh self op
                   other_comparator
                 = Ok (op, Comparator.type self))
            ∨ HasExpressionLookup._adapt_expression fresh self op
                other_comparator
              = (cfg ← default_config v; Ok (op, Instance_ fresh v cfg))).
Proof.
  intros Htable entries othertype.
  unfold HasExpressionLookup._adapt_expression. rewrite Htable.
  cbn [mbind result_bind]. unfold HasExpressionLookup._blank_dict.
  fold entries othertype.
  assert (Hlookup :
    dict_display_get (prod_map id TClass <$> entries) othertype
      (TInst (Comparator.type self))
    = match dict_display_lookup entries othertype with
      | Some c => TClass c
      | None => TInst (Comparator.type self)
      end).
  { unfold dict_display_get. rewrite dict_display_lookup_fmap.
    by destruct (dict_display_lookup _ _). }
  rewrite Hlookup. clear Hlookup.
  destruct (dict_display_lookup entries othertype) as [v|] eqn:Hv; simpl.
  - right. exists v. split; [by apply dict_display_lookup_Some|].
    destruct (decide (v = othertype)) as [->|Hne1].
    { left. split; [done|]. by rewrite bool_decide_eq_true_2. }
    rewrite bool_decide_eq_false_2 by done.
    destruct (decide (v = _type_affinity (Comparator.type self)))
      as [->|Hne2].
    { right. left. split; [done|]. by rewrite bool_decide_eq_true_2. }
    rewrite bool_decide_eq_false_2 by done.
    right. right. by destruct (default_config v).
  - left. split; [|done]. by apply dict_display_lookup_None.
Qed.

Lemma expression_adaptations_class (t : TypeEngine)
    (adaptations : list (operators.t * list (Cls.t * Cls.t))) :
  HasExpressionLookup._expression_adaptations t = Ok adaptations →
  in_lookup_family (__class__ t) = true.
Proof.
  destruct t as [i c cfg]. unfold HasExpressionLookup._expression_adaptations.
  cbn [__class__]. unfold in_lookup_family.
  destruct (Cls.issubclass c Cls.Integer); [done|].
  destruct (Cls.issubclass c Cls.Numeric); [done|].
  destruct (Cls.issubclass c Cls.DateTime); [done|].
  destruct (Cls.issubclass c Cls.Date); [done|].
  destruct (Cls.issubclass c Cls.Time); [done|].
  by destruct (Cls.issubclass c Cls.Interval).
Qed.

Lemma in_lookup_family_spec (i : nat) (c : Cls.t) (cfg : Config TypeEngine) :
  in_lookup_family c = true →
  (∃ adaptations,
     HasExpressionLookup._expression_adaptations (Instance_ i c cfg)
     = Ok adaptations)
  ∧ (∃ cfg', default_config c = Ok cfg')
  ∧ _type_affinity (Instance_ i c cfg)
    ∈ [Cls.Integer; Cls.Numeric; Cls.Date; Cls.DateTime; Cls.Time;
       Cls.Interval].
Proof.
  destruct c; intros H; try discriminate H;
    (split; [by eexists|]; split; [by eexists|];
     apply (bool_decide_unpack _); reflexivity).
Qed.

Lemma affinity_in_lookup_family (t : TypeEngine) :
  in_lookup_family (_type_affinity t) = true →
  in_lookup_family (__class__ t) = true.
Proof. destruct t as [i c cfg]. by destruct c. Qed.

(** The tables name classes of the lookup families only. *)
Lemma expression_adaptations_entries (t : TypeEngine) (op : operators.t)
    (adaptations : list (operators.t * list (Cls.t * Cls.t))) (k v : Cls.t) :
  HasExpressionLookup._expression_adaptations t = Ok adaptations →
  (k, v) ∈ dict_display_get adaptations op [] →
  in_lookup_family k = true ∧ in_lookup_family v = true
  ∧ k ≠ Cls.NullType.
Proof.
  destruct t as [i c cfg]. intros Htable Hin.
  destruct c; vm_compute in Htable; try discriminate Htable;
    injection Htable as <-; destruct op;
    match type of Hin with
    | _ ∈ ?l => let l' := eval vm_compute in l in change l with l' in Hin
    end;
    repeat (apply elem_of_cons in Hin as [[= -> ->]|Hin]; [done|]);
    by apply elem_of_nil in Hin.
Qed.

Lemma lookup_family_dispatch (is_commutative : operators.t → bool)
    (e : ColumnElement.t) (fresh : nat) (op : operators.t)
    (other_comparator : Comparator.t) :
  in_lookup_family (__class__ (ColumnElement.type e)) = true →
  _adapt_expression is_commutative fresh (Comparator.comparator e) op
    other_comparator
  = HasExpressionLookup._adapt_expression fresh (Comparator.comparator e) op
      other_comparator.
Proof.
  destruct e as [[i c cfg] k]. destruct c; intros H; try discriminate H;
    reflexivity.
Qed.

(** X7.  The adaptation of a left operand with a table never raises and
    keeps the operator, whatever the operator and the right operand are;
    and the result type is again of a class with a table, of the affinity
    [Integer], [Numeric], [Date], [DateTime], [Time] or [Interval]: every
    class a table names can be instantiated without arguments. *)
Theorem adaptation_stays_in_lookup_families (fresh : nat)
    (self other_comparator : Comparator.t) (op : operators.t)
    (adaptations : list (operators.t * list (Cls.t * Cls.t))) :
  HasExpressionLookup._expression_adaptations (Comparator.type self)
  = Ok adaptations →
  ∃ t,
    HasExpressionLookup._adapt_expression fresh self op other_comparator
    = Ok (op, t)
    ∧ (∃ adaptations', HasExpressionLookup._expression_adaptations t
                       = Ok adaptations')
    ∧ _type_affinity t
      ∈ [Cls.Integer; Cls.Numeric; Cls.Date; Cls.DateTime; Cls.Time;
         Cls.Interval].
Proof.
  intros Htable.
  pose proof (expression_adaptations_class _ _ Htable) as Hself.
  assert (Hfam : ∀ t, in_lookup_family (__class__ t) = true →
    (∃ adaptations', HasExpressionLookup._expression_adaptations t
                     = Ok adaptations')
    ∧ _type_affinity t
      ∈ [Cls.Integer; Cls.Numeric; Cls.Date; Cls.DateTime; Cls.Time;
         Cls.Interval]).
  { intros [i c cfg] H.
    by destruct (in_lookup_family_spec i c cfg H) as (? & _ & ?). }
  destruct (adapt_expression_outcome fresh self other_comparator op
              adaptations Htable) as [[_ ->]|(v & Hin & Hcase)].
  - eexists. split; [done|]. by apply Hfam.
  - destruct (expression_adaptations_entries _ op _ _ v Htable Hin)
      as (Hk & Hv & _).
    destruct Hcase as [[_ ->] | [[_ ->] | ->]].
    + eexists. split; [done|]. by apply Hfam, affinity_in_lookup_family.
    + eexists. split; [done|]. by apply Hfam.
    + destruct (in_lookup_family_spec fresh v NoConfig Hv)
        as (_ & [cfg' ->] & _).
      eexists. split; [done|]. by apply Hfam.
Qed.

Lemma adaptation_stays_in_lookup_families_witness :
  ∃ t,
    HasExpressionLookup._adapt_expression 100%nat
      (AdaptationExamples.column AdaptationExamples.a_date) operators.sub
      (AdaptationExamples.column AdaptationExamples.a_datetime)
    = Ok (operators.sub, t)
    ∧ _type_affinity t
      ∈ [Cls.Integer; Cls.Numeric; Cls.Date; Cls.DateTime; Cls.Time;
         Cls.Interval].
Proof.
  destruct (adaptation_stays_in_lookup_families 100%nat
              (AdaptationExamples.column AdaptationExamples.a_date)
              (AdaptationExamples.column AdaptationExamples.a_datetime)
              operators.sub (Date._expression_adaptations Cls.Date) eq_refl)
    as (t & Ht & _ & Haff).
  by exists t.
Defined.

(** X8.  Typing [+] and [*] does not depend on the order of the operands,
    up to affinity: when the table of the left operand has an entry for
    the affinity of the right operand, both [a op b] and [b op a] are
    typed, with the operator unchanged, and the two result types have the
    same affinity. *)
Theorem commutative_adaptation_affinity (is_commutative : operators.t → bool)
    (fresh1 fresh2 : nat) (a b : ColumnElement.t) (op : operators.t)
    (adaptations : list (operators.t * list (Cls.t * Cls.t))) :
  op = operators.add ∨ op = operators.mul →
  HasExpressionLookup._expression_adaptations (ColumnElement.type a)
  = Ok adaptations →
  is_Some (dict_display_lookup (dict_display_get adaptations op [])
             (_type_affinity (ColumnElement.type b))) →
  ∃ t1 t2,
    _adapt_expression is_commutative fresh1 (Comparator.comparator a) op
      (Comparator.comparator b) = Ok (op, t1)
    ∧ _adapt_expression is_commutative fresh2 (Comparator.comparator b) op
        (Comparator.comparator a) = Ok (op, t2)
    ∧ _type_affinity t1 = _type_affinity t2.
Proof.
  destruct a as [[ia ca cfga] ka], b as [[ib cb cfgb] kb].
  intros Hop Htable Hentry.
  destruct ca; vm_compute in Htable; try discriminate Htable;
    injection Htable as <-;
    destruct Hop as [-> | ->];
    destruct cb; vm_compute in Hentry;
    try (by destruct Hentry as [? [=]]);
    (do 2 eexists; split;
     [lazy; reflexivity|split; [lazy; reflexivity|reflexivity]]).
Qed.

Lemma commutative_adaptation_affinity_witness :
  ∃ t1 t2,
    _adapt_expression ConcatExamples.is_commutative 100%nat
      (AdaptationExamples.column AdaptationExamples.an_integer) operators.add
      (AdaptationExamples.column AdaptationExamples.a_date)
    = Ok (operators.add, t1)
    ∧ _adapt_expression ConcatExamples.is_commutative 101%nat
        (AdaptationExamples.column AdaptationExamples.a_date) operators.add
        (AdaptationExamples.column AdaptationExamples.an_integer)
      = Ok (operators.add, t2)
    ∧ _type_affinity t1 = _type_affinity t2.
Proof.
  apply (commutative_adaptation_affinity ConcatExamples.is_commutative
           100%nat 101%nat
           {| ColumnElement.type := AdaptationExamples.an_integer;
              ColumnElement.key := None |}
           {| ColumnElement.type := AdaptationExamples.a_date;
              ColumnElement.key := None |}
           operators.add (Integer._expression_adaptations Cls.Integer)
           (or_introl eq_refl) eq_refl).
  by eexists.
Defined.

(** ** Expression adaptation: operands of unknown type *)

Lemma NullType_adapt_expression_reflects
    (is_commutative : operators.t → bool) (fresh : nat)
    (self other_comparator : Comparator.t) (op : operators.t) :
  Comparator.comparator_class self = Comparator.NullType_Comparator →
  _adapt_expression is_commutative fresh self op other_comparator
  = (if Comparator.isinstance other_comparator Comparator.NullType_Comparator
        || negb (is_commutative op)
     then Ok (op, ColumnElement.type (Comparator.expr self))
     else _adapt_expression is_commutative fresh other_comparator op self).
Proof.
  intros Hself. unfold _adapt_expression at 1. rewrite Hself.
  cbn [Comparator.mro resolve_adapt_expression].
  unfold NullTypeComparator._adapt_expression.
  destruct (Comparator.isinstance other_comparator
              Comparator.NullType_Comparator) eqn:Hc; [done|].
  destruct (is_commutative op); [|done]. simpl.
  unfold _adapt_expression, Comparator.isinstance in *.
  by destruct (Comparator.comparator_class other_comparator).
Qed.

(** X9.  An operand of the null type on the left keeps the expression
    untyped when the right operand is of the null type too or the operator
    is not commutative, and lets the right operand decide otherwise, with
    the operands swapped.  No table has an entry for the null type: a left
    operand with a table keeps its own type against an untyped right
    operand, under every operator, and so an untyped left operand of a
    commutative operator takes the type of such a right operand. *)
Theorem untyped_operand_adaptation (is_commutative : operators.t → bool)
    (fresh : nat) (untyped typed : ColumnElement.t) (op : operators.t) :
  __class__ (ColumnElement.type untyped) = Cls.NullType →
  let n := Comparator.comparator untyped in
  let c := Comparator.comparator typed in
  _adapt_expression is_commutative fresh n op c
  = (if Comparator.isinstance c Comparator.NullType_Comparator
        || negb (is_commutative op)
     then Ok (op, ColumnElement.type untyped)
     else _adapt_expression is_commutative fresh c op n)
  ∧ (∀ adaptations,
       HasExpressionLookup._expression_adaptations (ColumnElement.type typed)
       = Ok adaptations →
       _adapt_expression is_commutative fresh c op n
       = Ok (op, ColumnElement.type typed)
       ∧ (is_commutative op = true →
          _adapt_expression is_commutative fresh n op c
          = Ok (op, ColumnElement.type typed))).
Proof.
  intros Hnull n c.
  assert (Hleft : _adapt_expression is_commutative fresh n op c
    = (if Comparator.isinstance c Comparator.NullType_Comparator
          || negb (is_commutative op)
       then Ok (op, ColumnElement.type untyped)
       else _adapt_expression is_commutative fresh c op n)).
  { apply NullType_adapt_expression_reflects.
    unfold n, Comparator.comparator. cbn [Comparator.comparator_class].
    by rewrite Hnull. }
  split; [done|].
  intros adaptations Htable.
  pose proof (expression_adaptations_class _ _ Htable) as Hfam.
  assert (Hright : _adapt_expression is_commutative fresh c op n
                   = Ok (op, ColumnElement.type typed)).
  { unfold c. rewrite lookup_family_dispatch by done.
    destruct (adapt_expression_outcome fresh (Comparator.comparator typed) n
                op adaptations Htable) as [[_ ->]|(v & Hin & _)]; [done|].
    destruct (expression_adaptations_entries _ op _ _ v Htable Hin)
      as (_ & _ & Hk).
    destruct Hk. unfold n, Comparator.comparator. cbn [Comparator.type].
    destruct (ColumnElement.type untyped) as [i cn cfg].
    cbn [__class__] in Hnull. by subst cn. }
  split; [done|]. intros Hcomm. rewrite Hleft, Hcomm.
  replace (Comparator.isinstance c Comparator.NullType_Comparator)
    with false; [done|].
  unfold c, Comparator.comparator, Comparator.isinstance.
  cbn [Comparator.comparator_class].
  destruct typed as [[i ct cfg] k]. cbn [ColumnElement.type __class__] in *.
  by destruct ct.
Qed.

Lemma untyped_operand_adaptation_witness :
  _adapt_expression ConcatExamples.is_commutative 100%nat
    (AdaptationExamples.column ConcatExamples.a_nulltype) operators.add
    (AdaptationExamples.column AdaptationExamples.a_numeric)
  = Ok (operators.add, AdaptationExamples.a_numeric)
  ∧ _adapt_expression ConcatExamples.is_commutative 100%nat
      (AdaptationExamples.column ConcatExamples.a_nulltype) operators.sub
      (AdaptationExamples.column AdaptationExamples.a_numeric)
    = Ok (operators.sub, ConcatExamples.a_nulltype).
Proof.
  split.
  - destruct (untyped_operand_adaptation ConcatExamples.is_commutative
                100%nat
                {| ColumnElement.type := ConcatExamples.a_nulltype;
                   ColumnElement.key := None |}
                {| ColumnElement.type := AdaptationExamples.a_numeric;
                   ColumnElement.key := None |}
                operators.add eq_refl) as [_ H].
    exact (proj2 (H _ eq_refl) eq_refl).
  - exact (proj1 (untyped_operand_adaptation ConcatExamples.is_commutative
                    100%nat
                    {| ColumnElement.type := ConcatExamples.a_nulltype;
                       ColumnElement.key := None |}
                    {| ColumnElement.type := AdaptationExamples.a_numeric;
                       ColumnElement.key := None |}
                    operators.sub eq_refl)).
Defined.

(** ** Arrays: construction and chains of indexes *)

Lemma ARRAY_getitem_result_type_witness :
  ∃ e, ARRAY.__getitem__ 40 (ArrayExamples.column ArrayExamples.matrix0)
         (ARRAY.SliceIndex (Some 0) (Some 5) None) = Ok e
       ∧ ColumnElement.type e = ArrayExamples.matrix0.
Proof.
  destruct (ARRAY_getitem_result_type 40
              (ArrayExamples.column ArrayExamples.matrix0)
              (ARRAY.SliceIndex (Some 0) (Some 5) None)) with
    (item_type := Instance_ 23 Cls.Integer NoConfig) (as_tuple := false)
    (dimensions := Some 2) (zero_indexes := true) as (e & He & Ht).
  - intros ?????? _ [= <- <- <-]. split; by eexists.
  - reflexivity.
  - by exists e.
Defined.

(** X11.  An array type that [ARRAY.__init__] returns has an item type
    that is not an array: an instance of [ARRAY] is refused with
    [ValueError], and so is the class [ARRAY], which cannot be
    instantiated without arguments; an item type given as a class is
    instantiated with the defaults of the class, an instance is kept as
    it is. *)
Theorem ARRAY_init_never_nested (fresh : nat) (item_type : TypeObj)
    (as_tuple : bool) (dimensions : option Z) (zero_indexes : bool)
    (arr : TypeEngine) :
  ARRAY.__init__ fresh item_type as_tuple dimensions zero_indexes = Ok arr →
  ∃ item,
    arr = Instance_ fresh Cls.ARRAY
            (ArrayConfig item as_tuple dimensions zero_indexes)
    ∧ isinstance item Cls.ARRAY = false
    ∧ match item_type with
      | TInst t => item = t
      | TClass c =>
          ∃ cfg, default_config c = Ok cfg ∧ item = Instance_ (S fresh) c cfg
      end.
Proof.
  unfold ARRAY.__init__. destruct item_type as [c|t].
  - unfold to_instance. destruct (default_config c) as [cfg|] eqn:Hcfg;
      simpl; [|done].
    intros [= <-]. eexists. split; [done|]. split; [|by eauto].
    by destruct c.
  - destruct (isinstance t Cls.ARRAY) eqn:Ht; [done|].
    intros [= <-]. by eexists.
Qed.

Lemma ARRAY_init_never_nested_witness :
  ∃ item,
    ARRAY.__init__ 20 (TClass Cls.Integer) false (Some 2) false
    = Ok (Instance_ 20 Cls.ARRAY (ArrayConfig item false (Some 2) false))
    ∧ isinstance item Cls.ARRAY = false.
Proof.
  destruct (ARRAY_init_never_nested 20 (TClass Cls.Integer) false (Some 2)
              false ArrayExamples.matrix eq_refl) as (item & Harr & Hitem & _).
  exists item. split; [|done]. by rewrite <-Harr.
Defined.

Lemma ARRAY_getitem_int (fresh : nat) (expr : ColumnElement.t)
    (item_type : TypeEngine) (as_tuple zero_indexes : bool) (d i : Z) :
  config (ColumnElement.type expr)
  = ArrayConfig item_type as_tuple (Some d) zero_indexes →
  ARRAY.__getitem__ fresh (Comparator.comparator expr) (ARRAY.IntIndex i)
  = Ok {| ColumnElement.type :=
            if d =? 1 then item_type
            else Instance_ fresh (__class__ (ColumnElement.type expr))
                   (ArrayConfig item_type as_tuple (Some (d - 1))
                      zero_indexes);
          ColumnElement.key := None |}.
Proof.
  intros Hcfg. unfold ARRAY.__getitem__, ARRAY._setup_getitem, ARRAY.adapt.
  cbn [Comparator.type Comparator.comparator]. rewrite Hcfg.
  by destruct (d =? 1).
Qed.

(** X12.  An array expression of [dimensions=d] indexed by [n] integers,
    [1 ≤ n ≤ d], one after the other: with [n = d] the result has the item
    type; with [n < d] it is an array of the same class, item type and
    flags with [d - n] dimensions, the object the last step allocated. *)
Theorem ARRAY_index_every_dimension (indexes : list Z) :
  ∀ (fresh : nat) (expr : ColumnElement.t) (item_type : TypeEngine)
    (as_tuple zero_indexes : bool) (d : Z),
    __class__ (ColumnElement.type expr) = Cls.ARRAY →
    config (ColumnElement.type expr)
    = ArrayConfig item_type as_tuple (Some d) zero_indexes →
    (0 < length indexes)%nat →
    Z.of_nat (length indexes) ≤ d →
    ∃ e,
      ARRAYChain.getitem_chain fresh expr (ARRAY.IntIndex <$> indexes) = Ok e
      ∧ ColumnElement.type e
        = if Z.of_nat (length indexes) =? d then item_type
          else Instance_ (fresh + length indexes - 1) Cls.ARRAY
                 (ArrayConfig item_type as_tuple
                    (Some (d - Z.of_nat (length indexes))) zero_indexes).
Proof.
  induction indexes as [|i indexes IH];
    intros fresh expr item_type as_tuple zero_indexes d Hcls Hcfg Hpos Hlen;
    [simpl in Hpos; lia|].
  cbn [fmap list_fmap ARRAYChain.getitem_chain].
  rewrite (ARRAY_getitem_int fresh expr item_type as_tuple zero_indexes d i)
    by done.
  cbn [mbind result_bind]. rewrite Hcls.
  destruct indexes as [|j indexes].
  { eexists. split; [reflexivity|]. cbn [ColumnElement.type].
    change (Z.of_nat (length [i])) with 1. rewrite (Z.eqb_sym 1 d).
    destruct (d =? 1); [done|]. cbn [length].
    by replace (fresh + 1 - 1)%nat with fresh by lia. }
  destruct (d =? 1) eqn:Hd.
  { apply Z.eqb_eq in Hd. subst d. simpl in Hlen. lia. }
  set (e1 := {| ColumnElement.type := _; ColumnElement.key := None |}).
  destruct (IH (S fresh) e1 item_type as_tuple zero_indexes (d - 1))
    as (e & He & Ht).
  { done. }
  { done. }
  { simpl. lia. }
  { cbn [length] in *. lia. }
  exists e. split; [exact He|]. rewrite Ht.
  replace (Z.of_nat (length (j :: indexes)) =? d - 1)
    with (Z.of_nat (length (i :: j :: indexes)) =? d).
  2:{ destruct (Z.eqb_spec (Z.of_nat (length (i :: j :: indexes))) d),
        (Z.eqb_spec (Z.of_nat (length (j :: indexes))) (d - 1));
        try done; cbn [length] in *; lia. }
  destruct (_ =? d); [done|]. cbn [length].
  replace (S fresh + S (length indexes) - 1)%nat
    with (fresh + S (S (length indexes)) - 1)%nat by lia.
  do 3 f_equal. lia.
Qed.

Lemma ARRAY_index_every_dimension_witness :
  ∃ e,
    ARRAYChain.getitem_chain 40
      {| ColumnElement.type := ArrayExamples.matrix;
         ColumnElement.key := Some "data" |}
      [ARRAY.IntIndex 5; ARRAY.IntIndex 6] = Ok e
    ∧ ColumnElement.type e = Instance_ 21 Cls.Integer NoConfig.
Proof.
  apply (ARRAY_index_every_dimension [5; 6] 40
           {| ColumnElement.type := ArrayExamples.matrix;
              ColumnElement.key := Some "data" |}
           (Instance_ 21 Cls.Integer NoConfig) false false 2
           eq_refl eq_refl).
  - simpl. lia.
  - simpl. lia.
Defined.

(** ** JSON: what is read back *)

(** X13.  With a serializer and a deserializer that undoes it, and that
    writes no [None], the value read back from what the bind processor of
    a [JSON] type stored is the value bound, except that the sentinel
    [JSON.NULL] and the [null()] element both come back as [None]; a SQL
    NULL is read as [None] without a call of the deserializer. *)
Theorem JSON_bind_result_roundtrip
    (json_dumps json_loads : PyVal → result PyVal)
    (self : JSON.t) (dialect : Dialect.t) (coltype : PyVal) :
  Dialect._json_serializer dialect = None →
  (∀ v s, json_dumps v = Ok s → s ≠ PNone ∧ json_loads s = Ok v) →
  let bind := JSON.bind_processor json_dumps self dialect in
  let result :=
    JSONResult.result_processor json_loads None self dialect coltype in
  (∀ deserializer,
     JSONResult.result_processor json_loads deserializer self dialect coltype
       PNone = Ok PNone)
  ∧ ∀ value s,
      bind value = Ok s →
      result s
      = Ok (if bool_decide (value = JSON.NULL) || JSON.isinstance_Null value
            then PNone else value).
Proof.
  intros Hser Hinv bind result. split; [done|].
  intros value s. unfold bind, result, JSON.bind_processor,
    JSONResult.result_processor, JSON._make_bind_processor.
  rewrite Hser. simpl.
  destruct (decide (value = JSON.NULL)) as [->|Hne].
  { simpl. intros Hs. destruct (Hinv _ _ Hs) as [Hnone Hloads].
    by rewrite bool_decide_eq_false_2. }
  rewrite (bool_decide_eq_false_2 (value = JSON.NULL)) by done. simpl.
  destruct (JSON.isinstance_Null value) eqn:Hnull; simpl.
  { by intros [= <-]. }
  destruct (bool_decide (value = PNone) && JSON.none_as_null self) eqn:Hn.
  { intros [= <-]. simpl.
    apply andb_true_iff in Hn as [->%bool_decide_eq_true _]. done. }
  intros Hs. destruct (Hinv _ _ Hs) as [Hnone Hloads].
  by rewrite bool_decide_eq_false_2.
Qed.

Lemma JSON_bind_result_roundtrip_witness :
  JSONResult.result_processor FurtherExamples.loads None
    {| JSON.none_as_null := false |} Examples.sqlite PNone (PStr "true")
  = Ok (PBool true)
  ∧ JSONResult.result_processor FurtherExamples.loads None
      {| JSON.none_as_null := false |} Examples.sqlite PNone (PStr "null")
    = Ok PNone.
Proof.
  assert (Hinv : ∀ v s, FurtherExamples.dumps v = Ok s →
                        s ≠ PNone ∧ FurtherExamples.loads s = Ok v).
  { intros v s. destruct v as [|[]| | | | | | | |]; simpl; intros [= <-];
      by split. }
  destruct (JSON_bind_result_roundtrip FurtherExamples.dumps
              FurtherExamples.loads {| JSON.none_as_null := false |}
              Examples.sqlite PNone eq_refl Hinv) as [_ H].
  split.
  - exact (H (PBool true) (PStr "true") eq_refl).
  - exact (H JSON.NULL (PStr "null") eq_refl).
Defined.

(** ** JSON: indexes and casts *)

(** X14.  Indexing a [JSON] expression gives a binary expression over it
    of the type of the indexed expression, under the path operator for a
    sequence and the index operator for any other index; on such an
    expression every cast returns the same expression with the type it is
    given, [as_integer] an [Integer] for instance, and [as_json] the
    expression itself.  On a column, and on a binary expression of another
    operator, a cast raises [InvalidRequestError] with the name of the
    method. *)
Theorem JSON_index_casts (fresh : nat) (e : JSONComparator.Expr)
    (index : JSONComparator.Index) :
  let indexed :=
    JSONComparator.__getitem__ (JSONComparator.comparator e) index in
  let self := JSONComparator.comparator indexed in
  (∃ right_ operator,
     indexed
     = JSONComparator.BinaryExpression e right_ operator
         (JSONComparator.expr_type e)
     ∧ JSONComparator.value right_ = index
     ∧ operator = match index with
                  | JSONComparator.Sequence _ =>
                      operators.json_path_getitem_op
                  | JSONComparator.Scalar _ => operators.json_getitem_op
                  end
     ∧ (∀ typ method_name,
          JSONComparator._binary_w_type self typ method_name
          = exc.Returns
              (JSONComparator.BinaryExpression e right_ operator typ)))
  ∧ JSONComparator.as_json self = indexed
  ∧ (∃ cast, JSONComparator.as_integer fresh self = exc.Returns cast
             ∧ JSONComparator.expr_type cast
               = Instance_ fresh Cls.Integer NoConfig)
  ∧ (∀ c typ method_name,
       JSONComparator._binary_w_type
         (JSONComparator.comparator (JSONComparator.Column_ c)) typ
         method_name
       = exc.Raises (exc.InvalidRequestError method_name))
  ∧ (∀ left_ right_ operator t typ method_name,
       operator ≠ operators.json_getitem_op →
       operator ≠ operators.json_path_getitem_op →
       JSONComparator._binary_w_type
         (JSONComparator.comparator
            (JSONComparator.BinaryExpression left_ right_ operator t))
         typ method_name
       = exc.Raises (exc.InvalidRequestError method_name)).
Proof.
  intros indexed self. split; [|split; [done|split; [|split; [done|]]]].
  - destruct index as [v|path]; do 2 eexists; (split; [reflexivity|]);
      repeat split.
  - destruct index; by eexists.
  - intros left_ right_ operator t typ method_name H1 H2.
    unfold JSONComparator._binary_w_type. simpl.
    rewrite bool_decide_eq_false_2; [done|].
    rewrite !elem_of_cons, elem_of_nil. tauto.
Qed.

(** ** Interval: the epoch representation *)

(** X15.  Without a processor of the implementation type, the bind
    processor of [Interval] stores a [timedelta] as the [datetime] that
    far from the epoch, and raises [OverflowError] when that falls outside
    the range of [datetime]; [None] stays [None] in both directions; and
    what the result processor reads from a stored value is the value that
    was bound.  The same round trip holds over processors of the
    implementation type that undo each other. *)
Theorem Interval_epoch_roundtrip :
  (∀ us,
     Interval.bind_processor None (Interval.Timedelta us)
     = if (Interval.datetime_min <=? us) && (us <=? Interval.datetime_max)
       then exc.Returns (Interval.Datetime us)
       else exc.Raises exc.OverflowError)
  ∧ Interval.bind_processor None Interval.VNone
    = exc.Returns Interval.VNone
  ∧ Interval.result_processor None Interval.VNone
    = exc.Returns Interval.VNone
  ∧ (∀ value stored,
       Interval.bind_processor None value = exc.Returns stored →
       Interval.result_processor None stored = exc.Returns value)
  ∧ (∀ impl_bind impl_result,
       (∀ dt_value stored,
          impl_bind dt_value = exc.Returns stored →
          impl_result stored = exc.Returns dt_value) →
       ∀ value stored,
         Interval.bind_processor (Some impl_bind) value
         = exc.Returns stored →
         Interval.result_processor (Some impl_result) stored
         = exc.Returns value).
Proof.
  assert (Hround : ∀ value dt_value,
    (if negb (Interval.is_None value) then Interval.epoch_add value
     else exc.Returns Interval.VNone) = exc.Returns dt_value →
    (if Interval.is_None dt_value then exc.Returns Interval.VNone
     else Interval.sub_epoch dt_value) = exc.Returns value).
  { intros [|us| |] dt_value; simpl; try done.
    - by intros [= <-].
    - destruct (_ && _); [|done]. by intros [= <-]. }
  split; [done|]. split; [done|]. split; [done|]. split.
  - intros value stored. apply Hround.
  - intros impl_bind impl_result Himpl value stored. simpl.
    destruct (if negb (Interval.is_None value) then _ else _)
      as [dt_value|] eqn:Hdt; simpl; [|done].
    intros Hstored. rewrite (Himpl _ _ Hstored). simpl. by apply Hround.
Qed.

(** ** PickleType over a binary type *)

(** X16.  [PickleType] over the processors of [_Binary]: [None] is bound
    and read back as [None] without a call of the pickler or of the
    driver; and when [loads] undoes [dumps], which returns no [None], and
    [bytes] undoes the [Binary] wrapper of the driver, what is read back
    from a stored value is the value that was bound. *)
Theorem PickleType_binary_roundtrip (self : PickleType.t)
    (DBAPIBinary : option (PyVal → result PyVal))
    (bytes : PyVal → result PyVal) :
  let bind :=
    PickleType.bind_processor self (_Binary.bind_processor DBAPIBinary) in
  let result :=
    PickleType.result_processor self (_Binary.result_processor bytes) in
  bind PNone = Ok PNone
  ∧ result PNone = Ok PNone
  ∧ ((∀ v s, PickleType.dumps self v (PickleType.protocol self) = Ok s →
             s ≠ PNone ∧ PickleType.loads self s = Ok v) →
     (∀ s w, s ≠ PNone →
             match DBAPIBinary with Some wrap => wrap s | None => Ok s end
             = Ok w →
             w ≠ PNone ∧ bytes w = Ok s) →
     ∀ value stored, bind value = Ok stored → result stored = Ok value).
Proof.
  intros bind result.
  split; [by destruct DBAPIBinary|]. split; [done|].
  intros Hpickle Hdriver value stored.
  unfold bind, result, PickleType.bind_processor,
    PickleType.result_processor, _Binary.bind_processor,
    _Binary.result_processor.
  destruct (decide (value = PNone)) as [->|Hvalue].
  { destruct DBAPIBinary; simpl; by intros [= <-]. }
  assert (Hstored : ∀ s,
    PickleType.dumps self value (PickleType.protocol self) = Ok s →
    match DBAPIBinary with Some wrap => wrap s | None => Ok s end
    = Ok stored →
    (value' ← (if negb (bool_decide (stored = PNone)) then bytes stored
               else Ok stored);
     if bool_decide (value' = PNone) then Ok PNone
     else PickleType.loads self value') = Ok value).
  { intros s Hs Hw. destruct (Hpickle _ _ Hs) as [Hnone Hloads].
    destruct (Hdriver s stored Hnone Hw) as [Hnone' Hbytes].
    rewrite (bool_decide_eq_false_2 (stored = PNone)) by done. simpl.
    rewrite Hbytes. simpl. by rewrite bool_decide_eq_false_2. }
  destruct DBAPIBinary as [wrap|]; simpl;
    rewrite (bool_decide_eq_false_2 (value = PNone)) by done; simpl.
  - destruct (PickleType.dumps self value (PickleType.protocol self))
      as [s|] eqn:Hs; simpl; [|done].
    destruct (Hpickle _ _ Hs) as [Hnone _].
    rewrite (bool_decide_eq_false_2 (s = PNone)) by done. simpl.
    intros Hw. by apply (Hstored s).
  - intros Hs. by apply (Hstored stored).
Qed.

(** ** Enum: a PEP-435 class with the default value list *)

Lemma NoDup_fst_filter {A B} (P : A * B → Prop) `{∀ x, Decision (P x)}
    (l : list (A * B)) :
  NoDup l.*1 → NoDup (filter P l).*1.
Proof.
  induction l as [|x l IH]; [done|].
  rewrite fmap_cons, NoDup_cons. intros [Hx Hl].
  rewrite filter_cons. destruct (decide (P x)); [|by apply IH].
  rewrite fmap_cons, NoDup_cons. split; [|by apply IH].
  intros Hin. apply Hx. apply list_elem_of_fmap in Hin as (y & -> & Hy).
  apply list_elem_of_fmap. exists y. split; [done|].
  by apply list_elem_of_filter in Hy as [_ ?].
Qed.

(** X18.  An [Enum] over a PEP-435 class, with no [values_callable] and
    no explicit [length], is always constructed, aliases or not.  When the
    members of the class are told apart by their keys and a member that
    has the key of a name is the member of that name (so it is in every
    class without a mix-in type), every entry of the class's [__members__]
    that the alias filter keeps (all of them unless [omit_aliases] is set,
    else those whose member carries the entry's own name) is persisted as
    a string that reads back as the same member. *)
Theorem Enum_class_roundtrip (enum_class : Enum.EnumClass) (kw : Enum.Kw) :
  NoDup (Enum.__members__ enum_class).*1 →
  Enum.kw_values_callable kw = None →
  Enum.kw_length kw = None →
  ∃ e,
    Enum._enum_init (Enum.PEP435 enum_class) kw = Ok e
    ∧ (keyed_by_identity
         (Enum.member_object <$> (Enum.__members__ enum_class).*2) →
       names_are_members enum_class →
       ∀ name m,
         (name, m) ∈ Enum.__members__ enum_class →
         (Enum.kw_omit_aliases kw = true → Enum.member_name m = name) →
         ∃ s, Enum._db_value_for_elem e (Enum.member_object m) = Ok (PStr s)
              ∧ Enum._object_value_for_elem e (PStr s)
                = Ok (Enum.member_object m)).
Proof.
  intros Hnames Hcall Hlength.
  set (members :=
         if Enum.kw_omit_aliases kw
         then filter (λ nv, Enum.member_name nv.2 = nv.1)
                (Enum.__members__ enum_class)
         else Enum.__members__ enum_class).
  assert (Hsub : ∀ nm, nm ∈ members → nm ∈ Enum.__members__ enum_class).
  { unfold members. destruct (Enum.kw_omit_aliases kw); [|done].
    by intros nm [_ ?]%list_elem_of_filter. }
  assert (Hparse : Enum._parse_into_values (Enum.PEP435 enum_class) kw
                   = (Some enum_class, members.*1,
                      Enum.member_object <$> members.*2)).
  { unfold Enum._parse_into_values. rewrite Hcall.
    by destruct (Enum.kw__enums kw). }
  assert (Hlen : length members.*1
                 = length (Enum.member_object <$> members.*2)).
  { by rewrite !length_fmap. }
  assert (Hnodup : NoDup members.*1).
  { unfold members. destruct (Enum.kw_omit_aliases kw); [|done].
    by apply NoDup_fst_filter. }
  destruct (enum_init_total _ _ _ _ _ Hparse Hlen) as (e & He & _).
  { intros n Hn. by rewrite Hlength in Hn. }
  exists e. split; [done|]. intros Hkeys Hown name m Hin Halias.
  assert (Hobj : ∀ i o, (Enum.member_object <$> members.*2) !! i = Some o →
            ∃ n m', members !! i = Some (n, m')
                    ∧ o = Enum.member_object m').
  { intros i o Hi.
    apply list_lookup_fmap_Some in Hi as (m' & -> & Hi).
    apply list_lookup_fmap_Some in Hi as ([n m''] & -> & Hi). eauto. }
  assert (Hident : keyed_by_identity (Enum.member_object <$> members.*2)).
  { intros o o' [i Ho]%list_elem_of_lookup_1 [i' Ho']%list_elem_of_lookup_1.
    destruct (Hobj i o Ho) as (n & m1 & Hi%list_elem_of_lookup_2%Hsub & ->).
    destruct (Hobj i' o' Ho')
      as (n' & m2 & Hi'%list_elem_of_lookup_2%Hsub & ->).
    apply Hkeys; apply list_elem_of_fmap_2, list_elem_of_fmap.
    - by exists (n, m1).
    - by exists (n', m2). }
  assert (Hmembers : labels_are_members members.*1
                       (Enum.member_object <$> members.*2)).
  { intros i k s o Ho Hkey Hs.
    destruct (Hobj i o Ho) as (n & m1 & Hi & ->).
    apply list_lookup_fmap_Some in Hs as ([n' m2] & -> & Hk). simpl in Hkey.
    rewrite list_lookup_fmap, list_lookup_fmap, Hk. simpl. f_equal.
    apply (Hown n m1 n' m2); [| |done]; apply Hsub;
      by eapply list_elem_of_lookup_2. }
  destruct (enum_init_lookups _ _ _ _ _ _ He Hparse Hlen Hnodup)
    as (_ & Hvalid & _ & Hobject & _).
  destruct (Hvalid Hident Hmembers (Enum.member_object m))
    as (j & s & Hget & Hj & Hs).
  { apply list_elem_of_fmap_2, list_elem_of_fmap.
    exists (name, m). split; [done|]. unfold members.
    destruct (Enum.kw_omit_aliases kw); [|done].
    apply list_elem_of_filter. split; [|done]. simpl. by apply Halias. }
  exists s. unfold Enum._db_value_for_elem, Enum._object_value_for_elem.
  by rewrite Hget, (Hobject j s _ Hs Hj).
Qed.

Lemma Enum_class_roundtrip_witness :
  ∃ e s,
    Enum._enum_init (Enum.PEP435 EnumExamples.Shade)
      EnumExamples.with_aliases = Ok e
    ∧ Enum._db_value_for_elem e (PObj 2) = Ok (PStr s)
    ∧ Enum._object_value_for_elem e (PStr s) = Ok (PObj 2).
Proof.
  destruct (Enum_class_roundtrip EnumExamples.Shade EnumExamples.with_aliases)
    as (e & He & Hround); [|done|done|].
  { apply (bool_decide_unpack _). by vm_compute. }
  destruct (plain_members_keyed ["dark"; "light"; "dim"]
              [EnumExamples.dark; EnumExamples.light; EnumExamples.dark])
    as [Hident _]; [by repeat constructor|].
  destruct (Hround Hident) with (name := "light") (m := EnumExamples.light)
    as (s & Hdb & Hobj).
  { intros n m n' m' Hm _ Hkey.
    unfold EnumExamples.Shade in Hm. simpl in Hm.
    rewrite !elem_of_cons, elem_of_nil in Hm.
    by destruct Hm as [[= _ ->]|[[= _ ->]|[[= _ ->]|[]]]]. }
  { right. by left. }
  { intros [=]. }
  by exists e, s.
Defined.
